(** * f1-tracker: task lifecycle, scoring, deadline notifications, schedule cache

    A shallow embedding of the main process (src/main/index.ts, src/main/db.ts)
    and of the parts of the renderer (App.tsx) that the specification talks
    about, followed by the properties of the specification that were checked
    against it.

    Conventions.
    - A JavaScript number is [num]: NaN, the two infinities, or a finite
      rational (every finite double is one).  Integers stored in SQLite
      INTEGER columns are [Z].
    - A JavaScript string is a [string] whose characters are read as code
      units below 256.
    - A possibly missing field of an IPC payload is [js A]: [Undefined],
      [Null] or a value.
    - Timestamps are milliseconds since the epoch ([Z]); the ISO text written
      by [toISO] and read back by [new Date(iso).getTime()] denotes the same
      number.
    - What the JavaScript runtime supplies (string to number conversion, the
      [Date] constructor and parser in local time) is a parameter,
      class [Platform]. *)

From Stdlib Require Import ZArith QArith Qminmax String Ascii List Bool Lia.
From stdpp Require Import base option gmap strings list fin_maps sorting.

Local Open Scope string_scope.
Local Open Scope Z_scope.

(* ===================================================================== *)
(** ** JavaScript values                                                  *)
(* ===================================================================== *)

Module Js.

Inductive num : Type :=
  | NaN
  | PInf
  | NInf
  | Fin (q : Q).

Inductive js (A : Type) : Type :=
  | Undefined
  | Null
  | Val (a : A).
Arguments Undefined {A}.
Arguments Null {A}.
Arguments Val {A} a.

(** [x ?? d] *)
Definition nullish {A} (x : js A) (d : A) : A :=
  match x with Val a => a | _ => d end.

(** [x !== undefined] *)
Definition defined {A} (x : js A) : bool :=
  match x with Undefined => false | _ => true end.

(** [String(x)] for a string-typed field *)
Definition String_of (x : js string) : string :=
  match x with Undefined => "undefined" | Null => "null" | Val s => s end.

(** [Number(x)] for a number-typed field *)
Definition Number_of (x : js num) : num :=
  match x with Undefined => NaN | Null => Fin 0 | Val n => n end.

Definition of_Z (z : Z) : num := Fin (inject_Z z).

(** [Math.trunc] on a finite number: rounding towards zero *)
Definition trunc (q : Q) : Z := Z.quot (Qnum q) (Z.pos (Qden q)).

(** truthiness of a number: false for NaN and (plus or minus) zero *)
Definition num_truthy (n : num) : bool :=
  match n with
  | NaN => false
  | Fin q => negb (Qnum q =? 0)
  | _ => true
  end.

(** truthiness of a string: false for the empty string *)
Definition str_truthy (s : string) : bool :=
  match s with EmptyString => false | _ => true end.

(** truthiness of a nullable TEXT column *)
Definition text_truthy (o : option string) : bool :=
  match o with Some s => str_truthy s | None => false end.

(** [n - 1] *)
Definition pred_num (n : num) : num :=
  match n with Fin q => Fin (q - 1)%Q | other => other end.

(** White space and line terminators removed by [String.prototype.trim],
    among the code units below 256: TAB, LF, VT, FF, CR, SP, NBSP. *)
Definition is_ws (c : ascii) : bool :=
  let n := N_of_ascii c in
  ((9 <=? n)%N && (n <=? 13)%N) || (n =? 32)%N || (n =? 160)%N.

Fixpoint trimStart (s : string) : string :=
  match s with
  | EmptyString => EmptyString
  | String c r => if is_ws c then trimStart r else s
  end.

Fixpoint trimEnd (s : string) : string :=
  match s with
  | EmptyString => EmptyString
  | String c r =>
      match trimEnd r with
      | EmptyString => if is_ws c then EmptyString else String c EmptyString
      | r' => String c r'
      end
  end.

Definition trim (s : string) : string := trimEnd (trimStart s).

(** [s.split("-")] *)
Fixpoint split_dash (s : string) : list string :=
  match s with
  | EmptyString => [EmptyString]
  | String c r =>
      if Ascii.eqb c "-"%char then EmptyString :: split_dash r
      else match split_dash r with
           | h :: t => String c h :: t
           | [] => [String c EmptyString]
           end
  end.

(** The part of the runtime the program relies on. *)
Class Platform : Type := {
  (** [Number(s)] for a string [s] *)
  Number_str : string -> num;
  (** [new Date(y, m, d).getTime()], local time; [None] is NaN *)
  Date_local : num -> num -> num -> option Z;
  (** [new Date(s).getTime()] for a date-time text; [None] is NaN *)
  Date_parse : string -> option Z;
  (** [Notification.isSupported()] *)
  Notification_isSupported : bool
}.

End Js.
Import Js.

(* ===================================================================== *)
(** ** Helpers of the main process                                        *)
(* ===================================================================== *)

(** [clampInt(v, min, max)] after [Number(v)]. *)
Definition clampInt (n : num) (min max : Z) : Z :=
  match n with
  | Fin q => Z.max min (Z.min max (trunc q))
  | _ => min
  end.

Definition ms_per_day : Z := 1000 * 60 * 60 * 24.

Section Dates.
Context `{Platform}.

(** [x || 1] where [x] may be missing from the destructured array *)
Definition or_one (x : option num) : num :=
  match x with
  | Some v => if num_truthy v then v else of_Z 1
  | None => of_Z 1
  end.

Definition ymdToDate (ymd : string) : option Z :=
  let ns := map Number_str (split_dash ymd) in
  Date_local (nth 0 ns NaN) (pred_num (or_one (nth_error ns 1))) (or_one (nth_error ns 2)).

(** [isLateByDays]; [None] is NaN. *)
Definition isLateByDays (deadlineYmd : string) (finished : Z) : option Z :=
  match ymdToDate deadlineYmd with
  | Some deadline => Some ((finished - deadline) / ms_per_day)
  | None => None
  end.

End Dates.

Definition basePoints (sessionType : string) : Z :=
  if String.eqb sessionType "race" then 25
  else if String.eqb sessionType "sprint" then 8
  else if String.eqb sessionType "qualifying" then 3
  else if String.eqb sessionType "pit" then 2
  else if String.eqb sessionType "practice" then 1
  else if String.eqb sessionType "parc" then 1
  else 0.

(* ===================================================================== *)
(** ** The tasks table (src/main/db.ts)                                   *)
(* ===================================================================== *)

(** One row of [tasks].  NOT NULL columns carry their value, nullable ones
    an option.  The columns [estimate_min] and [actual_min], which no
    statement of the program reads or writes, are left out. *)
Record TaskRow : Type := mkRow {
  id : Z;
  title : string;
  session_type : string;
  status : string;
  laps_total : Z;
  laps_done : Z;
  created_at : Z;
  deadline : option string;
  finished_at : option Z;
  points_base : Z;
  points_bonus : Z;
  points_penalty : Z;
  points_total : Z;
  points_session_type : option string
}.

(** The table and the AUTOINCREMENT counter kept in [sqlite_sequence]:
    the largest row id ever handed out.  SQLite gives a new row one more
    than the larger of this counter and the largest id in the table; rows
    enter the table through [tasks:create] only, so that is the counter
    plus one (see [db_ok]). *)
Record Db : Type := mkDb {
  rows : gmap Z TaskRow;
  seq : Z
}.

Definition empty_db : Db := {| rows := ∅; seq := 0 |}.

(** [status === "finish" || status === "dnf"] *)
Definition is_done (st : string) : bool :=
  String.eqb st "finish" || String.eqb st "dnf".

(* ===================================================================== *)
(** ** Deadline notifications                                             *)
(* ===================================================================== *)

(** A timeout waiting in the event loop: the task snapshot its callback
    closes over, and the time at which it becomes due. *)
Record Timeout : Type := mkTimeout {
  tm_id : Z;
  tm_title : string;
  tm_due : Z
}.

(** [notifTimers] maps a task id to a timer handle; [pending] is the set of
    timeouts the event loop still holds, by handle; handles are fresh. *)
Record Notif : Type := mkNotif {
  notifTimers : gmap Z Z;
  pending : gmap Z Timeout;
  next_handle : Z
}.

Definition empty_notif : Notif :=
  {| notifTimers := ∅; pending := ∅; next_handle := 1 |}.

Definition clearNotif (i : Z) (n : Notif) : Notif :=
  match notifTimers n !! i with
  | Some h =>
      {| notifTimers := delete i (notifTimers n);
         pending := delete h (pending n);
         next_handle := next_handle n |}
  | None =>
      {| notifTimers := delete i (notifTimers n);
         pending := pending n;
         next_handle := next_handle n |}
  end.

(** The delay Node's [setTimeout] really waits: anything that is not
    between 1 and 2^31-1 (NaN included, here [None]) becomes 1. *)
Definition node_delay (ms : option Z) : Z :=
  match ms with
  | Some d => if (1 <=? d) && (d <=? 2147483647) then d else 1
  | None => 1
  end.

Section Scheduler.
Context `{Platform}.

Definition scheduleDeadlineNotif (now : Z) (task : TaskRow) (n : Notif) : Notif :=
  let n1 := clearNotif (id task) n in
  match deadline task with
  | None => n1
  | Some dl =>
      if negb (str_truthy dl) then n1
      else if is_done (status task) then n1
      else
        let ms := (fun target => target - now) <$> Date_parse (dl ++ "T10:00:00") in
        if match ms with Some d => d <=? 0 | None => false end then n1
        else
          let h := next_handle n1 in
          {| notifTimers := <[id task := h]> (notifTimers n1);
             pending := <[h := {| tm_id := id task;
                                  tm_title := title task;
                                  tm_due := now + node_delay ms |}]> (pending n1);
             next_handle := h + 1 |}
  end.

End Scheduler.

(* ===================================================================== *)
(** ** IPC handlers of the main process (src/main/index.ts)               *)
(* ===================================================================== *)

Inductive result (A : Type) : Type :=
  | Ok (a : A)
  | Err (msg : string).
Arguments Ok {A} a.
Arguments Err {A} msg.


(** Payload of [tasks:create]. *)
Record CreatePayload : Type := mkCreate {
  c_title : js string;
  c_session_type : js string;
  c_status : js string;
  c_laps_total : js num;
  c_laps_done : js num;
  c_deadline : js string
}.

(** Payload of [tasks:update]; the id is a number. *)
Record UpdatePayload : Type := mkUpdate {
  u_id : Z;
  u_title : js string;
  u_session_type : js string;
  u_status : js string;
  u_laps_total : js num;
  u_laps_done : js num;
  u_deadline : js string
}.

(** A nullable value bound to a TEXT column: [undefined] is not bindable in
    [tasks:create] because of [?? null]; in [tasks:update] it is excluded by
    the [!== undefined] test. *)
Definition to_text (x : js string) : option string :=
  match x with Val s => Some s | _ => None end.

(** State of the main process: the database, the timers, and the
    notifications shown so far (task id and body), latest first. *)
Record World : Type := mkWorld {
  db : Db;
  notif : Notif;
  shown : list (Z * string)
}.

Definition init_world : World :=
  {| db := empty_db; notif := empty_notif; shown := [] |}.

Section Handlers.
Context `{Platform}.

(** The row [tasks:create] inserts under the fresh id [lastInsertRowid];
    [title] is the trimmed title, already checked. *)
Definition created_row (now : Z) (payload : CreatePayload) (title : string)
    (lastInsertRowid : Z) : TaskRow :=
  let session_type := nullish (c_session_type payload) "sprint" in
  let status := nullish (c_status payload) "start" in
  let laps_total := clampInt (nullish (c_laps_total payload) (of_Z 1)) 1 999 in
  let laps_done := clampInt (nullish (c_laps_done payload) (of_Z 0)) 0 laps_total in
  let deadline := to_text (c_deadline payload) in
  {| id := lastInsertRowid;
     title := title;
     session_type := session_type;
     status := status;
     laps_total := laps_total;
     laps_done := laps_done;
     created_at := now;
     deadline := deadline;
     finished_at := None;
     points_base := 0;
     points_bonus := 0;
     points_penalty := 0;
     points_total := 0;
     points_session_type := Some session_type |}.

Definition tasks_create (now : Z) (payload : CreatePayload) (w : World)
  : result Z * World :=
  let title := trim (nullish (c_title payload) "") in
  if negb (str_truthy title) then (Err "title is required", w)
  else
    let lastInsertRowid := seq (db w) + 1 in
    let created := created_row now payload title lastInsertRowid in
    (Ok lastInsertRowid,
     {| db := {| rows := <[lastInsertRowid := created]> (rows (db w));
                 seq := lastInsertRowid |};
        notif := scheduleDeadlineNotif now created (notif w);
        shown := shown w |}).

(** The row [tasks:update] writes back over [current]. *)
Definition updated_row (payload : UpdatePayload) (current : TaskRow) : TaskRow :=
  let title' :=
    if defined (u_title payload) then trim (String_of (u_title payload))
    else title current in
  let session_type' :=
    if defined (u_session_type payload) then String_of (u_session_type payload)
    else session_type current in
  let status' :=
    if defined (u_status payload) then String_of (u_status payload)
    else status current in
  let pointsSessionType0 :=
    match points_session_type current with
    | Some s => s
    | None => session_type current
    end in
  let doneNow := is_done status' in
  let pointsSessionType :=
    if negb doneNow && defined (u_session_type payload) then session_type'
    else pointsSessionType0 in
  let laps_total' :=
    if defined (u_laps_total payload)
    then clampInt (Number_of (u_laps_total payload)) 1 999
    else laps_total current in
  let laps_done' :=
    if defined (u_laps_done payload)
    then clampInt (Number_of (u_laps_done payload)) 0 laps_total'
    else laps_done current in
  let deadline' :=
    if defined (u_deadline payload) then to_text (u_deadline payload)
    else deadline current in
  {| id := id current;
     title := title';
     session_type := session_type';
     status := status';
     laps_total := laps_total';
     laps_done := laps_done';
     created_at := created_at current;
     deadline := deadline';
     finished_at := finished_at current;
     points_base := points_base current;
     points_bonus := points_bonus current;
     points_penalty := points_penalty current;
     points_total := points_total current;
     points_session_type := Some pointsSessionType |}.

Definition tasks_update (now : Z) (payload : UpdatePayload) (w : World)
  : result unit * World :=
  let i := u_id payload in
  if i =? 0 then (Err "id is required", w)
  else
    match rows (db w) !! i with
    | None => (Err "task not found", w)
    | Some current =>
        let updated := updated_row payload current in
        (Ok tt,
         {| db := {| rows := <[i := updated]> (rows (db w)); seq := seq (db w) |};
            notif := scheduleDeadlineNotif now updated (notif w);
            shown := shown w |})
    end.

(** [String(task.points_session_type || task.session_type)] *)
Definition scoreType (task : TaskRow) : string :=
  match points_session_type task with
  | Some s => if str_truthy s then s else session_type task
  | None => session_type task
  end.

(** The lateness penalty computed by [tasks:finish]. *)
Definition finish_penalty (task : TaskRow) (finishedAt : Z) : Z :=
  match deadline task with
  | Some dl =>
      if str_truthy dl then
        match isLateByDays dl finishedAt with
        | Some lateDays => if 3 <=? lateDays then 0 - 5 else 0
        | None => 0
        end
      else 0
  | None => 0
  end.

(** The row [tasks:finish] leaves in place of [task]. *)
Definition finished_row (finishedAt : Z) (task : TaskRow) : TaskRow :=
  let base := basePoints (scoreType task) in
  let penalty := finish_penalty task finishedAt in
  let total := base + penalty in
  {| id := id task;
     title := title task;
     session_type := "parc";
     status := "finish";
     laps_total := laps_total task;
     laps_done := laps_done task;
     created_at := created_at task;
     deadline := deadline task;
     finished_at := Some finishedAt;
     points_base := base;
     points_bonus := 0;
     points_penalty := penalty;
     points_total := total;
     points_session_type := points_session_type task |}.

Definition tasks_finish (now : Z) (i : Z) (w : World) : result unit * World :=
  match rows (db w) !! i with
  | None => (Err "task not found", w)
  | Some task =>
      (Ok tt,
       {| db := {| rows := <[i := finished_row now task]> (rows (db w));
                   seq := seq (db w) |};
          notif := clearNotif i (notif w);
          shown := shown w |})
  end.

(** The row [tasks:dnf] leaves in place of [task]. *)
Definition dnf_row (finishedAt : Z) (task : TaskRow) : TaskRow :=
  let penalty := -5 in
  {| id := id task;
     title := title task;
     session_type := "parc";
     status := "dnf";
     laps_total := laps_total task;
     laps_done := laps_done task;
     created_at := created_at task;
     deadline := deadline task;
     finished_at := Some finishedAt;
     points_base := 0;
     points_bonus := 0;
     points_penalty := penalty;
     points_total := penalty;
     points_session_type := points_session_type task |}.

Definition tasks_dnf (now : Z) (i : Z) (w : World) : result unit * World :=
  match rows (db w) !! i with
  | None => (Err "task not found", w)
  | Some task =>
      (Ok tt,
       {| db := {| rows := <[i := dnf_row now task]> (rows (db w));
                   seq := seq (db w) |};
          notif := clearNotif i (notif w);
          shown := shown w |})
  end.

Definition tasks_delete (i : Z) (w : World) : result unit * World :=
  (Ok tt,
   {| db := {| rows := delete i (rows (db w)); seq := seq (db w) |};
      notif := clearNotif i (notif w);
      shown := shown w |}).

(** [tasks:rescheduleNotifications]: every row is scheduled again, in the
    order the rows are read. *)
Definition tasks_rescheduleNotifications (now : Z) (w : World) : result unit * World :=
  (Ok tt,
   {| db := db w;
      notif := foldl (fun n kv => scheduleDeadlineNotif now (snd kv) n)
                     (notif w) (map_to_list (rows (db w)));
      shown := shown w |}).

(** The callback of a timeout runs: the timeout leaves the event loop, the
    notification is shown when supported, and the callback calls
    [clearNotif] with the id it closed over.  A handle that is not pending,
    or not yet due, does not run. *)
Definition timer_fire (now : Z) (h : Z) (w : World) : World :=
  match pending (notif w) !! h with
  | Some tm =>
      if tm_due tm <=? now then
        let n0 := {| notifTimers := notifTimers (notif w);
                     pending := delete h (pending (notif w));
                     next_handle := next_handle (notif w) |} in
        {| db := db w;
           notif := clearNotif (tm_id tm) n0;
           shown := if Notification_isSupported
                    then (tm_id tm, tm_title tm) :: shown w else shown w |}
      else w
  | None => w
  end.

End Handlers.

(* ===================================================================== *)
(** ** Traces of the main process                                         *)
(* ===================================================================== *)

(** What can happen to the main process: an IPC request, or the event loop
    running the callback of a timeout. *)
Inductive Call : Type :=
  | CCreate (p : CreatePayload)
  | CUpdate (p : UpdatePayload)
  | CFinish (i : Z)
  | CDnf (i : Z)
  | CDelete (i : Z)
  | CReschedule
  | CFire (h : Z).

Section Traces.
Context `{Platform}.

(** One event at time [now]; a request that throws leaves the state as it
    was, which the handlers above already return. *)
Definition step (now : Z) (c : Call) (w : World) : World :=
  match c with
  | CCreate p => snd (tasks_create now p w)
  | CUpdate p => snd (tasks_update now p w)
  | CFinish i => snd (tasks_finish now i w)
  | CDnf i => snd (tasks_dnf now i w)
  | CDelete i => snd (tasks_delete i w)
  | CReschedule => snd (tasks_rescheduleNotifications now w)
  | CFire h => timer_fire now h w
  end.

Fixpoint run (tr : list (Z * Call)) (w : World) : World :=
  match tr with
  | [] => w
  | (now, c) :: tr' => run tr' (step now c w)
  end.

(** The process starts on an existing database: no timer survives. *)
Definition boot (d : Db) : World :=
  {| db := d; notif := empty_notif; shown := [] |}.

(** The status [tasks:update] is about to store for the row [current]. *)
Definition update_status (p : UpdatePayload) (current : TaskRow) : string :=
  if defined (u_status p) then String_of (u_status p) else status current.

(** The update [p] gives a task that is finished a status that is not. *)
Definition reopens (p : UpdatePayload) (w : World) : bool :=
  match rows (db w) !! u_id p with
  | Some current =>
      is_done (status current) && negb (is_done (update_status p current))
  | None => false
  end.

(** The ids finished by one event: [tasks:finish] or [tasks:dnf] on a row
    that exists. *)
Definition terminated_by (c : Call) (w : World) : gset Z :=
  match c with
  | CFinish i | CDnf i =>
      if decide (is_Some (rows (db w) !! i)) then {[ i ]} else ∅
  | _ => ∅
  end.

(** The ids on which [tasks:finish] or [tasks:dnf] succeeded along a trace. *)
Fixpoint terminated (tr : list (Z * Call)) (w : World) : gset Z :=
  match tr with
  | [] => ∅
  | (now, c) :: tr' => terminated_by c w ∪ terminated tr' (step now c w)
  end.

(** The rows of the table after one event: either they are as before, or
    one row was inserted, replaced or deleted. *)
Inductive rows_change (w : World) : Call -> gmap Z TaskRow -> Prop :=
  | rc_same c : rows_change w c (rows (db w))
  | rc_create now p t :
      rows_change w (CCreate p)
        (<[seq (db w) + 1 := created_row now p t (seq (db w) + 1)]> (rows (db w)))
  | rc_update p cur :
      rows (db w) !! u_id p = Some cur ->
      rows_change w (CUpdate p) (<[u_id p := updated_row p cur]> (rows (db w)))
  | rc_finish now i task :
      rows (db w) !! i = Some task ->
      rows_change w (CFinish i) (<[i := finished_row now task]> (rows (db w)))
  | rc_dnf now i task :
      rows (db w) !! i = Some task ->
      rows_change w (CDnf i) (<[i := dnf_row now task]> (rows (db w)))
  | rc_delete i :
      rows_change w (CDelete i) (delete i (rows (db w))).

End Traces.

(* ===================================================================== *)
(** ** Renderer (App.tsx): what it sends to the handlers                  *)
(* ===================================================================== *)

(** [incLap(task)]: the payload it passes to [updateTask]. *)
Definition incLap (task : TaskRow) : UpdatePayload :=
  let nextDone := clampInt (of_Z (laps_done task + 1)) 0 (laps_total task) in
  let nextStatus := "progress" in
  {| u_id := id task; u_title := Undefined; u_session_type := Undefined;
     u_status := Val nextStatus; u_laps_total := Undefined;
     u_laps_done := Val (of_Z nextDone); u_deadline := Undefined |}.

(** [saveTitleToDb(id)] with the draft [draft]: an empty draft is dropped,
    anything else is sent. *)
Definition saveTitleToDb (i : Z) (draft : js string) : option UpdatePayload :=
  let v := trim (nullish draft "") in
  if negb (str_truthy v) then None
  else Some {| u_id := i; u_title := Val v; u_session_type := Undefined;
               u_status := Undefined; u_laps_total := Undefined;
               u_laps_done := Undefined; u_deadline := Undefined |}.

(** [moveTaskToSession(id, to)] over the tasks the renderer holds: nothing
    is sent for an unknown task, nor for a finished one unless it is moved
    to "parc". *)
Definition moveTaskToSession (tasks : list TaskRow) (i : Z) (to : string)
  : option UpdatePayload :=
  match List.find (fun t => id t =? i) tasks with
  | None => None
  | Some task =>
      let done := is_done (status task) in
      if done && negb (String.eqb to "parc") then None
      else Some {| u_id := i; u_title := Undefined; u_session_type := Val to;
                   u_status := Undefined; u_laps_total := Undefined;
                   u_laps_done := Undefined; u_deadline := Undefined |}
  end.

(** [TaskCard]: [done], the value of [disabled] on the Finish and DNF
    buttons. *)
Definition TaskCard_done (t : TaskRow) : bool := is_done (status t).

Section Buttons.
Context `{Platform}.

(** A click on Finish (resp. DNF) of the card showing [t]: a disabled
    button does not call its handler. *)
Definition click_Finish (now : Z) (t : TaskRow) (w : World) : World :=
  if TaskCard_done t then w else snd (tasks_finish now (id t) w).

Definition click_DNF (now : Z) (t : TaskRow) (w : World) : World :=
  if TaskCard_done t then w else snd (tasks_dnf now (id t) w).

End Buttons.

(** The rules edited in the settings page. *)
Record PointsRules : Type := mkRules {
  base : string -> Z;
  latePenaltyAfterDays : Z;
  latePenaltyPoints : Z;
  dnfPenaltyPoints : Z
}.

Definition DEFAULT_POINTS_RULES : PointsRules :=
  {| base := fun s =>
       if String.eqb s "practice" then 1
       else if String.eqb s "qualifying" then 2
       else if String.eqb s "sprint" then 3
       else if String.eqb s "race" then 5
       else if String.eqb s "pit" then 1
       else 0;
     latePenaltyAfterDays := 3;
     latePenaltyPoints := -5;
     dnfPenaltyPoints := -3 |}.

(* ===================================================================== *)
(** ** The race calendar: [f1:next], [f1:schedule] and the renderer cache *)
(* ===================================================================== *)

Module Schedule.




Record NextGp : Type := mkNextGp {
  name : string;
  location : string;
  dateTimeISO : string
}.

(** [round] is a number in what [f1:schedule] answers; read back from the
    cache it is [null] where that number was NaN or infinite. *)
Record F1Race : Type := mkF1Race {
  round : js num;
  raceName : string;
  circuitName : string;
  locality : string;
  country : string;
  date : string;
  r_dateTimeISO : string
}.










Section WithPlatform.
Context `{Platform}.




End WithPlatform.

(** *** Renderer side: the two localStorage entries *)

Record CacheEntry (A : Type) : Type := mkEntry {
  ts : Z;
  data : A
}.
Arguments mkEntry {A} ts data.
Arguments ts {A} c.
Arguments data {A} c.




(** The state of [App] as far as the calendar goes, and the two
    localStorage entries.  An entry holds JSON text; it is given by the
    value [JSON.parse] reads from it.  ([NextGp] has string properties
    only, which the text keeps as they are.) *)
Record Renderer : Type := mkRenderer {
  nextGp : option NextGp;
  gpError : option string;
  f1Races : list F1Race;
  f1Err : option string;
  gp_cache : option (CacheEntry NextGp);                 (* LS_GP_CACHE *)
  f1_schedule_cache : option (CacheEntry (list F1Race))  (* LS_F1_SCHEDULE_CACHE *)
}.






Section RendererWithPlatform.
Context `{Platform}.




End RendererWithPlatform.

End Schedule.

(* ===================================================================== *)
(** ** A reference runtime, used to evaluate the program on examples      *)
(* ===================================================================== *)

(** Local time is UTC; [Number] reads unsigned decimal integers (and the
    empty string as 0) and is NaN elsewhere; [new Date(text)] reads the shape
    [YYYY-MM-DDTHH:MM:SS]. *)
Module Utc.

Definition digit (c : ascii) : option Z :=
  let n := Z.of_N (N_of_ascii c) in
  if (48 <=? n) && (n <=? 57) then Some (n - 48) else None.

Fixpoint digits_from (acc : Z) (s : string) : option Z :=
  match s with
  | EmptyString => Some acc
  | String c r =>
      match digit c with
      | Some d => digits_from (10 * acc + d) r
      | None => None
      end
  end.

Definition number_str (s : string) : num :=
  match digits_from 0 s with
  | Some z => of_Z z
  | None => NaN
  end.

(** Days from 1970-01-01 to the given day of the proleptic Gregorian
    calendar; [m] is 1 to 12, [d] may overflow the month. *)
Definition days_from_civil (y m d : Z) : Z :=
  let y' := if m <=? 2 then y - 1 else y in
  let era := y' / 400 in
  let yoe := y' - era * 400 in
  let mp := if 2 <? m then m - 3 else m + 9 in
  let doy := (153 * mp + 2) / 5 + d - 1 in
  let doe := yoe * 365 + yoe / 4 - yoe / 100 + doy in
  era * 146097 + doe - 719468.

Definition finite_int (n : num) : option Z :=
  match n with Fin q => Some (trunc q) | _ => None end.

(** [new Date(y, m, d)]: month [m] counts from 0 and may overflow the year,
    a year between 0 and 99 means 1900 + y. *)
Definition date_local (y m d : num) : option Z :=
  match finite_int y, finite_int m, finite_int d with
  | Some y, Some m, Some d =>
      let y := if (0 <=? y) && (y <=? 99) then 1900 + y else y in
      let t := days_from_civil (y + m / 12) (m mod 12 + 1) d * ms_per_day in
      if (Z.abs t <=? 8640000000000000) then Some t else None
  | _, _, _ => None
  end.

Definition two_digits (a b : ascii) : option Z :=
  match digit a, digit b with
  | Some x, Some y => Some (10 * x + y)
  | _, _ => None
  end.

Definition date_parse (s : string) : option Z :=
  match s with
  | String y1 (String y2 (String y3 (String y4 (String "-" (String m1 (String m2
    (String "-" (String d1 (String d2 (String "T" (String h1 (String h2
    (String ":" (String i1 (String i2 (String ":" (String s1 (String s2
    EmptyString)))))))))))))))))) =>
      match two_digits y1 y2, two_digits y3 y4, two_digits m1 m2,
            two_digits d1 d2, two_digits h1 h2, two_digits i1 i2,
            two_digits s1 s2 with
      | Some ya, Some yb, Some mo, Some da, Some ho, Some mi, Some se =>
          if (1 <=? mo) && (mo <=? 12) && (1 <=? da) && (da <=? 31)
             && (ho <=? 23) && (mi <=? 59) && (se <=? 59)
          then Some (days_from_civil (100 * ya + yb) mo da * ms_per_day
                     + ((ho * 60 + mi) * 60 + se) * 1000)
          else None
      | _, _, _, _, _, _, _ => None
      end
  | _ => None
  end.

#[export] Instance platform : Platform :=
  {| Number_str := number_str;
     Date_local := date_local;
     Date_parse := date_parse;
     Notification_isSupported := true |}.

End Utc.

(* ===================================================================== *)
(** ** The properties, as the specification words them                    *)
(* ===================================================================== *)

Definition terminal (r : TaskRow) : Prop := is_done (status r) = true.

(** [lapsTotal >= 1] (at most 999) and [lapsDone] within [0, lapsTotal]. *)
Definition laps_ok (r : TaskRow) : Prop :=
  1 <= laps_total r <= 999 /\ 0 <= laps_done r <= laps_total r.

(** [pointsTotal = pointsBase + pointsBonus + pointsPenalty] *)
Definition points_sum (r : TaskRow) : Prop :=
  points_total r = points_base r + points_bonus r + points_penalty r.

Definition points_zero (r : TaskRow) : Prop :=
  points_base r = 0 /\ points_bonus r = 0 /\ points_penalty r = 0 /\ points_total r = 0.

(** The update [p] carries [laps_total] without [laps_done], and the
    total it leaves is below the [laps_done] of the stored row. *)
Definition lowers_total (p : UpdatePayload) (w : World) : bool :=
  match rows (db w) !! u_id p with
  | Some current =>
      defined (u_laps_total p) && negb (defined (u_laps_done p))
      && (clampInt (Number_of (u_laps_total p)) 1 999 <? laps_done current)
  | None => false
  end.

Section Stated.
Context `{Platform}.

(** No update of the trace lowers the total of task [i] below its
    [laps_done]. *)
Fixpoint total_kept (i : Z) (tr : list (Z * Call)) (w : World) : bool :=
  match tr with
  | [] => true
  | (now, c) :: tr' =>
      match c with
      | CUpdate p => negb ((u_id p =? i) && lowers_total p w)
      | _ => true
      end && total_kept i tr' (step now c w)
  end.

(** The laps bounds after every write, whatever the requests. *)
Definition laps_bounds_law : Prop :=
  forall (tr : list (Z * Call)) (i : Z) (r : TaskRow),
    rows (db (run tr init_world)) !! i = Some r -> laps_ok r.

(** The invariant behind the points columns, relative to the set [T] of
    ids finished so far. *)
Definition points_inv (T : gset Z) (w : World) : Prop :=
  forall i r, rows (db w) !! i = Some r ->
    points_sum r /\ (i ∉ T -> points_zero r).

(** Row ids are the keys of the table, between 1 and the counter. *)
Definition db_ok (d : Db) : Prop :=
  0 <= seq d /\
  forall i r, rows d !! i = Some r -> id r = i /\ 1 <= i <= seq d.



(** The award of a row: its points and the time it was finished. *)
Definition same_award (r r' : TaskRow) : Prop :=
  points_base r' = points_base r /\ points_bonus r' = points_bonus r /\
  points_penalty r' = points_penalty r /\ points_total r' = points_total r /\
  finished_at r' = finished_at r.

(** Finish or dnf on a finished task is rejected or changes nothing of
    the award. *)
Definition refinish_law : Prop :=
  forall (tr : list (Z * Call)) (now : Z) (c : Call) (i : Z) (r r' : TaskRow),
    c = CFinish i \/ c = CDnf i ->
    rows (db (run tr init_world)) !! i = Some r ->
    terminal r ->
    rows (db (step now c (run tr init_world))) !! i = Some r' ->
    same_award r r'.

(** A deadline is set and the finish is late by at least the grace period
    of [rules], in whole days from the start of the deadline day. *)
Definition late_by (rules : PointsRules) (r : TaskRow) (finishedAt : Z) : bool :=
  match deadline r with
  | Some dl =>
      str_truthy dl &&
      match isLateByDays dl finishedAt with
      | Some lateDays => latePenaltyAfterDays rules <=? lateDays
      | None => false
      end
  | None => false
  end.

(** The scoring postconditions of finish and dnf under the rules [rules]. *)
Definition scoring_follows (rules : PointsRules) : Prop :=
  forall (w : World) (now i : Z) (r : TaskRow),
    rows (db w) !! i = Some r ->
    ~ terminal r ->
    (forall r', rows (db (step now (CFinish i) w)) !! i = Some r' ->
       points_base r' = base rules (scoreType r)
       /\ points_bonus r' = 0
       /\ points_penalty r' =
            (if late_by rules r now then latePenaltyPoints rules else 0)
       /\ points_total r' = points_base r' + points_penalty r')
    /\ (forall r', rows (db (step now (CDnf i) w)) !! i = Some r' ->
          points_base r' = 0
          /\ points_bonus r' = 0
          /\ points_penalty r' = dnfPenaltyPoints rules
          /\ points_total r' = dnfPenaltyPoints rules).

(** The rule values come from the configuration, whichever it is. *)
Definition scoring_rules_law : Prop :=
  forall rules : PointsRules, scoring_follows rules.


(** Every timeout of the event loop is the one registered for its task,
    and handles below [next_handle] are the only ones in use. *)
Definition notif_ok (n : Notif) : Prop :=
  (forall h tm, pending n !! h = Some tm -> notifTimers n !! tm_id tm = Some h)
  /\ (forall h tm, pending n !! h = Some tm -> h < next_handle n).

(** At most one pending timeout per task id. *)
Definition one_timer_per_task (n : Notif) : Prop :=
  forall h1 h2 t1 t2,
    pending n !! h1 = Some t1 -> pending n !! h2 = Some t2 ->
    tm_id t1 = tm_id t2 -> h1 = h2.

(** No pending timeout for task [i]. *)
Definition no_timer_for (i : Z) (n : Notif) : Prop :=
  forall h tm, pending n !! h = Some tm -> tm_id tm <> i.

(** The notifications shown for task [i]. *)
Definition shown_for (i : Z) (w : World) : list (Z * string) :=
  filter (fun e => fst e = i) (shown w).

(** No update of the trace re-opens task [i]. *)
Fixpoint no_reopen_of (i : Z) (tr : list (Z * Call)) (w : World) : bool :=
  match tr with
  | [] => true
  | (now, c) :: tr' =>
      match c with
      | CUpdate p => negb ((u_id p =? i) && reopens p w)
      | _ => true
      end && no_reopen_of i tr' (step now c w)
  end.

(** Task [i] is finished or gone for good, and nothing is armed for it. *)
Definition closed (i : Z) (w : World) : Prop :=
  i <= seq (db w)
  /\ (forall r, rows (db w) !! i = Some r -> terminal r)
  /\ no_timer_for i (notif w).

(** The state of a running process: a well-formed table and timers. *)
Definition world_ok (w : World) : Prop :=
  db_ok (db w) /\ notif_ok (notif w).

(** Disarming: one timer per task at any moment, and once finish, dnf or
    delete of an existing task has completed, whatever happens next shows
    no notification for it. *)
Definition disarm_law : Prop :=
  forall (tr0 tr : list (Z * Call)),
    let w := run tr (boot (db (run tr0 init_world))) in
    one_timer_per_task (notif w)
    /\ forall (now : Z) (c : Call) (i : Z) (r : TaskRow) (tr' : list (Z * Call)),
         rows (db w) !! i = Some r ->
         c = CFinish i \/ c = CDnf i \/ c = CDelete i ->
         shown_for i (run tr' (step now c w)) = shown_for i (step now c w).

End Stated.

(** The values written in [basePoints], [tasks:finish] and [tasks:dnf]. *)
Definition main_rules : PointsRules :=
  {| base := basePoints;
     latePenaltyAfterDays := 3;
     latePenaltyPoints := -5;
     dnfPenaltyPoints := -5 |}.

(** *** The calendar *)

Import Schedule.


Section StatedSchedule.
Context `{Platform}.




End StatedSchedule.

(* ===================================================================== *)
(** ** Sample requests and traces                                         *)
(* ===================================================================== *)

Definition new_task (t : string) (bucket : js string) (dl : js string) : CreatePayload :=
  {| c_title := Val t; c_session_type := bucket; c_status := Undefined;
     c_laps_total := Val (of_Z 10); c_laps_done := Val (of_Z 5);
     c_deadline := dl |}.

(** A task with 5 of 10 laps, then [laps_total] lowered to 1 alone. *)
Definition trace_lower_total : list (Z * Call) :=
  [ (0, CCreate (new_task "a" Undefined Undefined));
    (1, CUpdate {| u_id := 1; u_title := Undefined; u_session_type := Undefined;
                   u_status := Undefined; u_laps_total := Val (of_Z 1);
                   u_laps_done := Undefined; u_deadline := Undefined |}) ].

(** A task with 5 of 10 laps, then [laps_total] raised to 20 alone. *)
Definition trace_raise_total : list (Z * Call) :=
  [ (0, CCreate (new_task "a" Undefined Undefined));
    (1, CUpdate {| u_id := 1; u_title := Undefined; u_session_type := Undefined;
                   u_status := Undefined; u_laps_total := Val (of_Z 20);
                   u_laps_done := Undefined; u_deadline := Undefined |}) ].

(** Create, lap, finish; a second task that is never finished. *)
Definition trace_two_tasks : list (Z * Call) :=
  [ (0, CCreate (new_task "a" (Val "race") Undefined));
    (1, CCreate (new_task "b" (Val "sprint") Undefined));
    (2, CFinish 1) ].

(** A race task, abandoned, then finished. *)
Definition trace_dnf : list (Z * Call) :=
  [ (0, CCreate (new_task "a" (Val "race") Undefined));
    (1, CDnf 1) ].

(** A race task, finished. *)
Definition trace_finished : list (Z * Call) :=
  [ (0, CCreate (new_task "a" (Val "race") Undefined));
    (1, CFinish 1) ].

(** An update that only carries a status. *)
Definition set_status (i : Z) (s : string) : UpdatePayload :=
  {| u_id := i; u_title := Undefined; u_session_type := Undefined;
     u_status := Val s; u_laps_total := Undefined;
     u_laps_done := Undefined; u_deadline := Undefined |}.

(** An update that only carries a title. *)
Definition set_title (i : Z) (t : string) : UpdatePayload :=
  {| u_id := i; u_title := Val t; u_session_type := Undefined;
     u_status := Undefined; u_laps_total := Undefined;
     u_laps_done := Undefined; u_deadline := Undefined |}.

(** A sprint task due on 2024-03-10, created on 2024-03-01. *)
Definition trace_sprint_due : list (Z * Call) :=
  [ (1709251200000, CCreate (new_task "a" (Val "sprint") (Val "2024-03-10"))) ].

(** A race task without deadline. *)
Definition trace_race : list (Z * Call) :=
  [ (0, CCreate (new_task "a" (Val "race") Undefined)) ].


(** An update that only carries a bucket, as drag and drop sends it. *)
Definition move_to (i : Z) (bucket : string) : UpdatePayload :=
  {| u_id := i; u_title := Undefined; u_session_type := Val bucket;
     u_status := Undefined; u_laps_total := Undefined;
     u_laps_done := Undefined; u_deadline := Undefined |}.


(** A task due on 2024-03-10, created on 2024-03-01 and finished the next
    day; its timer had handle 1. *)
Definition trace_due_finished : list (Z * Call) :=
  [ (1709251200000, CCreate (new_task "a" (Val "sprint") (Val "2024-03-10")));
    (1709337600000, CFinish 1) ].

(** After that: the status is set back to "progress", which arms handle 2,
    and the event loop runs it at 10:00 on the deadline day. *)
Definition trace_reopen_fire : list (Z * Call) :=
  [ (1709424000000, CUpdate (set_status 1 "progress"));
    (1710064800000, CFire 2) ].

(** After that instead: the title is edited, the timers are rebuilt, and the
    event loop is asked to run the old handle and the next one. *)
Definition trace_edit_fire : list (Z * Call) :=
  [ (1709424000000, CUpdate (set_title 1 "b"));
    (1709424000001, CReschedule);
    (1710064800000, CFire 1);
    (1710064800000, CFire 2) ].

(** *** Sample networks *)








Definition empty_renderer : Renderer :=
  {| nextGp := None; gpError := None; f1Races := []; f1Err := None;
     gp_cache := None; f1_schedule_cache := None |}.

(* ===================================================================== *)
(** ** More of the main process                                           *)
(* ===================================================================== *)

(** [tasks:list]: [SELECT * FROM tasks ORDER BY id DESC]. *)
Definition by_id_desc (a b : TaskRow) : Prop := id b <= id a.

#[global] Instance by_id_desc_dec (a b : TaskRow) : Decision (by_id_desc a b) :=
  decide (id b <= id a).

Definition tasks_list (w : World) : list TaskRow :=
  merge_sort by_id_desc (snd <$> map_to_list (rows (db w))).

(** What [scheduleDeadlineNotif] tests before it arms: a deadline that is
    not empty, a status that is not terminal, and a target that is not in
    the past ([ms <= 0] is false for NaN). *)
Definition armable `{Platform} (now : Z) (task : TaskRow) : bool :=
  match deadline task with
  | None => false
  | Some dl =>
      str_truthy dl && negb (is_done (status task)) &&
      match Date_parse (dl ++ "T10:00:00") with
      | Some target => negb (target - now <=? 0)
      | None => true
      end
  end.

(** The time at which a timeout armed at [now] for [task] becomes due. *)
Definition due_time `{Platform} (now : Z) (task : TaskRow) : Z :=
  match deadline task with
  | Some dl =>
      now + node_delay ((fun target => target - now) <$> Date_parse (dl ++ "T10:00:00"))
  | None => now
  end.

Section MoreTraces.
Context `{Platform}.

(** The ids [tasks:create] answered with along a trace, in order. *)
Fixpoint issued (tr : list (Z * Call)) (w : World) : list Z :=
  match tr with
  | [] => []
  | (now, c) :: tr' =>
      match c with
      | CCreate p =>
          match fst (tasks_create now p w) with
          | Ok i => [i]
          | Err _ => []
          end
      | _ => []
      end ++ issued tr' (step now c w)
  end.

(** The answer of the handler of a request: [None] when it returns,
    the message when it throws.  A timer callback has no answer. *)
Definition thrown (now : Z) (c : Call) (w : World) : option string :=
  let msg {A} (r : result A) := match r with Ok _ => None | Err m => Some m end in
  match c with
  | CCreate p => msg (fst (tasks_create now p w))
  | CUpdate p => msg (fst (tasks_update now p w))
  | CFinish i => msg (fst (tasks_finish now i w))
  | CDnf i => msg (fst (tasks_dnf now i w))
  | CDelete i => msg (fst (tasks_delete i w))
  | CReschedule => msg (fst (tasks_rescheduleNotifications now w))
  | CFire _ => None
  end.

(** The row a request writes: the one [tasks:create] inserts or the one
    [tasks:update] stores. *)
Definition written_row (now : Z) (c : Call) (w : World) : option TaskRow :=
  match c with
  | CCreate p =>
      let t := trim (nullish (c_title p) "") in
      if str_truthy t then Some (created_row now p t (seq (db w) + 1)) else None
  | CUpdate p =>
      if u_id p =? 0 then None
      else updated_row p <$> rows (db w) !! u_id p
  | _ => None
  end.

(** Every timeout of the event loop belongs to a row of the table that is
    active and has a deadline, and carries its title. *)
Definition alarms_fresh_at (m : gmap Z TaskRow) (n : Notif) : Prop :=
  forall h tm, pending n !! h = Some tm ->
    exists r, m !! tm_id tm = Some r
              /\ is_done (status r) = false
              /\ text_truthy (deadline r) = true
              /\ tm_title tm = title r.

Definition alarms_fresh (w : World) : Prop :=
  alarms_fresh_at (rows (db w)) (notif w).

(** Every entry of the registry is the handle of a pending timeout of
    that task. *)
Definition registry_ok (n : Notif) : Prop :=
  forall i h, notifTimers n !! i = Some h ->
    exists tm, pending n !! h = Some tm /\ tm_id tm = i.

(** [n] clicks on "+ Lap" of the card of task [i], the card showing the
    stored row each time. *)
Fixpoint lap_clicks (n : nat) (now : Z) (i : Z) (w : World) : World :=
  match n with
  | O => w
  | S n' =>
      match rows (db w) !! i with
      | Some r => lap_clicks n' now i (step now (CUpdate (incLap r)) w)
      | None => w
      end
  end.

End MoreTraces.

(** An update request that carries nothing but the id. *)
Definition touch (i : Z) : UpdatePayload :=
  {| u_id := i; u_title := Undefined; u_session_type := Undefined;
     u_status := Undefined; u_laps_total := Undefined;
     u_laps_done := Undefined; u_deadline := Undefined |}.

(** Deletes in between creates. *)
Definition trace_create_delete : list (Z * Call) :=
  [ (0, CCreate (new_task "a" Undefined Undefined));
    (1, CCreate (new_task "b" Undefined Undefined));
    (2, CDelete 2);
    (3, CCreate (new_task " " Undefined Undefined));
    (4, CCreate (new_task "c" Undefined Undefined)) ].

(** The guard that makes a request throw, and the message. *)
Definition rejection (c : Call) (w : World) : option string :=
  match c with
  | CCreate p =>
      if str_truthy (trim (nullish (c_title p) "")) then None
      else Some "title is required"
  | CUpdate p =>
      if u_id p =? 0 then Some "id is required"
      else if decide (is_Some (rows (db w) !! u_id p)) then None
      else Some "task not found"
  | CFinish i | CDnf i =>
      if decide (is_Some (rows (db w) !! i)) then None
      else Some "task not found"
  | _ => None
  end.

(** A task due on 2024-03-10, created on 2024-03-01; then its title is
    edited and its deadline moved to a day that is not a date. *)
Definition trace_due : list (Z * Call) :=
  [ (1709251200000, CCreate (new_task "a" (Val "sprint") (Val "2024-03-10"))) ].

Definition set_deadline (i : Z) (dl : js string) : UpdatePayload :=
  {| u_id := i; u_title := Undefined; u_session_type := Undefined;
     u_status := Undefined; u_laps_total := Undefined;
     u_laps_done := Undefined; u_deadline := dl |}.

(** Two tasks due on 2024-03-10 and one without deadline; the first is
    finished.  Then the process restarts on that table. *)
Definition trace_three : list (Z * Call) :=
  [ (1709251200000, CCreate (new_task "a" (Val "sprint") (Val "2024-03-10")));
    (1709251200001, CCreate (new_task "b" (Val "race") (Val "2024-03-10")));
    (1709251200002, CCreate (new_task "c" (Val "race") Undefined));
    (1709251200003, CFinish 1) ].

(** The values the points columns can take. *)
Definition points_bounded (r : TaskRow) : Prop :=
  points_bonus r = 0
  /\ points_base r ∈ [0; 1; 2; 3; 8; 25]
  /\ (points_penalty r = 0 \/ points_penalty r = -5)
  /\ -5 <= points_total r <= 25.

(** [finished_at] is set exactly on the rows of the ids in [T]. *)
Definition finished_inv (T : gset Z) (w : World) : Prop :=
  forall i r, rows (db w) !! i = Some r ->
    (finished_at r = None <-> i ∉ T).

(** A task created, lapped, moved and given a deadline. *)
Definition trace_busy : list (Z * Call) :=
  [ (0, CCreate (new_task "a" (Val "race") Undefined));
    (1, CUpdate (move_to 1 "pit"));
    (2, CUpdate (set_deadline 1 (Val "2024-03-10"))) ].

(* ===================================================================== *)
(** ** More of the renderer                                               *)
(* ===================================================================== *)

(** [addTask()] with the form holding [title], [session] and
    [lapsTotal]: nothing is sent for a blank title. *)
Definition addTask (title : string) (session : string) (lapsTotal : num)
  : option CreatePayload :=
  let t := trim title in
  if negb (str_truthy t) then None
  else
    let lt := clampInt (if num_truthy lapsTotal then lapsTotal else of_Z 1) 1 999 in
    Some {| c_title := Val t;
            c_session_type := Val session;
            c_status := Val "start";
            c_laps_total := Val (of_Z lt);
            c_laps_done := Val (of_Z 0);
            c_deadline := Null |}.

(** A string that is empty or whose first (resp. last) character is not
    white space. *)
Definition starts_clean (s : string) : Prop :=
  match s with
  | EmptyString => True
  | String c _ => is_ws c = false
  end.

Fixpoint ends_clean (s : string) : Prop :=
  match s with
  | EmptyString => True
  | String c EmptyString => is_ws c = false
  | String _ r => ends_clean r
  end.

(** *** The board: columns and points chips *)

Module Board.

(** The keys of the object literals [map] and [bySession]. *)
Definition buckets : list string :=
  ["practice"; "qualifying"; "sprint"; "race"; "pit"; "parc"].

(** The property names an object literal inherits from
    [Object.prototype]: looked up on [map] or [bySession] they are neither
    [undefined] nor one of the six entries. *)
Definition Object_prototype : list string :=
  ["constructor"; "__defineGetter__"; "__defineSetter__"; "hasOwnProperty";
   "__lookupGetter__"; "__lookupSetter__"; "isPrototypeOf";
   "propertyIsEnumerable"; "toString"; "valueOf"; "__proto__";
   "toLocaleString"].

(** The column [grouped] pushes a task to: "parc" when it is done, else
    [map[t.session_type] ?? map.practice].  [None] is the TypeError of
    calling [push] on an inherited property. *)
Definition column_of (t : TaskRow) : option string :=
  if is_done (status t) then Some "parc"
  else if bool_decide (session_type t ∈ buckets) then Some (session_type t)
  else if bool_decide (session_type t ∈ Object_prototype) then None
  else Some "practice".

Definition empty_columns : gmap string (list TaskRow) :=
  list_to_map ((fun k => (k, [])) <$> buckets).

(** One turn of the loop of [grouped]. *)
Definition grouped_step (acc : option (gmap string (list TaskRow))) (t : TaskRow)
  : option (gmap string (list TaskRow)) :=
  match acc, column_of t with
  | Some m, Some k => Some (alter (fun l => (l ++ [t])%list) k m)
  | _, _ => None
  end.

(** [grouped]: the six columns, each in the order of [tasks]. *)
Definition grouped (tasks : list TaskRow) : option (gmap string (list TaskRow)) :=
  foldl grouped_step (Some empty_columns) tasks.






End Board.

(** *** The calendar page: races by date *)

(** [f1ByDate]: a [Map] from a date to the races of that date. *)
Definition f1ByDate (races : list F1Race) : gmap string (list F1Race) :=
  foldl (fun m r => <[date r := (default [] (m !! date r) ++ [r])%list]> m) ∅ races.

(** [dayF1]: [f1ByDate.get(selectedDay) ?? []] *)
Definition dayF1 (races : list F1Race) (selectedDay : string) : list F1Race :=
  default [] (f1ByDate races !! selectedDay).

(** [hasF1] of a cell of the calendar grid *)
Definition hasF1 (races : list F1Race) (ymd : string) : bool :=
  match f1ByDate races !! ymd with
  | Some l => (0 <? length l)%nat
  | None => false
  end.

(** The task list the renderer holds after [refresh()] on the table left
    by [trace_three]. *)
Definition board_three : list TaskRow :=
  tasks_list (run (H := Utc.platform) trace_three init_world).


(** *** The countdown to the next race *)

(** The four numbers of [formatCountdown] for a difference of [diff]
    milliseconds: days, hours, minutes and seconds. *)
Definition countdown_parts (diff : Z) : Z * Z * Z * Z :=
  let sec := diff / 1000 in
  let days := sec / 86400 in
  let hours := Z.rem sec 86400 / 3600 in
  let mins := Z.rem sec 3600 / 60 in
  let s := Z.rem sec 60 in
  (days, hours, mins, s).

(** [formatCountdown(targetISO)] at the time [now]; [None] when the target
    is not a date, where the four numbers are NaN. *)
Definition formatCountdown `{Platform} (targetISO : string) (now : Z)
  : option (Z * Z * Z * Z) :=
  match Date_parse targetISO with
  | Some target => Some (countdown_parts (Z.max 0 (target - now)))
  | None => None
  end.

(** *** Appearance settings *)

(** [clampNum(v, min, max)] after [Number(v)]. *)
Definition clampNum (n : num) (min max : Q) : Q :=
  match n with
  | Fin q => Qmax min (Qmin max q)
  | _ => min
  end.

(** The double written [0.85]. *)
Definition dim_max : Q := 7656119366529843 # 9007199254740992.

(** [bgDim] and [fontScale] from the number [v] read from the store or
    typed in the settings page. *)
Definition bgDim_of (v : num) : Q := clampNum v 0 dim_max.
Definition fontScale_of (v : num) : Q := clampNum v dim_max (5 # 4).

(* ===================================================================== *)
(** ** The schema migration (src/main/db.ts)                              *)
(* ===================================================================== *)

Module Migration.

Inductive SqlVal : Type :=
  | SNull
  | SInt (z : Z)
  | SText (s : string).

(** The table [tasks] as [PRAGMA table_info] and [SELECT *] show it: the
    names of the columns in order, and the rows, each giving the value of
    a column under its name (NULL where it has none). *)
Record Table : Type := mkTable {
  columns : list string;
  records : list (gmap string SqlVal)
}.

Definition cell (r : gmap string SqlVal) (c : string) : SqlVal :=
  default SNull (r !! c).

(** SQLite compares column names without regard to the case of the
    letters A to Z. *)
Definition lower_ascii (c : ascii) : ascii :=
  let n := N_of_ascii c in
  if ((65 <=? n) && (n <=? 90))%N then ascii_of_N (n + 32) else c.

Fixpoint lower (s : string) : string :=
  match s with
  | EmptyString => EmptyString
  | String c r => String (lower_ascii c) (lower r)
  end.

(** The column a statement means by [name] (written in lower case). *)
Definition resolve (cols : list string) (name : string) : option string :=
  find (fun c => String.eqb (lower c) name) cols.

(** [ALTER TABLE tasks ADD COLUMN name def]: the column comes last and
    holds its default in every row. *)
Definition add_column (name : string) (dflt : SqlVal) (t : Table) : Table :=
  {| columns := columns t ++ [name];
     records := (fun r => <[name := dflt]> r) <$> records t |}.

(** [add(name, def)]: [names] is the set read before the first [add];
    [None] is the error "duplicate column name". *)
Definition add (names : list string) (t : option Table) (col : string * SqlVal)
  : option Table :=
  match t with
  | Some t =>
      if bool_decide (col.1 ∈ names) then Some t
      else if existsb (fun c => String.eqb (lower c) col.1) (columns t) then None
      else Some (add_column col.1 col.2 t)
  | None => None
  end.

(** The columns [ensureColumns] adds, with the value [def] gives to the
    rows that exist. *)
Definition added : list (string * SqlVal) :=
  [ ("deadline", SNull); ("estimate_min", SNull); ("actual_min", SNull);
    ("finished_at", SNull);
    ("points_base", SInt 0); ("points_bonus", SInt 0);
    ("points_penalty", SInt 0); ("points_total", SInt 0);
    ("points_session_type", SNull) ].

(** [points_session_type IS NULL OR points_session_type = ''] *)
Definition is_blank (v : SqlVal) : bool :=
  match v with
  | SNull => true
  | SText s => negb (str_truthy s)
  | SInt _ => false
  end.

(** The [UPDATE] on one row; [x] and [s] are the columns meant by
    [points_session_type] and [session_type]. *)
Definition backfill (x s : string) (r : gmap string SqlVal) : gmap string SqlVal :=
  if is_blank (cell r x) then <[x := cell r s]> r else r.

(** [ensureColumns()]; [None] when a statement fails. *)
Definition ensureColumns (t : Table) : option Table :=
  let names := columns t in
  match foldl (add names) (Some t) added with
  | Some t1 =>
      match resolve (columns t1) "points_session_type",
            resolve (columns t1) "session_type" with
      | Some x, Some s =>
          Some {| columns := columns t1; records := backfill x s <$> records t1 |}
      | _, _ => None
      end
  | None => None
  end.

(** [CREATE TABLE IF NOT EXISTS tasks (...)] where there is none. *)
Definition created_tasks : Table :=
  {| columns := ["id"; "title"; "session_type"; "status"; "laps_total";
                 "laps_done"; "created_at"];
     records := [] |}.

(** [initDb()], as far as the table [tasks] goes. *)
Definition initDb (existing : option Table) : option Table :=
  ensureColumns (default created_tasks existing).

(** A table of the first version of the program, with one row. *)
Definition first_version : Table :=
  {| columns := columns created_tasks;
     records :=
       [ list_to_map
           [ ("id", SInt 1); ("title", SText "a"); ("session_type", SText "race");
             ("status", SText "start"); ("laps_total", SInt 3);
             ("laps_done", SInt 1); ("created_at", SText "2024-03-01T00:00:00.000Z") ] ] |}.

End Migration.

(* ===================================================================== *)
(** * Properties                                                          *)
(* ===================================================================== *)

(** ** The reference runtime on two dates *)

Example utc_ymdToDate :
  ymdToDate (H := Utc.platform) "2024-03-10" = Some 1710028800000.
Proof. reflexivity. Qed.

Example utc_parse :
  Date_parse (Platform := Utc.platform) "2024-03-10T10:00:00" = Some 1710064800000.
Proof. reflexivity. Qed.

(** ** [clampInt] *)

Lemma clampInt_bounds (n : num) (lo hi : Z) :
  lo <= hi -> lo <= clampInt n lo hi <= hi.
Proof. destruct n; simpl; lia. Qed.

Lemma clampInt_not_finite (n : num) (lo hi : Z) :
  (forall q, n <> Fin q) -> clampInt n lo hi = lo.
Proof. intros Hn. destruct n; try reflexivity. now destruct (Hn q). Qed.

(** ** Rows written by the handlers *)

Section RowFacts.
Context `{Platform}.

Lemma created_row_laps now p t i : laps_ok (created_row now p t i).
Proof.
  unfold laps_ok, created_row; simpl.
  pose proof (clampInt_bounds (nullish (c_laps_total p) (of_Z 1)) 1 999 ltac:(lia)) as Ht.
  set (lt := clampInt (nullish (c_laps_total p) (of_Z 1)) 1 999) in *.
  pose proof (clampInt_bounds (nullish (c_laps_done p) (of_Z 0)) 0 lt ltac:(lia)) as Hd.
  lia.
Qed.

(** The counters [tasks:update] writes. *)
Lemma updated_row_laps p cur :
  laps_total (updated_row p cur)
    = (if defined (u_laps_total p)
       then clampInt (Number_of (u_laps_total p)) 1 999 else laps_total cur)
  /\ laps_done (updated_row p cur)
     = (if defined (u_laps_done p)
        then clampInt (Number_of (u_laps_done p)) 0 (laps_total (updated_row p cur))
        else laps_done cur).
Proof. split; reflexivity. Qed.

Lemma updated_row_range p cur :
  1 <= laps_total cur <= 999 /\ 0 <= laps_done cur ->
  1 <= laps_total (updated_row p cur) <= 999 /\ 0 <= laps_done (updated_row p cur).
Proof.
  intros [Ht Hd]. destruct (updated_row_laps p cur) as [-> ->].
  set (lt := if defined (u_laps_total p)
             then clampInt (Number_of (u_laps_total p)) 1 999 else laps_total cur).
  assert (1 <= lt <= 999) as Hlt.
  { unfold lt. destruct (defined (u_laps_total p)); [|exact Ht].
    apply clampInt_bounds. lia. }
  split; [exact Hlt|]. destruct (defined (u_laps_done p)); [|exact Hd].
  apply clampInt_bounds. lia.
Qed.

Lemma updated_row_within p cur :
  1 <= laps_total cur <= 999 ->
  (laps_done (updated_row p cur) <= laps_total (updated_row p cur)
   <-> defined (u_laps_done p) = true
       \/ laps_done cur <= laps_total (updated_row p cur)).
Proof.
  intros Ht.
  assert (1 <= laps_total (updated_row p cur) <= 999) as Hlt.
  { destruct (updated_row_laps p cur) as [-> _].
    destruct (defined (u_laps_total p)); [|exact Ht]. apply clampInt_bounds. lia. }
  destruct (updated_row_laps p cur) as [_ Hd]. rewrite Hd.
  destruct (defined (u_laps_done p)).
  - split; [now left|]. intros _. apply clampInt_bounds. lia.
  - split; [now right|]. intros [Hf|Hle]; [discriminate | exact Hle].
Qed.

Lemma step_rows now c w : rows_change w c (rows (db (step now c w))).
Proof.
  destruct c as [p|p|i|i|i| |h]; simpl.
  - unfold tasks_create.
    destruct (negb (str_truthy (trim (nullish (c_title p) "")))); simpl;
      [apply rc_same | apply rc_create].
  - unfold tasks_update. destruct (u_id p =? 0); simpl; [apply rc_same|].
    destruct (rows (db w) !! u_id p) eqn:E; simpl; [now apply rc_update | apply rc_same].
  - unfold tasks_finish. destruct (rows (db w) !! i) eqn:E; simpl;
      [now apply rc_finish | apply rc_same].
  - unfold tasks_dnf. destruct (rows (db w) !! i) eqn:E; simpl;
      [now apply rc_dnf | apply rc_same].
  - apply rc_delete.
  - apply rc_same.
  - unfold timer_fire. destruct (pending (notif w) !! h); [|apply rc_same].
    destruct (tm_due _ <=? now); simpl; apply rc_same.
Qed.

End RowFacts.

Section Invariants.
Context `{Platform}.

(** A property of rows that every row builder keeps is kept by a step. *)
Lemma rows_inv_step (P : TaskRow -> Prop) now c w :
  (forall i r, rows (db w) !! i = Some r -> P r) ->
  (forall now' p t i, c = CCreate p -> P (created_row now' p t i)) ->
  (forall p cur, c = CUpdate p -> P cur -> P (updated_row p cur)) ->
  (forall now' cur, P cur -> P (finished_row now' cur)) ->
  (forall now' cur, P cur -> P (dnf_row now' cur)) ->
  forall i r, rows (db (step now c w)) !! i = Some r -> P r.
Proof.
  intros Hw Hc Hu Hf Hd i r.
  pose proof (step_rows now c w) as Hch.
  remember (rows (db (step now c w))) as m eqn:Em. clear Em.
  destruct Hch as [c|now' p t|p cur Hcur|now' j task Htask|now' j task Htask|j].
  - apply Hw.
  - rewrite lookup_insert. case_decide.
    + intros [= <-]. now apply Hc.
    + apply Hw.
  - rewrite lookup_insert. case_decide.
    + intros [= <-]. apply Hu; [reflexivity | eauto].
    + apply Hw.
  - rewrite lookup_insert. case_decide.
    + intros [= <-]. apply Hf; eauto.
    + apply Hw.
  - rewrite lookup_insert. case_decide.
    + intros [= <-]. apply Hd; eauto.
    + apply Hw.
  - rewrite lookup_delete. case_decide; [discriminate | apply Hw].
Qed.

(** A state property kept by every admissible step holds along a trace. *)
Lemma run_inv (I : World -> Prop) (ok : Call -> Prop) :
  (forall now c w, I w -> ok c -> I (step now c w)) ->
  forall tr w, I w -> Forall (fun e => ok (snd e)) tr -> I (run tr w).
Proof.
  intros Hstep tr. induction tr as [|[now c] tr IH]; intros w Hw Hall; simpl.
  - exact Hw.
  - inversion Hall; subst. apply IH; [apply Hstep|]; assumption.
Qed.

Lemma init_rows i : rows (db init_world) !! i = None.
Proof. apply lookup_empty. Qed.

End Invariants.

(* ===================================================================== *)
(** ** C3: the points columns                                             *)
(* ===================================================================== *)

Section Points.
Context `{Platform}.

Lemma terminated_cons now c tr w :
  terminated ((now, c) :: tr) w = terminated_by c w ∪ terminated tr (step now c w).
Proof. reflexivity. Qed.

Lemma points_inv_step T now c w :
  points_inv T w -> points_inv (T ∪ terminated_by c w) (step now c w).
Proof.
  intros Hw i r.
  pose proof (step_rows now c w) as Hch.
  remember (rows (db (step now c w))) as m eqn:Em. clear Em.
  destruct Hch as [c|now' p t|p cur Hcur|now' j task Htask|now' j task Htask|j].
  - intros Hr. destruct (Hw _ _ Hr) as [Hs Hz]. split; [exact Hs|].
    intros Hni. apply Hz. set_solver.
  - rewrite lookup_insert. case_decide.
    + intros [= <-]. split; [reflexivity | intros _; repeat split].
    + intros Hr. destruct (Hw _ _ Hr) as [Hs Hz]. split; [exact Hs|].
      intros Hni. apply Hz. set_solver.
  - rewrite lookup_insert. case_decide.
    + intros [= <-]. subst i. destruct (Hw _ _ Hcur) as [Hs Hz]. split; [exact Hs|].
      intros Hni. apply Hz. set_solver.
    + intros Hr. destruct (Hw _ _ Hr) as [Hs Hz]. split; [exact Hs|].
      intros Hni. apply Hz. set_solver.
  - simpl. rewrite decide_True by eauto.
    rewrite lookup_insert. case_decide.
    + intros [= <-]. subst i. split.
      * unfold points_sum, finished_row; simpl. lia.
      * intros Hni. exfalso. set_solver.
    + intros Hr. destruct (Hw _ _ Hr) as [Hs Hz]. split; [exact Hs|].
      intros Hni. apply Hz. set_solver.
  - simpl. rewrite decide_True by eauto.
    rewrite lookup_insert. case_decide.
    + intros [= <-]. subst i. split.
      * unfold points_sum, dnf_row; simpl. lia.
      * intros Hni. exfalso. set_solver.
    + intros Hr. destruct (Hw _ _ Hr) as [Hs Hz]. split; [exact Hs|].
      intros Hni. apply Hz. set_solver.
  - rewrite lookup_delete. case_decide; [discriminate|].
    intros Hr. destruct (Hw _ _ Hr) as [Hs Hz]. split; [exact Hs|].
    intros Hni. apply Hz. set_solver.
Qed.

Lemma points_inv_run tr : forall T w,
  points_inv T w -> points_inv (T ∪ terminated tr w) (run tr w).
Proof.
  induction tr as [|[now c] tr IH]; intros T w Hw.
  - simpl. intros i r Hr. destruct (Hw _ _ Hr) as [Hs Hz]. split; [exact Hs|].
    intros Hni. apply Hz. set_solver.
  - rewrite terminated_cons. simpl run.
    rewrite (assoc_L (∪)). apply IH, points_inv_step, Hw.
Qed.

End Points.

(** C3: along every sequence of requests from the empty table, every row
    satisfies [points_total = points_base + points_bonus + points_penalty],
    and a row on which neither finish nor dnf has succeeded has all four
    points columns at zero. *)
Theorem points_total_invariant `{Platform} (tr : list (Z * Call)) (i : Z) (r : TaskRow) :
  rows (db (run tr init_world)) !! i = Some r ->
  points_sum r /\ (i ∉ terminated tr init_world -> points_zero r).
Proof.
  intros Hr.
  destruct (points_inv_run tr ∅ init_world) with (i := i) (r := r) as [Hs Hz].
  - intros j r'. rewrite init_rows. discriminate.
  - exact Hr.
  - split; [exact Hs|]. intros Hni. apply Hz.
    rewrite (left_id_L ∅ (∪)). exact Hni.
Qed.

Lemma points_total_invariant_witness :
  exists r1 r2,
    rows (db (run (H := Utc.platform) trace_two_tasks init_world)) !! 1 = Some r1
    /\ rows (db (run (H := Utc.platform) trace_two_tasks init_world)) !! 2 = Some r2
    /\ points_sum r1 /\ points_total r1 = 25 /\ points_zero r2.
Proof.
  eexists. eexists. split; [vm_compute; reflexivity|]. split; [vm_compute; reflexivity|].
  split; [|split; [reflexivity|]].
  - apply (points_total_invariant (H := Utc.platform) trace_two_tasks 1).
    vm_compute. reflexivity.
  - apply (points_total_invariant (H := Utc.platform) trace_two_tasks 2).
    + vm_compute. reflexivity.
    + vm_compute. discriminate.
Defined.

(* ===================================================================== *)
(** ** Reachable databases                                                *)
(* ===================================================================== *)

Section Reachable.
Context `{Platform}.

Lemma db_ok_step now c w : db_ok (db w) -> db_ok (db (step now c w)).
Proof.
  intros [Hs Hw]. destruct c as [p|p|i|i|i| |h]; simpl.
  - unfold tasks_create.
    destruct (negb (str_truthy (trim (nullish (c_title p) "")))); simpl;
      [split; assumption|].
    split; simpl; [lia|]. intros j r. rewrite lookup_insert. case_decide.
    + intros [= <-]. subst j. simpl. lia.
    + intros Hr. destruct (Hw _ _ Hr). split; [assumption | lia].
  - unfold tasks_update. destruct (u_id p =? 0); simpl; [split; assumption|].
    destruct (rows (db w) !! u_id p) as [cur|] eqn:E; simpl; [|split; assumption].
    split; simpl; [assumption|]. intros j r. rewrite lookup_insert. case_decide.
    + intros [= <-]. subst j. simpl. apply (Hw _ _ E).
    + apply Hw.
  - unfold tasks_finish.
    destruct (rows (db w) !! i) as [cur|] eqn:E; simpl; [|split; assumption].
    split; simpl; [assumption|]. intros j r. rewrite lookup_insert. case_decide.
    + intros [= <-]. subst j. simpl. apply (Hw _ _ E).
    + apply Hw.
  - unfold tasks_dnf.
    destruct (rows (db w) !! i) as [cur|] eqn:E; simpl; [|split; assumption].
    split; simpl; [assumption|]. intros j r. rewrite lookup_insert. case_decide.
    + intros [= <-]. subst j. simpl. apply (Hw _ _ E).
    + apply Hw.
  - split; simpl; [assumption|]. intros j r. rewrite lookup_delete.
    case_decide; [discriminate | apply Hw].
  - split; assumption.
  - unfold timer_fire. destruct (pending (notif w) !! h); [|split; assumption].
    destruct (tm_due _ <=? now); split; assumption.
Qed.

Lemma db_ok_run tr : forall w, db_ok (db w) -> db_ok (db (run tr w)).
Proof.
  induction tr as [|[now c] tr IH]; intros w Hw; simpl; [exact Hw|].
  apply IH, db_ok_step, Hw.
Qed.

Lemma db_ok_init : db_ok (db init_world).
Proof.
  split; [simpl; lia|]. intros i r. rewrite init_rows. discriminate.
Qed.

Lemma db_ok_reachable tr : db_ok (db (run tr init_world)).
Proof. apply db_ok_run, db_ok_init. Qed.

(** What each handler does to a row that exists, in a reachable state. *)
Lemma update_existing now p w cur :
  db_ok (db w) -> rows (db w) !! u_id p = Some cur ->
  rows (db (step now (CUpdate p) w)) = <[u_id p := updated_row p cur]> (rows (db w)).
Proof.
  intros [_ Hw] Hcur. simpl. unfold tasks_update.
  destruct (Hw _ _ Hcur) as [_ Hi].
  destruct (Z.eqb_spec (u_id p) 0) as [E|_]; [lia|].
  now rewrite Hcur.
Qed.


Lemma finish_existing now i w task :
  rows (db w) !! i = Some task ->
  tasks_finish now i w =
    (Ok tt, {| db := {| rows := <[i := finished_row now task]> (rows (db w));
                        seq := seq (db w) |};
               notif := clearNotif i (notif w);
               shown := shown w |}).
Proof. intros E. unfold tasks_finish. now rewrite E. Qed.

Lemma dnf_existing now i w task :
  rows (db w) !! i = Some task ->
  tasks_dnf now i w =
    (Ok tt, {| db := {| rows := <[i := dnf_row now task]> (rows (db w));
                        seq := seq (db w) |};
               notif := clearNotif i (notif w);
               shown := shown w |}).
Proof. intros E. unfold tasks_dnf. now rewrite E. Qed.

End Reachable.

Section OtherRows.
Context `{Platform}.





Lemma updated_row_status p cur :
  status (updated_row p cur) = update_status p cur.
Proof. reflexivity. Qed.

End OtherRows.

(* ===================================================================== *)
(** ** C10: bounds of the laps counters                                   *)
(* ===================================================================== *)

(** C10, as stated, fails: an update that lowers [laps_total] without
    carrying [laps_done] leaves the stored [laps_done] above it. *)
Lemma laps_bounds_law_fails : ~ laps_bounds_law (H := Utc.platform).
Proof.
  intros Hlaw.
  destruct (rows (db (run (H := Utc.platform) trace_lower_total init_world)) !! 1)
    as [r|] eqn:E; [|vm_compute in E; discriminate].
  pose proof (Hlaw _ _ _ E) as [_ [_ Hr]].
  vm_compute in E. injection E as <-. simpl in Hr. lia.
Qed.

Section LapsBounds.
Context `{Platform}.

Lemma laps_range_run tr i r :
  rows (db (run tr init_world)) !! i = Some r ->
  1 <= laps_total r <= 999 /\ 0 <= laps_done r.
Proof.
  revert i r.
  apply (run_inv (fun w => forall i r, rows (db w) !! i = Some r ->
                             1 <= laps_total r <= 999 /\ 0 <= laps_done r)
                 (fun _ => True)).
  - intros now c w Hw _.
    apply (rows_inv_step (fun r => 1 <= laps_total r <= 999 /\ 0 <= laps_done r));
      try assumption.
    + intros now' p t i _. pose proof (created_row_laps now' p t i) as [Ht Hd].
      split; [exact Ht | lia].
    + intros p cur _ Hcur. now apply updated_row_range.
    + intros now' cur Hcur. exact Hcur.
    + intros now' cur Hcur. exact Hcur.
  - intros i r. rewrite init_rows. discriminate.
  - apply Forall_forall. intros; exact I.
Qed.

Lemma laps_within_step i now c w :
  (forall j r, rows (db w) !! j = Some r -> 1 <= laps_total r <= 999) ->
  match c with
  | CUpdate p => (u_id p =? i) && lowers_total p w = false
  | _ => True
  end ->
  (forall r, rows (db w) !! i = Some r -> laps_done r <= laps_total r) ->
  forall r, rows (db (step now c w)) !! i = Some r -> laps_done r <= laps_total r.
Proof.
  intros Hrange Hc Hw r.
  pose proof (step_rows now c w) as Hch.
  remember (rows (db (step now c w))) as m eqn:Em. clear Em.
  destruct Hch as [c|now' p t|p cur Hcur|now' j task Htask|now' j task Htask|j].
  - apply Hw.
  - rewrite lookup_insert. case_decide; [|apply Hw].
    intros [= <-]. apply created_row_laps.
  - rewrite lookup_insert. case_decide as Hi; [|apply Hw].
    intros [= <-]. apply updated_row_within; [eapply Hrange, Hcur|].
    destruct (defined (u_laps_done p)) eqn:Ed; [now left | right].
    rewrite <- Hi in Hw. specialize (Hw _ Hcur).
    destruct (updated_row_laps p cur) as [-> _].
    destruct (defined (u_laps_total p)) eqn:Et; [|exact Hw].
    unfold lowers_total in Hc. rewrite Hcur, Et, Ed in Hc. simpl in Hc.
    destruct (Z.eqb_spec (u_id p) i) as [_|Hne]; [|contradiction].
    simpl in Hc. apply Z.ltb_ge in Hc. exact Hc.
  - rewrite lookup_insert. case_decide as Hi; [|apply Hw].
    intros [= <-]. simpl. rewrite <- Hi in Hw. now apply Hw.
  - rewrite lookup_insert. case_decide as Hi; [|apply Hw].
    intros [= <-]. simpl. rewrite <- Hi in Hw. now apply Hw.
  - rewrite lookup_delete. case_decide; [discriminate | apply Hw].
Qed.

Lemma laps_within_run i tr0 : forall tr,
  total_kept i tr (run tr0 init_world) = true ->
  (forall r, rows (db (run tr0 init_world)) !! i = Some r ->
     laps_done r <= laps_total r) ->
  forall r, rows (db (run tr (run tr0 init_world))) !! i = Some r ->
  laps_done r <= laps_total r.
Proof.
  intros tr. revert tr0.
  induction tr as [|[now c] tr IH]; intros tr0 Hk Hw; [exact Hw|].
  simpl in Hk. apply andb_true_iff in Hk as [Hc Hk].
  assert (step now c (run tr0 init_world) = run (tr0 ++ [(now, c)]) init_world) as E.
  { clear. generalize init_world.
    induction tr0 as [|[n0 c0] tr0 IH]; intros w; simpl; [reflexivity | apply IH]. }
  simpl run. rewrite E in Hk |- *. apply IH; [exact Hk|]. rewrite <- E.
  apply laps_within_step; [| |exact Hw].
  - intros j r Hr. eapply laps_range_run, Hr.
  - destruct c; try exact I. now apply negb_true_iff in Hc.
Qed.

End LapsBounds.

(** C10 (amended): [tasks:create] clamps [laps_total] into [1, 999] and
    [laps_done] into [0, laps_total], and [clampInt] gives the lower bound
    for an input that is not finite.  [tasks:update] writes the clamped
    counters it carries and keeps the others.  In every state reached from
    the empty table every row has [1 <= laps_total <= 999] and
    [0 <= laps_done]; an update leaves [laps_done <= laps_total] exactly
    when it carries [laps_done] or the stored [laps_done] is at most the
    total it leaves; hence [laps_done <= laps_total] holds for a task as
    long as no update that carries [laps_total] without [laps_done] has
    lowered its total below its [laps_done]. *)
Theorem laps_bounds_after_writes `{Platform} (tr : list (Z * Call)) :
  (forall i r,
     rows (db (run tr init_world)) !! i = Some r ->
     (1 <= laps_total r <= 999 /\ 0 <= laps_done r)
     /\ (total_kept i tr init_world = true -> laps_done r <= laps_total r)
     /\ (forall now p r', u_id p = i ->
           rows (db (step now (CUpdate p) (run tr init_world))) !! i = Some r' ->
           laps_total r'
             = (if defined (u_laps_total p)
                then clampInt (Number_of (u_laps_total p)) 1 999 else laps_total r)
           /\ laps_done r'
               = (if defined (u_laps_done p)
                  then clampInt (Number_of (u_laps_done p)) 0 (laps_total r')
                  else laps_done r)
           /\ (laps_done r' <= laps_total r'
               <-> defined (u_laps_done p) = true \/ laps_done r <= laps_total r')))
  /\ (forall now p i r',
        fst (tasks_create now p (run tr init_world)) = Ok i ->
        rows (db (step now (CCreate p) (run tr init_world))) !! i = Some r' ->
        laps_total r' = clampInt (nullish (c_laps_total p) (of_Z 1)) 1 999
        /\ laps_done r'
            = clampInt (nullish (c_laps_done p) (of_Z 0)) 0 (laps_total r')
        /\ laps_ok r')
  /\ (forall n lo hi, (forall q, n <> Fin q) -> clampInt n lo hi = lo).
Proof.
  split; [|split].
  - intros i r Hr. pose proof (laps_range_run _ _ _ Hr) as Hrange.
    split; [exact Hrange|]. split.
    + intros Hk. refine (laps_within_run i [] tr Hk _ r Hr).
      intros r0. simpl. rewrite init_rows. discriminate.
    + intros now p r' <- Hr'.
      rewrite (update_existing _ _ _ _ (db_ok_reachable tr) Hr), lookup_insert_eq
        in Hr'.
      injection Hr' as <-.
      destruct (updated_row_laps p r) as [Ht Hd].
      split; [exact Ht|]. split; [exact Hd|].
      apply updated_row_within. apply Hrange.
  - intros now p i r'. simpl. unfold tasks_create.
    destruct (negb (str_truthy (trim (nullish (c_title p) "")))); [discriminate|].
    simpl. intros [= <-]. rewrite lookup_insert_eq. intros [= <-].
    split; [reflexivity|]. split; [reflexivity|]. apply created_row_laps.
  - apply clampInt_not_finite.
Qed.

(** Raising the total alone keeps the bounds: 5 of 20 laps. *)
Lemma laps_bounds_after_writes_witness :
  exists r,
    rows (db (run (H := Utc.platform) trace_raise_total init_world)) !! 1 = Some r
    /\ laps_total r = 20 /\ laps_done r = 5
    /\ laps_ok r.
Proof.
  eexists. split; [vm_compute; reflexivity|].
  split; [reflexivity|]. split; [reflexivity|].
  destruct (laps_bounds_after_writes (H := Utc.platform) trace_raise_total)
    as [Hrows _].
  destruct (Hrows 1 _ ltac:(vm_compute; reflexivity)) as [[Ht Hd] [Hle _]].
  unfold laps_ok. split; [exact Ht|]. split; [exact Hd|].
  apply Hle. vm_compute. reflexivity.
Defined.

(* ===================================================================== *)
(** ** C1: leaving a terminal status                                      *)
(* ===================================================================== *)


(** The "+ Lap" button of the card of a finished task sends such an update. *)
Example incLap_on_finished :
  forall r, rows (db (run (H := Utc.platform) trace_finished init_world)) !! 1 = Some r ->
  status r = "finish" /\
  status <$> rows (db (step (H := Utc.platform) 2 (CUpdate (incLap r))
                        (run (H := Utc.platform) trace_finished init_world))) !! 1
    = Some "progress".
Proof.
  intros r E. vm_compute in E. injection E as <-. split; reflexivity.
Qed.

(** Dragging the card of a finished task to another column sends nothing. *)
Lemma moveTaskToSession_guard tasks i to task :
  List.find (fun t => id t =? i) tasks = Some task ->
  terminal task -> to <> "parc" ->
  moveTaskToSession tasks i to = None.
Proof.
  intros Hf Ht Hto. unfold moveTaskToSession. rewrite Hf, Ht.
  destruct (String.eqb_spec to "parc"); [contradiction | reflexivity].
Qed.



(* ===================================================================== *)
(** ** C2: finish and dnf on a finished task                              *)
(* ===================================================================== *)

(** C2, as stated, fails: [tasks:finish] on a task that is already [dnf]
    awards the points of a finish. *)
Lemma refinish_law_fails : ~ refinish_law (H := Utc.platform).
Proof.
  intros Hlaw.
  destruct (rows (db (run (H := Utc.platform) trace_dnf init_world)) !! 1)
    as [r|] eqn:E; [|vm_compute in E; discriminate].
  destruct (rows (db (step (H := Utc.platform) 2 (CFinish 1)
                       (run (H := Utc.platform) trace_dnf init_world))) !! 1)
    as [r'|] eqn:E'; [|vm_compute in E'; discriminate].
  assert (terminal r) as Ht.
  { vm_compute in E. injection E as <-. reflexivity. }
  destruct (Hlaw _ _ _ _ _ _ (or_introl eq_refl) E Ht E') as [Hb _].
  vm_compute in E, E'. injection E as <-. injection E' as <-.
  discriminate Hb.
Qed.

(** C2 (amended): the main process does not reject finish or dnf on a
    finished task and does not skip it: the handler answers ok and writes
    the row of a fresh finish (resp. dnf), with the new time and points
    computed again.  The guard is in the renderer: the Finish and DNF
    buttons of the card of a finished task are disabled, so a click there
    changes nothing. *)
Theorem refinish_overwrites `{Platform} (w : World) (now i : Z) (r : TaskRow) :
  rows (db w) !! i = Some r ->
  terminal r ->
  (fst (tasks_finish now i w) = Ok tt
   /\ rows (db (snd (tasks_finish now i w))) !! i = Some (finished_row now r)
   /\ status (finished_row now r) = "finish"
   /\ finished_at (finished_row now r) = Some now
   /\ points_base (finished_row now r) = basePoints (scoreType r)
   /\ points_penalty (finished_row now r) = finish_penalty r now
   /\ points_total (finished_row now r) = basePoints (scoreType r) + finish_penalty r now)
  /\ (fst (tasks_dnf now i w) = Ok tt
      /\ rows (db (snd (tasks_dnf now i w))) !! i = Some (dnf_row now r)
      /\ status (dnf_row now r) = "dnf"
      /\ finished_at (dnf_row now r) = Some now
      /\ points_base (dnf_row now r) = 0
      /\ points_penalty (dnf_row now r) = -5
      /\ points_total (dnf_row now r) = -5)
  /\ click_Finish now r w = w
  /\ click_DNF now r w = w.
Proof.
  intros Hr Ht. repeat split.
  - now rewrite (finish_existing _ _ _ _ Hr).
  - rewrite (finish_existing _ _ _ _ Hr). simpl. apply lookup_insert_eq.
  - now rewrite (dnf_existing _ _ _ _ Hr).
  - rewrite (dnf_existing _ _ _ _ Hr). simpl. apply lookup_insert_eq.
  - unfold click_Finish, TaskCard_done. now rewrite Ht.
  - unfold click_DNF, TaskCard_done. now rewrite Ht.
Qed.

Lemma refinish_overwrites_witness :
  exists r,
    rows (db (run (H := Utc.platform) trace_dnf init_world)) !! 1 = Some r
    /\ points_total r = -5
    /\ points_total <$>
         rows (db (snd (tasks_finish (H := Utc.platform) 2 1
                         (run (H := Utc.platform) trace_dnf init_world)))) !! 1
       = Some 25
    /\ click_Finish (H := Utc.platform) 2 r (run (H := Utc.platform) trace_dnf init_world)
       = run (H := Utc.platform) trace_dnf init_world.
Proof.
  eexists. split; [vm_compute; reflexivity|]. split; [reflexivity|].
  destruct (refinish_overwrites (H := Utc.platform)
              (run (H := Utc.platform) trace_dnf init_world) 2 1 _
              ltac:(vm_compute; reflexivity) ltac:(reflexivity))
    as [[_ [Hrow _]] [_ [Hclick _]]].
  split; [|exact Hclick].
  rewrite Hrow. reflexivity.
Defined.

(* ===================================================================== *)
(** ** C4: the points awarded by finish and dnf                           *)
(* ===================================================================== *)

(** C4, as stated, fails: with the default rules of the settings page a
    dnf should cost 3 points; the handler writes -5. *)
Lemma scoring_rules_law_fails : ~ scoring_rules_law (H := Utc.platform).
Proof.
  intros Hlaw.
  destruct (rows (db (run (H := Utc.platform) trace_race init_world)) !! 1)
    as [r|] eqn:E; [|vm_compute in E; discriminate].
  destruct (rows (db (step (H := Utc.platform) 1 (CDnf 1)
                       (run (H := Utc.platform) trace_race init_world))) !! 1)
    as [r'|] eqn:E'; [|vm_compute in E'; discriminate].
  assert (~ terminal r) as Ht.
  { vm_compute in E. injection E as <-. discriminate. }
  destruct (Hlaw DEFAULT_POINTS_RULES _ 1 _ _ E Ht) as [_ Hdnf].
  destruct (Hdnf _ E') as [_ [_ [Hp _]]].
  vm_compute in E'. injection E' as <-. discriminate Hp.
Qed.

Lemma basePoints_table :
  basePoints "race" = 25 /\ basePoints "sprint" = 8 /\ basePoints "qualifying" = 3
  /\ basePoints "pit" = 2 /\ basePoints "practice" = 1 /\ basePoints "parc" = 1.
Proof. repeat split. Qed.

Lemma finish_penalty_main `{Platform} r now :
  finish_penalty r now = if late_by main_rules r now then -5 else 0.
Proof.
  unfold finish_penalty, late_by. destruct (deadline r) as [dl|]; [|reflexivity].
  destruct (str_truthy dl); [|reflexivity]. simpl.
  destruct (isLateByDays dl now) as [d|]; [|reflexivity].
  now destruct (3 <=? d).
Qed.

(** The number of late days is the whole number of days between the start
    of the deadline day and the finish, rounded down. *)
Lemma isLateByDays_floor `{Platform} dl finished :
  isLateByDays dl finished =
    (fun start => (finished - start) / ms_per_day) <$> ymdToDate dl.
Proof. unfold isLateByDays. now destruct (ymdToDate dl). Qed.

(** The scenario of the specification for dnf: a race task without
    deadline gets 0, -5, -5 and the status "dnf". *)
Example dnf_scenario :
  (fun r => (status r, points_base r, points_penalty r, points_total r)) <$>
    rows (db (step (H := Utc.platform) 1 (CDnf 1)
                (run (H := Utc.platform) trace_race init_world))) !! 1
  = Some ("dnf", 0, -5, -5).
Proof. vm_compute. reflexivity. Qed.

(** C4 (amended): finish sets [points_base] to the entry of the scoring
    category in the table of [basePoints] (race 25, sprint 8, qualifying
    3, pit 2, practice 1, parc 1, anything else 0), [points_bonus] to 0,
    [points_penalty] to -5 when a deadline is set and
    [floor((finishedAt - start of the deadline day) / 1 day) >= 3] and to 0
    otherwise, and [points_total] to base + penalty; dnf sets them to 0, 0,
    -5 and -5.  These values are constants of the main process. *)
Theorem scoring_uses_constants `{Platform} : scoring_follows main_rules.
Proof.
  intros w now i r Hr _. split; intros r' Hr'.
  - simpl in Hr'. rewrite (finish_existing _ _ _ _ Hr) in Hr'. simpl in Hr'.
    rewrite lookup_insert_eq in Hr'. injection Hr' as <-. simpl.
    repeat split. apply finish_penalty_main.
  - simpl in Hr'. rewrite (dnf_existing _ _ _ _ Hr) in Hr'. simpl in Hr'.
    rewrite lookup_insert_eq in Hr'. injection Hr' as <-. simpl.
    repeat split.
Qed.

(** The scenario of the specification: a sprint task finished three days
    after the start of its deadline day gets 8 - 5 = 3 points; one
    millisecond earlier it gets 8. *)
Lemma scoring_uses_constants_witness :
  (points_base <$> rows (db (step (H := Utc.platform) 1710288000000 (CFinish 1)
      (run (H := Utc.platform) trace_sprint_due init_world))) !! 1 = Some 8)
  /\ (points_penalty <$> rows (db (step (H := Utc.platform) 1710288000000 (CFinish 1)
      (run (H := Utc.platform) trace_sprint_due init_world))) !! 1 = Some (-5))
  /\ (points_total <$> rows (db (step (H := Utc.platform) 1710288000000 (CFinish 1)
      (run (H := Utc.platform) trace_sprint_due init_world))) !! 1 = Some 3)
  /\ (points_total <$> rows (db (step (H := Utc.platform) 1710287999999 (CFinish 1)
      (run (H := Utc.platform) trace_sprint_due init_world))) !! 1 = Some 8).
Proof.
  destruct (rows (db (run (H := Utc.platform) trace_sprint_due init_world)) !! 1)
    as [r|] eqn:E; [|vm_compute in E; discriminate].
  assert (~ terminal r) as Ht.
  { vm_compute in E. injection E as <-. discriminate. }
  destruct (rows (db (step (H := Utc.platform) 1710288000000 (CFinish 1)
      (run (H := Utc.platform) trace_sprint_due init_world))) !! 1)
    as [r1|] eqn:E1; [|vm_compute in E1; discriminate].
  destruct (rows (db (step (H := Utc.platform) 1710287999999 (CFinish 1)
      (run (H := Utc.platform) trace_sprint_due init_world))) !! 1)
    as [r2|] eqn:E2; [|vm_compute in E2; discriminate].
  destruct (scoring_uses_constants (H := Utc.platform) _ 1710288000000 1 r E Ht)
    as [Hfin _].
  destruct (Hfin _ E1) as [Hb [_ [Hp Htot]]].
  destruct (scoring_uses_constants (H := Utc.platform) _ 1710287999999 1 r E Ht)
    as [Hfin2 _].
  destruct (Hfin2 _ E2) as [Hb2 [_ [Hp2 Htot2]]].
  vm_compute in E. injection E as <-.
  simpl. rewrite Htot, Htot2, Hb, Hp, Hb2, Hp2. vm_compute. repeat split.
Defined.

(* ===================================================================== *)
(** ** C5: the scoring category                                           *)
(* ===================================================================== *)


Section Category.
Context `{Platform}.

Lemma scoring_category_set_step now c w :
  (forall i r, rows (db w) !! i = Some r -> is_Some (points_session_type r)) ->
  forall i r, rows (db (step now c w)) !! i = Some r ->
  is_Some (points_session_type r).
Proof.
  intros Hw. apply rows_inv_step; try assumption; simpl; eauto.
Qed.

Lemma scoring_category_set tr i r :
  rows (db (run tr init_world)) !! i = Some r -> is_Some (points_session_type r).
Proof.
  revert i r.
  apply (run_inv (fun w => forall i r, rows (db w) !! i = Some r ->
                             is_Some (points_session_type r)) (fun _ => True)).
  - intros now c w Hw _. now apply scoring_category_set_step.
  - intros i r. rewrite init_rows. discriminate.
  - apply Forall_forall. intros; exact I.
Qed.



End Category.



(* ===================================================================== *)
(** ** C6: deadline notifications                                         *)
(* ===================================================================== *)

Section Timers.
Context `{Platform}.

Lemma notif_ok_empty : notif_ok empty_notif.
Proof. split; intros h tm; simpl; rewrite lookup_empty; discriminate. Qed.

Lemma notif_ok_one_timer n : notif_ok n -> one_timer_per_task n.
Proof.
  intros [Hreg _] h1 h2 t1 t2 H1 H2 E.
  apply Hreg in H1. apply Hreg in H2. rewrite E in H1. congruence.
Qed.

Lemma clearNotif_pending j n h tm :
  pending (clearNotif j n) !! h = Some tm -> pending n !! h = Some tm.
Proof.
  unfold clearNotif. destruct (notifTimers n !! j) as [h0|]; simpl; [|trivial].
  rewrite lookup_delete. case_decide; [discriminate | trivial].
Qed.

Lemma clearNotif_next j n : next_handle (clearNotif j n) = next_handle n.
Proof. unfold clearNotif. now destruct (notifTimers n !! j). Qed.

Lemma clearNotif_ok j n : notif_ok n -> notif_ok (clearNotif j n).
Proof.
  intros [Hreg Hlt]. split.
  - intros h tm Hp. pose proof (clearNotif_pending _ _ _ _ Hp) as Hp0.
    pose proof (Hreg _ _ Hp0) as Hm. revert Hp. unfold clearNotif.
    destruct (notifTimers n !! j) as [h0|] eqn:E; simpl.
    + rewrite lookup_delete. case_decide as Hh; [discriminate|]. intros _.
      rewrite lookup_delete_ne; [exact Hm|]. intros Ej. rewrite <- Ej in Hm. congruence.
    + intros _. rewrite lookup_delete_ne; [exact Hm|]. intros Ej. rewrite <- Ej in Hm.
      congruence.
  - intros h tm Hp. rewrite clearNotif_next.
    eapply Hlt, clearNotif_pending, Hp.
Qed.

Lemma clearNotif_registry j n : notifTimers (clearNotif j n) !! j = None.
Proof.
  unfold clearNotif. destruct (notifTimers n !! j); simpl; apply lookup_delete_eq.
Qed.

Lemma clearNotif_disarms j n : notif_ok n -> no_timer_for j (clearNotif j n).
Proof.
  intros Hok h tm Hp E. destruct (clearNotif_ok j n Hok) as [Hreg _].
  apply Hreg in Hp. rewrite E in Hp. rewrite clearNotif_registry in Hp. discriminate.
Qed.

Lemma clearNotif_keeps_disarmed i j n :
  no_timer_for i n -> no_timer_for i (clearNotif j n).
Proof. intros Hn h tm Hp. eapply Hn, clearNotif_pending, Hp. Qed.

(** What [scheduleDeadlineNotif] leaves: the cleared registry, or one new
    timeout, for an active task only. *)
Lemma schedule_cases now task n :
  scheduleDeadlineNotif now task n = clearNotif (id task) n
  \/ (is_done (status task) = false
      /\ exists due,
          scheduleDeadlineNotif now task n =
            {| notifTimers := <[id task := next_handle (clearNotif (id task) n)]>
                                (notifTimers (clearNotif (id task) n));
               pending := <[next_handle (clearNotif (id task) n) :=
                              {| tm_id := id task; tm_title := title task;
                                 tm_due := due |}]>
                            (pending (clearNotif (id task) n));
               next_handle := next_handle (clearNotif (id task) n) + 1 |}).
Proof.
  unfold scheduleDeadlineNotif.
  destruct (deadline task) as [dl|]; [|now left].
  destruct (negb (str_truthy dl)); [now left|].
  destruct (is_done (status task)); [now left|].
  match goal with |- context [if ?b then _ else _] => destruct b end; [now left|].
  right. split; [reflexivity|]. eexists. reflexivity.
Qed.

Lemma schedule_ok now task n : notif_ok n -> notif_ok (scheduleDeadlineNotif now task n).
Proof.
  intros Hok. pose proof (clearNotif_ok (id task) n Hok) as [Hreg Hlt].
  pose proof (clearNotif_disarms (id task) n Hok) as Hnone.
  destruct (schedule_cases now task n) as [-> | [_ [due ->]]]; [now split|].
  split; simpl; intros h tm; rewrite lookup_insert; case_decide as Hh.
  - intros [= <-]. simpl. rewrite <- Hh. apply lookup_insert_eq.
  - intros Hp. rewrite lookup_insert_ne; [now apply Hreg|].
    intros E. now apply (Hnone _ _ Hp).
  - intros _. lia.
  - intros Hp. apply Hlt in Hp. lia.
Qed.

Lemma schedule_keeps_disarmed i now task n :
  notif_ok n -> no_timer_for i n ->
  (id task = i -> is_done (status task) = true) ->
  no_timer_for i (scheduleDeadlineNotif now task n).
Proof.
  intros Hok Hn Hdone.
  destruct (schedule_cases now task n) as [-> | [Hact [due ->]]].
  - now apply clearNotif_keeps_disarmed.
  - intros h tm. simpl. rewrite lookup_insert. case_decide as Hh.
    + intros [= <-]. simpl. intros E. rewrite (Hdone E) in Hact. discriminate.
    + intros Hp. eapply clearNotif_keeps_disarmed; eauto.
Qed.

Lemma reschedule_fold now (l : list (Z * TaskRow)) : forall n,
  notif_ok n ->
  notif_ok (foldl (fun n kv => scheduleDeadlineNotif now (snd kv) n) n l).
Proof.
  induction l as [|kv l IH]; intros n Hn; simpl; [exact Hn|].
  apply IH, schedule_ok, Hn.
Qed.

Lemma reschedule_fold_disarmed i now (l : list (Z * TaskRow)) : forall n,
  notif_ok n -> no_timer_for i n ->
  (forall kv, kv ∈ l -> id (snd kv) = i -> is_done (status (snd kv)) = true) ->
  no_timer_for i (foldl (fun n kv => scheduleDeadlineNotif now (snd kv) n) n l).
Proof.
  induction l as [|kv l IH]; intros n Hok Hn Hl; simpl; [exact Hn|].
  apply IH.
  - apply schedule_ok, Hok.
  - apply schedule_keeps_disarmed; [exact Hok | exact Hn |].
    apply Hl. apply list_elem_of_here.
  - intros kv' Hin. apply Hl. now apply list_elem_of_further.
Qed.

Lemma notif_ok_step now c w : notif_ok (notif w) -> notif_ok (notif (step now c w)).
Proof.
  intros Hok. destruct c as [p|p|i|i|i| |h]; simpl.
  - unfold tasks_create.
    destruct (negb (str_truthy (trim (nullish (c_title p) "")))); simpl;
      [exact Hok | apply schedule_ok, Hok].
  - unfold tasks_update. destruct (u_id p =? 0); simpl; [exact Hok|].
    destruct (rows (db w) !! u_id p); simpl; [apply schedule_ok, Hok | exact Hok].
  - unfold tasks_finish. destruct (rows (db w) !! i); simpl;
      [apply clearNotif_ok, Hok | exact Hok].
  - unfold tasks_dnf. destruct (rows (db w) !! i); simpl;
      [apply clearNotif_ok, Hok | exact Hok].
  - apply clearNotif_ok, Hok.
  - apply reschedule_fold, Hok.
  - unfold timer_fire. destruct (pending (notif w) !! h) as [tm|] eqn:E; [|exact Hok].
    destruct (tm_due tm <=? now); [|exact Hok]. simpl.
    apply clearNotif_ok. destruct Hok as [Hreg Hlt]. split; simpl.
    + intros h' tm'. rewrite lookup_delete. case_decide; [discriminate | apply Hreg].
    + intros h' tm'. rewrite lookup_delete. case_decide; [discriminate | apply Hlt].
Qed.

Lemma world_ok_step now c w : world_ok w -> world_ok (step now c w).
Proof. intros [Hd Hn]. split; [now apply db_ok_step | now apply notif_ok_step]. Qed.

Lemma world_ok_run tr : forall w, world_ok w -> world_ok (run tr w).
Proof.
  induction tr as [|[now c] tr IH]; intros w Hw; simpl; [exact Hw|].
  apply IH, world_ok_step, Hw.
Qed.

Lemma world_ok_boot tr0 : world_ok (boot (db (run tr0 init_world))).
Proof. split; [apply db_ok_reachable | apply notif_ok_empty]. Qed.

End Timers.

Section Disarm.
Context `{Platform}.

Lemma closed_step i now c w :
  world_ok w -> closed i w ->
  match c with
  | CUpdate p => (u_id p =? i) && reopens p w = false
  | _ => True
  end ->
  closed i (step now c w) /\ shown_for i (step now c w) = shown_for i w.
Proof.
  intros [[Hseq Hdb] Hn] (Hi & Hterm & Hnone) Hc.
  destruct c as [p|p|j|j|j| |h]; simpl.
  - unfold tasks_create.
    destruct (negb (str_truthy (trim (nullish (c_title p) "")))); simpl;
      [now repeat split|].
    split; [|reflexivity]. split; [simpl; lia|]. split; simpl.
    + intros r. rewrite lookup_insert_ne by lia. apply Hterm.
    + apply schedule_keeps_disarmed; [assumption | assumption |].
      simpl. intros E. lia.
  - unfold tasks_update. destruct (u_id p =? 0); simpl; [now repeat split|].
    destruct (rows (db w) !! u_id p) as [cur|] eqn:E; simpl; [|now repeat split].
    destruct (Hdb _ _ E) as [Hid _].
    split; [|reflexivity]. split; [exact Hi|]. split; simpl.
    + intros r. rewrite lookup_insert. case_decide as Hj; [|apply Hterm].
      intros [= <-]. unfold terminal. rewrite updated_row_status.
      apply Z.eqb_eq in Hj. rewrite Hj in Hc. simpl in Hc.
      unfold reopens in Hc. rewrite E in Hc.
      apply Z.eqb_eq in Hj. rewrite Hj in E.
      rewrite (Hterm _ E) in Hc. simpl in Hc. now apply negb_false_iff in Hc.
    + apply schedule_keeps_disarmed; [assumption | assumption |].
      simpl. rewrite Hid. intros Hj.
      apply Z.eqb_eq in Hj. rewrite Hj in Hc. simpl in Hc.
      unfold reopens in Hc. rewrite E in Hc.
      apply Z.eqb_eq in Hj. rewrite Hj in E.
      rewrite (Hterm _ E) in Hc. simpl in Hc. now apply negb_false_iff in Hc.
  - unfold tasks_finish.
    destruct (rows (db w) !! j) as [cur|] eqn:E; simpl; [|now repeat split].
    split; [|reflexivity]. split; [exact Hi|]. split; simpl.
    + intros r. rewrite lookup_insert. case_decide; [|apply Hterm].
      intros [= <-]. reflexivity.
    + now apply clearNotif_keeps_disarmed.
  - unfold tasks_dnf.
    destruct (rows (db w) !! j) as [cur|] eqn:E; simpl; [|now repeat split].
    split; [|reflexivity]. split; [exact Hi|]. split; simpl.
    + intros r. rewrite lookup_insert. case_decide; [|apply Hterm].
      intros [= <-]. reflexivity.
    + now apply clearNotif_keeps_disarmed.
  - split; [|reflexivity]. split; [exact Hi|]. split; simpl.
    + intros r. rewrite lookup_delete. case_decide; [discriminate | apply Hterm].
    + now apply clearNotif_keeps_disarmed.
  - split; [|reflexivity]. split; [exact Hi|]. split; simpl; [exact Hterm|].
    apply reschedule_fold_disarmed; [assumption | assumption |].
    intros [k r] Hin Hid. simpl in *. apply elem_of_map_to_list in Hin.
    destruct (Hdb _ _ Hin) as [Hk _]. apply (Hterm r). congruence.
  - unfold timer_fire. destruct (pending (notif w) !! h) as [tm|] eqn:E;
      [|now repeat split].
    destruct (tm_due tm <=? now); [|now repeat split].
    pose proof (Hnone _ _ E) as Hne. split.
    + split; [exact Hi|]. split; simpl; [exact Hterm|].
      apply clearNotif_keeps_disarmed. intros h' tm'. simpl.
      rewrite lookup_delete. case_decide; [discriminate | apply Hnone].
    + unfold shown_for. simpl. destruct Notification_isSupported; [|reflexivity].
      now rewrite filter_cons_False.
Qed.

Lemma closed_run i tr : forall w,
  world_ok w -> closed i w -> no_reopen_of i tr w = true ->
  closed i (run tr w) /\ shown_for i (run tr w) = shown_for i w.
Proof.
  induction tr as [|[now c] tr IH]; intros w Hw Hcl Hn; simpl; [now split|].
  simpl in Hn. apply andb_true_iff in Hn as [Hc Hn].
  destruct (closed_step i now c w Hw Hcl) as [Hcl' Hs'].
  { destruct c; try exact I. now apply negb_true_iff in Hc. }
  destruct (IH _ (world_ok_step now c w Hw) Hcl' Hn) as [Hcl'' Hs''].
  split; [exact Hcl'' | congruence].
Qed.

(** Finish, dnf and delete of an existing task close it. *)
Lemma closing_step i now c w r :
  world_ok w -> rows (db w) !! i = Some r ->
  c = CFinish i \/ c = CDnf i \/ c = CDelete i ->
  closed i (step now c w).
Proof.
  intros [[Hseq Hdb] Hn] Hr Hc. destruct (Hdb _ _ Hr) as [_ Hi].
  destruct Hc as [-> | [-> | ->]]; simpl.
  - rewrite (finish_existing _ _ _ _ Hr). simpl.
    split; [simpl; lia|]. split; simpl.
    + intros r'. rewrite lookup_insert_eq. intros [= <-]. reflexivity.
    + now apply clearNotif_disarms.
  - rewrite (dnf_existing _ _ _ _ Hr). simpl.
    split; [simpl; lia|]. split; simpl.
    + intros r'. rewrite lookup_insert_eq. intros [= <-]. reflexivity.
    + now apply clearNotif_disarms.
  - split; [simpl; lia|]. split; simpl.
    + intros r'. rewrite lookup_delete_eq. discriminate.
    + now apply clearNotif_disarms.
Qed.

End Disarm.

(** C6, as stated, fails: after finish, an update that stores the status
    "progress" arms a new timer, and its notification is shown on the
    deadline day. *)
Lemma disarm_law_fails : ~ disarm_law (H := Utc.platform).
Proof.
  intros Hlaw.
  destruct (Hlaw [] [(1709251200000,
                      CCreate (new_task "a" (Val "sprint") (Val "2024-03-10")))])
    as [_ Hnever].
  destruct (rows (db (run (H := Utc.platform)
      [(1709251200000, CCreate (new_task "a" (Val "sprint") (Val "2024-03-10")))]
      (boot (db (run (H := Utc.platform) [] init_world))))) !! 1)
    as [r|] eqn:E; [|vm_compute in E; discriminate].
  specialize (Hnever 1709337600000 (CFinish 1) 1 r trace_reopen_fire E
                (or_introl eq_refl)).
  vm_compute in Hnever. discriminate Hnever.
Qed.

Section Deleted.
Context `{Platform}.

(** A task that was deleted is never re-opened: its id is not issued
    again and no later update finds its row. *)
Lemma deleted_not_reopened i (tr : list (Z * Call)) : forall w,
  db_ok (db w) -> i <= seq (db w) -> rows (db w) !! i = None ->
  no_reopen_of i tr w = true.
Proof.
  induction tr as [|[now c] tr IH]; intros w Hdb Hi Hnone; [reflexivity|].
  simpl. apply andb_true_iff. split.
  - destruct c as [p|p|j|j|j| |h]; try reflexivity.
    apply negb_true_iff, andb_false_iff.
    destruct (Z.eqb_spec (u_id p) i) as [E|_]; [right | now left].
    unfold reopens. now rewrite E, Hnone.
  - apply IH; [now apply db_ok_step | |].
    + assert (seq (db w) <= seq (db (step now c w))); [|lia].
      destruct c as [p|p|j|j|j| |h]; simpl.
      * unfold tasks_create.
        destruct (negb (str_truthy (trim (nullish (c_title p) "")))); simpl; lia.
      * unfold tasks_update. destruct (u_id p =? 0); simpl; [lia|].
        destruct (rows (db w) !! u_id p); simpl; lia.
      * unfold tasks_finish. destruct (rows (db w) !! j); simpl; lia.
      * unfold tasks_dnf. destruct (rows (db w) !! j); simpl; lia.
      * lia.
      * lia.
      * unfold timer_fire. destruct (pending (notif w) !! h) as [tm|]; [|lia].
        destruct (tm_due tm <=? now); simpl; lia.
    + pose proof (step_rows now c w) as Hch.
      remember (rows (db (step now c w))) as m eqn:Em. clear Em.
      destruct Hch as [c|now' p t|p cur Hcur|now' j task Htask|now' j task Htask|j].
      * exact Hnone.
      * rewrite lookup_insert_ne by lia. exact Hnone.
      * rewrite lookup_insert_ne by congruence. exact Hnone.
      * rewrite lookup_insert_ne by congruence. exact Hnone.
      * rewrite lookup_insert_ne by congruence. exact Hnone.
      * rewrite lookup_delete. now case_decide.
Qed.

Lemma after_delete_not_reopened (tr0 tr tr' : list (Z * Call)) now i r :
  rows (db (run tr (boot (db (run tr0 init_world))))) !! i = Some r ->
  no_reopen_of i tr'
    (step now (CDelete i) (run tr (boot (db (run tr0 init_world))))) = true.
Proof.
  pose proof (world_ok_run tr _ (world_ok_boot tr0)) as [Hdb _].
  set (w := run tr (boot (db (run tr0 init_world)))) in *. intros Hr.
  apply deleted_not_reopened.
  - now apply db_ok_step.
  - destruct Hdb as [_ Hrows]. destruct (Hrows _ _ Hr) as [_ Hi]. simpl. lia.
  - simpl. apply lookup_delete_eq.
Qed.

End Deleted.

(** C6 (amended): at any moment of a run of the process there is at most
    one pending timeout per task id.  When finish, dnf or delete of an
    existing task completes, no timeout is pending for it, and from then on
    no notification is shown for it and none is armed, as long as no update
    gives the task a status that is not terminal again. *)
Theorem timers_disarmed `{Platform} (tr0 tr : list (Z * Call)) :
  one_timer_per_task (notif (run tr (boot (db (run tr0 init_world)))))
  /\ forall (now : Z) (c : Call) (i : Z) (r : TaskRow),
       rows (db (run tr (boot (db (run tr0 init_world))))) !! i = Some r ->
       c = CFinish i \/ c = CDnf i \/ c = CDelete i ->
       no_timer_for i (notif (step now c (run tr (boot (db (run tr0 init_world))))))
       /\ forall tr' : list (Z * Call),
            no_reopen_of i tr'
              (step now c (run tr (boot (db (run tr0 init_world))))) = true ->
            shown_for i (run tr' (step now c (run tr (boot (db (run tr0 init_world))))))
              = shown_for i (step now c (run tr (boot (db (run tr0 init_world)))))
            /\ no_timer_for i
                 (notif (run tr' (step now c (run tr (boot (db (run tr0 init_world))))))).
Proof.
  pose proof (world_ok_run tr _ (world_ok_boot tr0)) as Hw.
  set (w := run tr (boot (db (run tr0 init_world)))) in *.
  split; [apply notif_ok_one_timer, Hw|].
  intros now c i r Hr Hc.
  pose proof (closing_step i now c w r Hw Hr Hc) as Hcl.
  split; [apply Hcl|].
  intros tr' Hn.
  destruct (closed_run i tr' _ (world_ok_step now c w Hw) Hcl Hn) as [Hcl' Hs].
  split; [exact Hs | apply Hcl'].
Qed.

Lemma timers_disarmed_witness :
  shown_for 1 (run (H := Utc.platform) trace_edit_fire
                 (run (H := Utc.platform) trace_due_finished
                    (boot (db (run (H := Utc.platform) [] init_world))))) = [].
Proof.
  destruct (timers_disarmed (H := Utc.platform) []
              [(1709251200000, CCreate (new_task "a" (Val "sprint") (Val "2024-03-10")))])
    as [_ Hd].
  destruct (rows (db (run (H := Utc.platform)
      [(1709251200000, CCreate (new_task "a" (Val "sprint") (Val "2024-03-10")))]
      (boot (db (run (H := Utc.platform) [] init_world))))) !! 1)
    as [r|] eqn:E; [|vm_compute in E; discriminate].
  destruct (Hd 1709337600000 (CFinish 1) 1 r E (or_introl eq_refl)) as [_ Hnever].
  destruct (Hnever trace_edit_fire ltac:(vm_compute; reflexivity)) as [Hs _].
  exact Hs.
Defined.

(* ===================================================================== *)
(** ** C7: empty titles                                                   *)
(* ===================================================================== *)

Section Titles.
Context `{Platform}.

(** [tasks:create] rejects a title that is empty once trimmed and leaves
    the state untouched. *)
Lemma create_rejects_empty_title now p w :
  trim (nullish (c_title p) "") = "" ->
  tasks_create now p w = (Err "title is required", w).
Proof. intros E. unfold tasks_create. now rewrite E. Qed.

(** [tasks:create] never inserts an empty title. *)
Lemma create_title_not_empty now p w i :
  tasks_create now p w = (Ok i, snd (tasks_create now p w)) ->
  exists r, rows (db (snd (tasks_create now p w))) !! i = Some r /\ title r <> "".
Proof.
  unfold tasks_create.
  destruct (str_truthy (trim (nullish (c_title p) ""))) eqn:E; simpl; [|discriminate].
  intros [= <-]. eexists. rewrite lookup_insert_eq. split; [reflexivity|].
  simpl. intros E'. now rewrite E' in E.
Qed.

(** The title editor of the renderer drops a draft that is empty once
    trimmed. *)
Lemma saveTitleToDb_drops_empty i draft :
  trim (nullish draft "") = "" -> saveTitleToDb i draft = None.
Proof. intros E. unfold saveTitleToDb. now rewrite E. Qed.

End Titles.

(** In any reachable state, [tasks:update] stores the trimmed title it is
    given on an existing task, empty or not. *)
Lemma update_title_unchecked `{Platform} tr now i r t :
  rows (db (run tr init_world)) !! i = Some r ->
  title <$> rows (db (step now (CUpdate (set_title i t)) (run tr init_world))) !! i
    = Some (trim t).
Proof.
  intros Hr. pose proof (db_ok_reachable tr) as Hok.
  rewrite (update_existing now (set_title i t) _ r Hok Hr). simpl.
  now rewrite lookup_insert_eq.
Qed.

(** C7: [tasks:update] has no such check.  On an existing task, a request
    whose title is made of spaces is accepted and the empty title is
    stored. *)
Theorem update_stores_empty_title :
  fst (tasks_update (H := Utc.platform) 1 (set_title 1 "   ")
         (run (H := Utc.platform) trace_race init_world)) = Ok tt
  /\ title <$> rows (db (run (H := Utc.platform) trace_race init_world)) !! 1
     = Some "a"
  /\ title <$> rows (db (step (H := Utc.platform) 1 (CUpdate (set_title 1 "   "))
                          (run (H := Utc.platform) trace_race init_world))) !! 1
     = Some "".
Proof. vm_compute. repeat split. Qed.

(* ===================================================================== *)
(** ** C8: fallback over the endpoints                                    *)
(* ===================================================================== *)


Section Fallback.
Context `{Platform}.



End Fallback.



(* ===================================================================== *)
(** ** C9: the cache of the renderer                                      *)
(* ===================================================================== *)


Section Cache.
Context `{Platform}.






End Cache.



(* ===================================================================== *)
(** * Further properties of the main process                              *)
(* ===================================================================== *)

(** ** [tasks:list] *)

#[local] Instance by_id_desc_trans : Transitive by_id_desc.
Proof. unfold by_id_desc. intros a b c. lia. Qed.

#[local] Instance by_id_desc_total : Total by_id_desc.
Proof. unfold by_id_desc. intros a b. lia. Qed.

Section Listing.
Context `{Platform}.

Lemma strictly_sorted (l : list TaskRow) :
  StronglySorted by_id_desc l -> NoDup (id <$> l) ->
  StronglySorted (fun a b => id b < id a) l.
Proof.
  induction 1 as [|a l Hl IH Ha]; intros Hnd; [constructor|].
  rewrite fmap_cons in Hnd. apply NoDup_cons in Hnd as [Hni Hnd].
  constructor; [now apply IH|].
  rewrite Forall_forall in Ha |- *. intros b Hb.
  specialize (Ha b Hb). unfold by_id_desc in Ha.
  assert (id b <> id a); [|lia].
  intros E. apply Hni. rewrite <- E. now apply list_elem_of_fmap_2.
Qed.

Lemma listed_rows w r :
  db_ok (db w) ->
  r ∈ (snd <$> map_to_list (rows (db w))) <-> rows (db w) !! id r = Some r.
Proof.
  intros [_ Hdb]. rewrite list_elem_of_fmap. split.
  - intros [[k r'] [-> Hin]]. apply elem_of_map_to_list in Hin. simpl.
    destruct (Hdb _ _ Hin) as [-> _]. exact Hin.
  - intros Hr. exists (id r, r). split; [reflexivity|].
    now apply elem_of_map_to_list.
Qed.

Lemma listed_ids_nodup w :
  db_ok (db w) -> NoDup (id <$> (snd <$> map_to_list (rows (db w)))).
Proof.
  intros [_ Hdb].
  assert (id <$> (snd <$> map_to_list (rows (db w)))
          = fst <$> map_to_list (rows (db w))) as ->;
    [|apply NoDup_fst_map_to_list].
  rewrite <- list_fmap_compose. apply Forall_fmap_ext_1, Forall_forall.
  intros [k r] Hin. apply elem_of_map_to_list in Hin. simpl.
  now destruct (Hdb _ _ Hin).
Qed.

End Listing.

(** X1: in every reachable state, [tasks:list] answers with exactly the
    rows of the table, each once, by strictly decreasing id. *)
Theorem tasks_list_newest_first `{Platform} (tr : list (Z * Call)) :
  StronglySorted (fun a b => id b < id a) (tasks_list (run tr init_world))
  /\ (forall r, r ∈ tasks_list (run tr init_world)
                <-> rows (db (run tr init_world)) !! id r = Some r)
  /\ length (tasks_list (run tr init_world)) = size (rows (db (run tr init_world))).
Proof.
  pose proof (db_ok_reachable tr) as Hok.
  set (w := run tr init_world) in *. unfold tasks_list.
  pose proof (merge_sort_Permutation by_id_desc
                (snd <$> map_to_list (rows (db w)))) as Hp.
  split; [|split].
  - apply strictly_sorted; [apply (StronglySorted_merge_sort _)|].
    rewrite Hp. now apply listed_ids_nodup.
  - intros r. rewrite Hp. now apply listed_rows.
  - rewrite Hp, length_fmap. apply length_map_to_list.
Qed.

(** ** Row ids *)

Section Ids.
Context `{Platform}.

Lemma step_seq now c w :
  (exists p i, c = CCreate p /\ fst (tasks_create now p w) = Ok i
               /\ i = seq (db w) + 1 /\ seq (db (step now c w)) = seq (db w) + 1)
  \/ ((forall p i, c = CCreate p -> fst (tasks_create now p w) <> Ok i)
      /\ seq (db (step now c w)) = seq (db w)).
Proof.
  destruct c as [p|p|i|i|i| |h]; simpl.
  - destruct (negb (str_truthy (trim (nullish (c_title p) "")))) eqn:Et.
    + right. unfold tasks_create. rewrite Et. split; [|reflexivity].
      intros p' i' [= <-]. rewrite Et. discriminate.
    + left. exists p, (seq (db w) + 1). unfold tasks_create. rewrite Et.
      now repeat split.
  - right. split; [intros ? ? E; discriminate E|]. unfold tasks_update.
    destruct (u_id p =? 0); [reflexivity|]. now destruct (rows (db w) !! u_id p).
  - right. split; [intros ? ? E; discriminate E|]. unfold tasks_finish.
    now destruct (rows (db w) !! i).
  - right. split; [intros ? ? E; discriminate E|]. unfold tasks_dnf.
    now destruct (rows (db w) !! i).
  - right. split; [intros ? ? E; discriminate E | reflexivity].
  - right. split; [intros ? ? E; discriminate E | reflexivity].
  - right. split; [intros ? ? E; discriminate E|]. unfold timer_fire.
    destruct (pending (notif w) !! h); [|reflexivity].
    now destruct (tm_due _ <=? now).
Qed.

Lemma issued_from tr : forall w,
  seq (db w) <= seq (db (run tr w))
  /\ issued tr w = seqZ (seq (db w) + 1) (seq (db (run tr w)) - seq (db w)).
Proof.
  induction tr as [|[now c] tr IH]; intros w; simpl.
  - split; [lia|]. now rewrite Z.sub_diag.
  - destruct (IH (step now c w)) as [Hle ->].
    destruct (step_seq now c w) as [(p & i & -> & Hok & -> & Hs) | [Hno Hs]].
    + simpl in *. rewrite Hok. rewrite Hs in *. split; [lia|].
      rewrite (seqZ_cons (seq (db w) + 1)) by lia. simpl. repeat f_equal; lia.
    + rewrite Hs in *. split; [lia|].
      destruct c as [p|p|i|i|i| |h]; try reflexivity.
      destruct (fst (tasks_create now p w)) as [i|m] eqn:E; [|reflexivity].
      now destruct (Hno p i eq_refl).
Qed.

End Ids.

(** X2: the ids [tasks:create] answers with along any sequence of events
    from the empty table are 1, 2, 3, ... in order, up to the value of the
    counter: an id is never issued twice, whatever was deleted in
    between. *)
Theorem ids_issued_in_sequence `{Platform} (tr : list (Z * Call)) :
  issued tr init_world = seqZ 1 (seq (db (run tr init_world))).
Proof.
  destruct (issued_from tr init_world) as [_ ->]. simpl. f_equal. lia.
Qed.

Example ids_after_delete :
  issued (H := Utc.platform) trace_create_delete init_world = [1; 2; 3].
Proof. reflexivity. Qed.

(** ** Requests that throw *)

(** X3: a request throws exactly when its guard says so: create with a
    title that is empty once trimmed, update with id 0 or an unknown id,
    finish and dnf with an unknown id; delete and rescheduleNotifications
    never throw.  A request that throws leaves the table, the timers and
    the notifications as they were. *)
Theorem requests_throw_atomically `{Platform} (now : Z) (c : Call) (w : World) :
  thrown now c w = rejection c w
  /\ (thrown now c w <> None -> step now c w = w).
Proof.
  destruct c as [p|p|i|i|i| |h]; simpl.
  - unfold tasks_create.
    destruct (str_truthy (trim (nullish (c_title p) ""))); simpl;
      split; congruence.
  - unfold tasks_update. destruct (u_id p =? 0); simpl; [split; congruence|].
    destruct (decide (is_Some (rows (db w) !! u_id p))) as [[cur E]|Hn].
    + rewrite E. simpl. split; congruence.
    + destruct (rows (db w) !! u_id p) as [cur|] eqn:E; [destruct Hn; eauto|].
      simpl. split; congruence.
  - unfold tasks_finish.
    destruct (decide (is_Some (rows (db w) !! i))) as [[cur E]|Hn].
    + rewrite E. simpl. split; congruence.
    + destruct (rows (db w) !! i) as [cur|] eqn:E; [destruct Hn; eauto|].
      simpl. split; congruence.
  - unfold tasks_dnf.
    destruct (decide (is_Some (rows (db w) !! i))) as [[cur E]|Hn].
    + rewrite E. simpl. split; congruence.
    + destruct (rows (db w) !! i) as [cur|] eqn:E; [destruct Hn; eauto|].
      simpl. split; congruence.
  - split; congruence.
  - split; congruence.
  - split; congruence.
Qed.

Lemma requests_throw_atomically_witness :
  thrown (H := Utc.platform) 5 (CFinish 7)
    (run (H := Utc.platform) trace_race init_world) = Some "task not found"
  /\ step (H := Utc.platform) 5 (CFinish 7)
       (run (H := Utc.platform) trace_race init_world)
     = run (H := Utc.platform) trace_race init_world.
Proof.
  destruct (requests_throw_atomically (H := Utc.platform) 5 (CFinish 7)
              (run (H := Utc.platform) trace_race init_world)) as [Ht Hs].
  split; [rewrite Ht; reflexivity|]. apply Hs. rewrite Ht. discriminate.
Defined.

(** ** [tasks:delete] *)

Lemma clearNotif_idem i n : clearNotif i (clearNotif i n) = clearNotif i n.
Proof.
  unfold clearNotif at 1. rewrite clearNotif_registry.
  unfold clearNotif. destruct (notifTimers n !! i); simpl;
    now rewrite delete_delete_eq.
Qed.

(** X4: [tasks:delete] never throws, removes the row and the registry
    entry of the id, leaves every other row alone, and is idempotent:
    deleting again changes nothing. *)
Theorem delete_is_idempotent `{Platform} (now : Z) (i : Z) (w : World) :
  thrown now (CDelete i) w = None
  /\ rows (db (step now (CDelete i) w)) !! i = None
  /\ notifTimers (notif (step now (CDelete i) w)) !! i = None
  /\ (forall j, j <> i ->
        rows (db (step now (CDelete i) w)) !! j = rows (db w) !! j)
  /\ step now (CDelete i) (step now (CDelete i) w) = step now (CDelete i) w.
Proof.
  simpl. split; [reflexivity|]. split; [apply lookup_delete_eq|].
  split; [apply clearNotif_registry|]. split.
  - intros j Hne. now apply lookup_delete_ne.
  - unfold tasks_delete. simpl. now rewrite delete_delete_eq, clearNotif_idem.
Qed.

(** ** The timers, continued *)

Section Arming.
Context `{Platform}.

(** [scheduleDeadlineNotif], by its test. *)
Lemma schedule_spec now task n :
  scheduleDeadlineNotif now task n =
    if armable now task then
      {| notifTimers := <[id task := next_handle (clearNotif (id task) n)]>
                          (notifTimers (clearNotif (id task) n));
         pending := <[next_handle (clearNotif (id task) n) :=
                        {| tm_id := id task; tm_title := title task;
                           tm_due := due_time now task |}]>
                      (pending (clearNotif (id task) n));
         next_handle := next_handle (clearNotif (id task) n) + 1 |}
    else clearNotif (id task) n.
Proof.
  unfold scheduleDeadlineNotif, armable, due_time.
  destruct (deadline task) as [dl|]; [|reflexivity].
  destruct (str_truthy dl); [|reflexivity]. simpl.
  destruct (is_done (status task)); [reflexivity|]. simpl.
  destruct (Date_parse (dl ++ "T10:00:00")) as [target|]; simpl; [|reflexivity].
  now destruct (target - now <=? 0).
Qed.

Lemma schedule_registry_self now task n :
  is_Some (notifTimers (scheduleDeadlineNotif now task n) !! id task)
  <-> armable now task = true.
Proof.
  rewrite schedule_spec. destruct (armable now task); simpl.
  - rewrite lookup_insert_eq. split; eauto.
  - rewrite clearNotif_registry. split; [intros [? ?]|]; discriminate.
Qed.

Lemma clearNotif_registry_other i j n :
  j <> i -> notifTimers (clearNotif i n) !! j = notifTimers n !! j.
Proof.
  intros Hne. unfold clearNotif. destruct (notifTimers n !! i); simpl;
    now rewrite lookup_delete_ne.
Qed.

Lemma schedule_registry_other now task n j :
  j <> id task ->
  notifTimers (scheduleDeadlineNotif now task n) !! j = notifTimers n !! j.
Proof.
  intros Hne. rewrite schedule_spec. destruct (armable now task); simpl.
  - rewrite lookup_insert_ne by congruence. now apply clearNotif_registry_other.
  - now apply clearNotif_registry_other.
Qed.

Lemma schedule_pending now task n h tm :
  notif_ok n ->
  pending (scheduleDeadlineNotif now task n) !! h = Some tm ->
  (pending n !! h = Some tm /\ tm_id tm <> id task)
  \/ (armable now task = true
      /\ tm = {| tm_id := id task; tm_title := title task;
                 tm_due := due_time now task |}).
Proof.
  intros Hok. rewrite schedule_spec. destruct (armable now task); simpl.
  - rewrite lookup_insert. case_decide.
    + intros [= <-]. now right.
    + intros Hp. left. split; [eapply clearNotif_pending, Hp|].
      eapply clearNotif_disarms; eauto.
  - intros Hp. left. split; [eapply clearNotif_pending, Hp|].
    eapply clearNotif_disarms; eauto.
Qed.

Lemma clearNotif_registry_ok i n : registry_ok n -> registry_ok (clearNotif i n).
Proof.
  intros Hreg j h. destruct (decide (j = i)) as [->|Hne].
  - rewrite clearNotif_registry. discriminate.
  - rewrite clearNotif_registry_other by assumption. intros Hj.
    destruct (Hreg _ _ Hj) as [tm [Hp Hid]]. exists tm. split; [|exact Hid].
    unfold clearNotif. destruct (notifTimers n !! i) as [h0|] eqn:E; simpl;
      [|exact Hp].
    rewrite lookup_delete_ne; [exact Hp|]. intros <-.
    destruct (Hreg _ _ E) as [tm' [Hp' Hid']]. congruence.
Qed.

Lemma schedule_registry_ok now task n :
  notif_ok n -> registry_ok n -> registry_ok (scheduleDeadlineNotif now task n).
Proof.
  intros Hok Hreg. pose proof (clearNotif_registry_ok (id task) n Hreg) as Hreg'.
  pose proof (clearNotif_ok (id task) n Hok) as [_ Hlt].
  rewrite schedule_spec. destruct (armable now task); [|exact Hreg'].
  intros j h. simpl. rewrite lookup_insert. case_decide as Hj.
  - intros [= <-]. eexists. rewrite lookup_insert_eq. split; [reflexivity|].
    simpl. congruence.
  - intros Hr. destruct (Hreg' _ _ Hr) as [tm [Hp Hid]]. exists tm.
    split; [|exact Hid]. rewrite lookup_insert_ne; [exact Hp|].
    apply Hlt in Hp. lia.
Qed.

Lemma registry_ok_fold now (l : list (Z * TaskRow)) : forall n,
  notif_ok n -> registry_ok n ->
  registry_ok (foldl (fun n kv => scheduleDeadlineNotif now (snd kv) n) n l).
Proof.
  induction l as [|kv l IH]; intros n Hok Hreg; simpl; [exact Hreg|].
  apply IH; [apply schedule_ok, Hok | apply schedule_registry_ok; assumption].
Qed.

Lemma registry_ok_step now c w :
  notif_ok (notif w) -> registry_ok (notif w) -> registry_ok (notif (step now c w)).
Proof.
  intros Hok Hreg. destruct c as [p|p|i|i|i| |h]; simpl.
  - unfold tasks_create.
    destruct (negb (str_truthy (trim (nullish (c_title p) "")))); simpl;
      [exact Hreg | now apply schedule_registry_ok].
  - unfold tasks_update. destruct (u_id p =? 0); simpl; [exact Hreg|].
    destruct (rows (db w) !! u_id p); simpl;
      [now apply schedule_registry_ok | exact Hreg].
  - unfold tasks_finish. destruct (rows (db w) !! i); simpl;
      [now apply clearNotif_registry_ok | exact Hreg].
  - unfold tasks_dnf. destruct (rows (db w) !! i); simpl;
      [now apply clearNotif_registry_ok | exact Hreg].
  - now apply clearNotif_registry_ok.
  - now apply registry_ok_fold.
  - unfold timer_fire. destruct (pending (notif w) !! h) as [tm|] eqn:E; [|exact Hreg].
    destruct (tm_due tm <=? now); [|exact Hreg]. simpl.
    destruct Hok as [Hown _]. pose proof (Hown _ _ E) as Hmine.
    intros j h'. destruct (decide (j = tm_id tm)) as [->|Hne].
    + rewrite clearNotif_registry. discriminate.
    + rewrite clearNotif_registry_other by assumption. simpl. intros Hj.
      destruct (Hreg _ _ Hj) as [tm' [Hp Hid]]. exists tm'. split; [|exact Hid].
      assert (h' <> h) as Hh by (intros ->; congruence).
      unfold clearNotif. simpl. rewrite Hmine. simpl.
      now rewrite !lookup_delete_ne by congruence.
Qed.

Lemma registry_ok_run tr : forall w,
  notif_ok (notif w) -> registry_ok (notif w) -> registry_ok (notif (run tr w)).
Proof.
  induction tr as [|[now c] tr IH]; intros w Hok Hreg; simpl; [exact Hreg|].
  apply IH; [now apply notif_ok_step | now apply registry_ok_step].
Qed.

End Arming.

(** X5: at any moment of a run of the process, the registry [notifTimers]
    and the timeouts held by the event loop describe each other: the
    registry holds handle [h] for task [i] exactly when timeout [h] is
    pending and is the one of task [i].  No handle dangles and no timeout
    is lost from the registry. *)
Theorem registry_matches_event_loop `{Platform}
    (tr0 tr : list (Z * Call)) (i h : Z) :
  notifTimers (notif (run tr (boot (db (run tr0 init_world))))) !! i = Some h
  <-> exists tm,
        pending (notif (run tr (boot (db (run tr0 init_world))))) !! h = Some tm
        /\ tm_id tm = i.
Proof.
  pose proof (world_ok_run tr _ (world_ok_boot tr0)) as [_ Hok].
  assert (registry_ok (notif (run tr (boot (db (run tr0 init_world)))))) as Hreg.
  { apply registry_ok_run; [apply notif_ok_empty|].
    intros j h'. simpl. rewrite lookup_empty. discriminate. }
  split; [apply Hreg|]. intros [tm [Hp <-]]. now apply Hok.
Qed.

Section Alarms.
Context `{Platform}.

Lemma armable_active now task :
  armable now task = true ->
  is_done (status task) = false /\ text_truthy (deadline task) = true.
Proof.
  unfold armable. destruct (deadline task) as [dl|]; [|discriminate].
  simpl. destruct (str_truthy dl); [|discriminate].
  destruct (is_done (status task)); [discriminate | now split].
Qed.

(** Arming for the row just stored under its id keeps the alarms fresh. *)
Lemma alarms_fresh_schedule now r (m m' : gmap Z TaskRow) n :
  notif_ok n -> alarms_fresh_at m n ->
  m' !! id r = Some r -> (forall j, j <> id r -> m' !! j = m !! j) ->
  alarms_fresh_at m' (scheduleDeadlineNotif now r n).
Proof.
  intros Hok Hfresh Hr Hother h tm Hp.
  destruct (schedule_pending _ _ _ _ _ Hok Hp) as [[Hp0 Hne] | [Harm ->]].
  - rewrite Hother by assumption. now apply (Hfresh h).
  - simpl. exists r. destruct (armable_active _ _ Harm). now repeat split.
Qed.

(** Clearing the timer of the only row that changed keeps them fresh. *)
Lemma alarms_fresh_clear i (m m' : gmap Z TaskRow) n :
  notif_ok n -> alarms_fresh_at m n ->
  (forall j, j <> i -> m' !! j = m !! j) ->
  alarms_fresh_at m' (clearNotif i n).
Proof.
  intros Hok Hfresh Hother h tm Hp.
  pose proof (clearNotif_disarms i n Hok _ _ Hp) as Hne.
  rewrite Hother by assumption. eapply Hfresh, clearNotif_pending, Hp.
Qed.

Lemma alarms_fresh_fold now (m : gmap Z TaskRow) (l : list (Z * TaskRow)) :
  (forall kv, kv ∈ l -> m !! id (snd kv) = Some (snd kv)) ->
  forall n, notif_ok n -> alarms_fresh_at m n ->
  alarms_fresh_at m (foldl (fun n kv => scheduleDeadlineNotif now (snd kv) n) n l).
Proof.
  induction l as [|kv l IH]; intros Hl n Hok Hfresh; simpl; [exact Hfresh|].
  apply IH.
  - intros kv' Hin. apply Hl. now apply list_elem_of_further.
  - apply schedule_ok, Hok.
  - apply (alarms_fresh_schedule now (snd kv) m m n); try assumption.
    + apply Hl, list_elem_of_here.
    + reflexivity.
Qed.

Lemma alarms_fresh_step now c w :
  world_ok w -> alarms_fresh w -> alarms_fresh (step now c w).
Proof.
  intros [[Hseq Hdb] Hok] Hfresh. unfold alarms_fresh in *.
  destruct c as [p|p|i|i|i| |h]; simpl.
  - unfold tasks_create.
    destruct (negb (str_truthy (trim (nullish (c_title p) "")))); simpl;
      [exact Hfresh|].
    eapply alarms_fresh_schedule; eauto; simpl.
    + apply lookup_insert_eq.
    + intros j Hne. now apply lookup_insert_ne.
  - unfold tasks_update. destruct (u_id p =? 0); simpl; [exact Hfresh|].
    destruct (rows (db w) !! u_id p) as [cur|] eqn:E; simpl; [|exact Hfresh].
    destruct (Hdb _ _ E) as [Hid _].
    eapply alarms_fresh_schedule; eauto; simpl; rewrite Hid.
    + apply lookup_insert_eq.
    + intros j Hne. now apply lookup_insert_ne.
  - unfold tasks_finish.
    destruct (rows (db w) !! i) as [cur|] eqn:E; simpl; [|exact Hfresh].
    eapply alarms_fresh_clear; eauto.
    intros j Hne. now apply lookup_insert_ne.
  - unfold tasks_dnf.
    destruct (rows (db w) !! i) as [cur|] eqn:E; simpl; [|exact Hfresh].
    eapply alarms_fresh_clear; eauto.
    intros j Hne. now apply lookup_insert_ne.
  - eapply alarms_fresh_clear; eauto.
    intros j Hne. now apply lookup_delete_ne.
  - apply alarms_fresh_fold; try assumption.
    intros [k r] Hin. apply elem_of_map_to_list in Hin. simpl.
    destruct (Hdb _ _ Hin) as [-> _]. exact Hin.
  - unfold timer_fire. destruct (pending (notif w) !! h) as [tm|] eqn:E;
      [|exact Hfresh].
    destruct (tm_due tm <=? now); [|exact Hfresh]. simpl.
    intros h' tm' Hp. apply clearNotif_pending in Hp. simpl in Hp.
    rewrite lookup_delete in Hp. case_decide; [discriminate|].
    now apply (Hfresh h').
Qed.

Lemma alarms_fresh_run tr : forall w,
  world_ok w -> alarms_fresh w -> alarms_fresh (run tr w).
Proof.
  induction tr as [|[now c] tr IH]; intros w Hw Hfresh; simpl; [exact Hfresh|].
  apply IH; [now apply world_ok_step | now apply alarms_fresh_step].
Qed.

(** What create and update do once they have written a row. *)
Lemma written_step now c w r :
  db_ok (db w) -> written_row now c w = Some r ->
  notif (step now c w) = scheduleDeadlineNotif now r (notif w)
  /\ rows (db (step now c w)) = <[id r := r]> (rows (db w)).
Proof.
  intros [_ Hdb]. destruct c as [p|p|i|i|i| |h]; simpl; try discriminate.
  - unfold tasks_create.
    destruct (str_truthy (trim (nullish (c_title p) ""))); simpl; [|discriminate].
    intros [= <-]. now split.
  - unfold tasks_update. destruct (u_id p =? 0); [discriminate|].
    destruct (rows (db w) !! u_id p) as [cur|] eqn:E; simpl; [|discriminate].
    intros [= <-]. destruct (Hdb _ _ E) as [Hid _]. simpl. rewrite Hid.
    now split.
Qed.

End Alarms.

(** X6: at any moment of a run of the process, every timeout held by the
    event loop belongs to a task that is in the table, is neither finished
    nor abandoned, has a deadline, and whose current title is the one the
    notification will show.  No alarm is orphaned or stale. *)
Theorem alarms_are_fresh `{Platform} (tr0 tr : list (Z * Call)) :
  alarms_fresh (run tr (boot (db (run tr0 init_world)))).
Proof.
  apply alarms_fresh_run; [apply world_ok_boot|].
  intros h tm. simpl. rewrite lookup_empty. discriminate.
Qed.

(** X7: once create or update has written a row, a timer is registered
    for the task exactly when the row has a non-empty deadline, a status
    that is not terminal, and 10:00 of the deadline day is not reached yet
    (or the deadline does not parse as a date); that timer carries the
    title of the row. *)
Theorem timer_armed_iff_armable `{Platform}
    (tr0 tr : list (Z * Call)) (now : Z) (c : Call) (r : TaskRow) :
  written_row now c (run tr (boot (db (run tr0 init_world)))) = Some r ->
  rows (db (step now c (run tr (boot (db (run tr0 init_world)))))) !! id r = Some r
  /\ (is_Some (notifTimers
                 (notif (step now c (run tr (boot (db (run tr0 init_world))))))
               !! id r)
      <-> armable now r = true)
  /\ forall h tm,
       pending (notif (step now c (run tr (boot (db (run tr0 init_world))))))
         !! h = Some tm ->
       tm_id tm = id r ->
       tm_title tm = title r /\ tm_due tm = due_time now r.
Proof.
  pose proof (world_ok_run tr _ (world_ok_boot tr0)) as [Hdb Hok].
  set (w := run tr (boot (db (run tr0 init_world)))) in *. intros Hw.
  destruct (written_step now c w r Hdb Hw) as [-> ->].
  split; [apply lookup_insert_eq|]. split; [apply schedule_registry_self|].
  intros h tm Hp Hid.
  destruct (schedule_pending _ _ _ _ _ Hok Hp) as [[_ Hne] | [_ ->]];
    [contradiction | now split].
Qed.

Lemma timer_armed_iff_armable_witness :
  notifTimers (notif (run (H := Utc.platform) trace_due
                        (boot (db (run (H := Utc.platform) [] init_world))))) !! 1
    = Some 1
  /\ notifTimers (notif (step (H := Utc.platform) 1710064800000
                           (CUpdate (set_title 1 "b"))
                           (run (H := Utc.platform) trace_due
                              (boot (db (run (H := Utc.platform) [] init_world))))))
       !! 1 = None.
Proof.
  split; [reflexivity|].
  destruct (timer_armed_iff_armable (H := Utc.platform) [] trace_due
              1710064800000 (CUpdate (set_title 1 "b"))
              {| id := 1; title := "b"; session_type := "sprint"; status := "start";
                 laps_total := 10; laps_done := 5; created_at := 1709251200000;
                 deadline := Some "2024-03-10"; finished_at := None;
                 points_base := 0; points_bonus := 0; points_penalty := 0;
                 points_total := 0; points_session_type := Some "sprint" |}
              ltac:(vm_compute; reflexivity)) as [_ [Harm _]].
  simpl id in Harm.
  destruct (notifTimers _ !! 1) as [h|] eqn:E in Harm |- *; [|reflexivity].
  exfalso. assert (is_Some (Some h)) as Hs by eauto.
  apply Harm in Hs. vm_compute in Hs. discriminate Hs.
Defined.

(** X8: a create or update that arms a timer leaves one pending timeout
    for the task, carrying the title of the row.  It is due at 10:00 of
    the deadline day when that is at most 2^31-1 ms (about 24.8 days)
    ahead, and 1 ms after the request when it is further ahead or the
    deadline is not a date: the difference is handed to [setTimeout] as it
    is.  The event loop shows the notification when it runs the timeout at
    or after that time, and not before. *)
Theorem timer_due_time `{Platform}
    (tr0 tr : list (Z * Call)) (now : Z) (c : Call) (r : TaskRow) (dl : string) :
  written_row now c (run tr (boot (db (run tr0 init_world)))) = Some r ->
  deadline r = Some dl ->
  armable now r = true ->
  exists h tm,
    notifTimers (notif (step now c (run tr (boot (db (run tr0 init_world))))))
      !! id r = Some h
    /\ pending (notif (step now c (run tr (boot (db (run tr0 init_world))))))
         !! h = Some tm
    /\ tm_id tm = id r /\ tm_title tm = title r
    /\ tm_due tm
        = match Date_parse (dl ++ "T10:00:00") with
          | Some target => if target - now <=? 2147483647 then target else now + 1
          | None => now + 1
          end
    /\ forall t,
         shown (step t (CFire h)
                  (step now c (run tr (boot (db (run tr0 init_world))))))
         = ((if (tm_due tm <=? t) && Notification_isSupported
             then [(id r, title r)] else [])
            ++ shown (run tr (boot (db (run tr0 init_world)))))%list.
Proof.
  pose proof (world_ok_run tr _ (world_ok_boot tr0)) as [Hdb Hok].
  set (w := run tr (boot (db (run tr0 init_world)))) in *. intros Hw Hd Ha.
  destruct (written_step now c w r Hdb Hw) as [En _].
  assert (shown (step now c w) = shown w) as Es.
  { clear En. destruct c as [p|p|i|i|i| |h]; simpl in Hw |- *; try discriminate.
    - unfold tasks_create.
      now destruct (negb (str_truthy (trim (nullish (c_title p) "")))).
    - unfold tasks_update. destruct (u_id p =? 0); [reflexivity|].
      now destruct (rows (db w) !! u_id p). }
  rewrite schedule_spec, Ha in En.
  set (h := next_handle (clearNotif (id r) (notif w))) in *.
  exists h, {| tm_id := id r; tm_title := title r; tm_due := due_time now r |}.
  rewrite En. simpl. rewrite !lookup_insert_eq.
  split; [reflexivity|]. split; [reflexivity|].
  split; [reflexivity|]. split; [reflexivity|]. split.
  - unfold due_time. rewrite Hd. unfold armable in Ha. rewrite Hd in Ha.
    destruct (Date_parse (dl ++ "T10:00:00")) as [target|]; simpl; [|reflexivity].
    apply andb_true_iff in Ha as [_ Ha]. apply negb_true_iff, Z.leb_gt in Ha.
    destruct (Z.leb_spec 1 (target - now)); [|lia].
    destruct (target - now <=? 2147483647); simpl; lia.
  - intros t. unfold timer_fire. rewrite En. simpl. rewrite lookup_insert_eq. simpl.
    destruct (due_time now r <=? t); simpl; [|exact Es].
    rewrite Es. now destruct Notification_isSupported.
Qed.

(** A task created on 2024-03-01 with a deadline on 2024-04-10, more than
    24.8 days ahead: the notification is shown one millisecond later. *)
Lemma timer_due_time_witness :
  shown (step (H := Utc.platform) 1709251200001 (CFire 1)
           (step (H := Utc.platform) 1709251200000
              (CCreate (new_task "a" Undefined (Val "2024-04-10")))
              (run (H := Utc.platform) []
                 (boot (db (run (H := Utc.platform) [] init_world))))))
  = [(1, "a")].
Proof.
  destruct (timer_due_time (H := Utc.platform) [] [] 1709251200000
              (CCreate (new_task "a" Undefined (Val "2024-04-10")))
              (created_row 1709251200000
                 (new_task "a" Undefined (Val "2024-04-10")) "a" 1)
              "2024-04-10" eq_refl eq_refl eq_refl)
    as (h & tm & Hreg & _ & _ & _ & Hdue & Hfire).
  vm_compute in Hreg. injection Hreg as <-.
  rewrite Hfire, Hdue. reflexivity.
Defined.

Section Reschedule.
Context `{Platform}.

Lemma fold_registry_other now (l : list (Z * TaskRow)) i : forall n,
  (forall kv, kv ∈ l -> id (snd kv) <> i) ->
  notifTimers (foldl (fun n kv => scheduleDeadlineNotif now (snd kv) n) n l) !! i
  = notifTimers n !! i.
Proof.
  induction l as [|kv l IH]; intros n Hl; simpl; [reflexivity|].
  rewrite IH by (intros kv' Hin; apply Hl; now apply list_elem_of_further).
  apply schedule_registry_other. intros E. now apply (Hl kv (list_elem_of_here _ _)).
Qed.

Lemma fold_registry_self now (l : list (Z * TaskRow)) :
  NoDup ((fun kv => id (snd kv)) <$> l) ->
  forall n kv, kv ∈ l ->
  is_Some (notifTimers
             (foldl (fun n kv => scheduleDeadlineNotif now (snd kv) n) n l)
           !! id (snd kv))
  <-> armable now (snd kv) = true.
Proof.
  induction l as [|kv0 l IH]; intros Hnd n kv Hin; [now apply elem_of_nil in Hin|].
  rewrite fmap_cons in Hnd. apply NoDup_cons in Hnd as [Hni Hnd]. simpl.
  apply elem_of_cons in Hin as [-> | Hin].
  - rewrite fold_registry_other; [apply schedule_registry_self|].
    intros kv' Hin' E. apply Hni. rewrite <- E.
    now apply (list_elem_of_fmap_2 (fun kv => id (snd kv))).
  - now apply IH.
Qed.

End Reschedule.

(** X9: after [tasks:rescheduleNotifications], a timer is registered for
    a task of the table exactly when that task has a non-empty deadline, a
    status that is not terminal and a target that is not in the past (or
    does not parse): the timers are rebuilt from the rows alone, whatever
    they were before. *)
Theorem reschedule_rebuilds `{Platform}
    (tr0 tr : list (Z * Call)) (now : Z) (i : Z) (r : TaskRow) :
  rows (db (run tr (boot (db (run tr0 init_world))))) !! i = Some r ->
  rows (db (step now CReschedule (run tr (boot (db (run tr0 init_world)))))) !! i
    = Some r
  /\ (is_Some (notifTimers
                 (notif (step now CReschedule
                           (run tr (boot (db (run tr0 init_world)))))) !! i)
      <-> armable now r = true).
Proof.
  pose proof (world_ok_run tr _ (world_ok_boot tr0)) as [Hdb Hok].
  set (w := run tr (boot (db (run tr0 init_world)))) in *. intros Hr.
  split; [exact Hr|]. simpl.
  destruct Hdb as [_ Hdb]. destruct (Hdb _ _ Hr) as [Hid _].
  rewrite <- Hid at 1.
  apply (fold_registry_self now (map_to_list (rows (db w)))) with (kv := (i, r)).
  - assert ((fun kv : Z * TaskRow => id (snd kv)) <$> map_to_list (rows (db w))
            = fst <$> map_to_list (rows (db w))) as ->;
      [|apply NoDup_fst_map_to_list].
    apply Forall_fmap_ext_1, Forall_forall.
    intros [k r'] Hin. apply elem_of_map_to_list in Hin. simpl.
    now destruct (Hdb _ _ Hin).
  - now apply elem_of_map_to_list.
Qed.

(** After a restart on a table with a finished task, an active task with a
    deadline and an active task without one, only the second gets a timer. *)
Lemma reschedule_rebuilds_witness :
  is_Some (notifTimers (notif
    (step (H := Utc.platform) 1709337600000 CReschedule
       (run (H := Utc.platform) []
          (boot (db (run (H := Utc.platform) trace_three init_world)))))) !! 2)
  /\ notifTimers (notif
    (step (H := Utc.platform) 1709337600000 CReschedule
       (run (H := Utc.platform) []
          (boot (db (run (H := Utc.platform) trace_three init_world)))))) !! 1
     = None.
Proof.
  split; [|reflexivity].
  destruct (reschedule_rebuilds (H := Utc.platform) trace_three [] 1709337600000 2
              {| id := 2; title := "b"; session_type := "race"; status := "start";
                 laps_total := 10; laps_done := 5; created_at := 1709251200001;
                 deadline := Some "2024-03-10"; finished_at := None;
                 points_base := 0; points_bonus := 0; points_penalty := 0;
                 points_total := 0; points_session_type := Some "race" |}
              ltac:(vm_compute; reflexivity)) as [_ [_ Harm]].
  apply Harm. vm_compute. reflexivity.
Defined.

(** X10: when the event loop runs a pending timeout that is due, the
    notification of its task is shown once (when notifications are
    supported), and afterwards nothing is pending or registered for that
    task; running the same handle again does nothing.  A handle that is
    not pending, or not due yet, does nothing either. *)
Theorem timer_fires_once `{Platform}
    (tr0 tr : list (Z * Call)) (now h : Z) :
  match pending (notif (run tr (boot (db (run tr0 init_world))))) !! h with
  | Some tm =>
      if tm_due tm <=? now then
        shown (step now (CFire h) (run tr (boot (db (run tr0 init_world)))))
          = ((if Notification_isSupported
              then [(tm_id tm, tm_title tm)] else [])
             ++ shown (run tr (boot (db (run tr0 init_world)))))%list
        /\ no_timer_for (tm_id tm)
             (notif (step now (CFire h) (run tr (boot (db (run tr0 init_world))))))
        /\ notifTimers
             (notif (step now (CFire h) (run tr (boot (db (run tr0 init_world))))))
             !! tm_id tm = None
        /\ forall now',
             step now' (CFire h)
               (step now (CFire h) (run tr (boot (db (run tr0 init_world)))))
             = step now (CFire h) (run tr (boot (db (run tr0 init_world))))
      else step now (CFire h) (run tr (boot (db (run tr0 init_world))))
           = run tr (boot (db (run tr0 init_world)))
  | None => step now (CFire h) (run tr (boot (db (run tr0 init_world))))
            = run tr (boot (db (run tr0 init_world)))
  end.
Proof.
  pose proof (world_ok_run tr _ (world_ok_boot tr0)) as [_ Hok].
  set (w := run tr (boot (db (run tr0 init_world)))) in *.
  destruct (pending (notif w) !! h) as [tm|] eqn:E.
  - destruct (tm_due tm <=? now) eqn:Ed.
    + assert (step now (CFire h) w =
              {| db := db w;
                 notif := clearNotif (tm_id tm)
                            {| notifTimers := notifTimers (notif w);
                               pending := delete h (pending (notif w));
                               next_handle := next_handle (notif w) |};
                 shown := if Notification_isSupported
                          then (tm_id tm, tm_title tm) :: shown w else shown w |})
        as ->.
      { simpl. unfold timer_fire. now rewrite E, Ed. }
      simpl. split; [now destruct Notification_isSupported|]. split; [|split].
      * apply clearNotif_disarms. destruct Hok as [Hown Hlt]. split; simpl.
        -- intros h' tm'. rewrite lookup_delete.
           case_decide; [discriminate | apply Hown].
        -- intros h' tm'. rewrite lookup_delete.
           case_decide; [discriminate | apply Hlt].
      * apply clearNotif_registry.
      * intros now'. unfold timer_fire. simpl.
        match goal with
        | |- context [pending ?n !! h] =>
            destruct (pending n !! h) as [tm'|] eqn:E'; [|reflexivity]
        end.
        apply clearNotif_pending in E'. simpl in E'.
        rewrite lookup_delete_eq in E'. discriminate.
    + simpl. unfold timer_fire. now rewrite E, Ed.
  - simpl. unfold timer_fire. now rewrite E.
Qed.

(** The timer of the task due on 2024-03-10 runs at 10:00 that day. *)
Example timer_fires_once_example :
  shown (run (H := Utc.platform)
           [(1710064800000, CFire 1); (1710064800005, CFire 1)]
           (run (H := Utc.platform) trace_due
              (boot (db (run (H := Utc.platform) [] init_world)))))
  = [(1, "a")].
Proof. reflexivity. Qed.

(* ===================================================================== *)
(** * Further properties of the table                                     *)
(* ===================================================================== *)

Section MoreRows.
Context `{Platform}.

Lemma basePoints_values s : basePoints s ∈ [0; 1; 2; 3; 8; 25].
Proof.
  unfold basePoints.
  repeat match goal with
         | |- context [String.eqb ?a ?b] => destruct (String.eqb a b)
         end; repeat (first [apply list_elem_of_here | apply list_elem_of_further]).
Qed.

Lemma finish_penalty_values r now :
  finish_penalty r now = 0 \/ finish_penalty r now = -5.
Proof.
  unfold finish_penalty. destruct (deadline r) as [dl|]; [|now left].
  destruct (str_truthy dl); [|now left].
  destruct (isLateByDays dl now) as [d|]; [|now left].
  destruct (3 <=? d); [now right | now left].
Qed.

Lemma points_bounded_finished now r : points_bounded (finished_row now r).
Proof.
  unfold points_bounded, finished_row; simpl.
  pose proof (basePoints_values (scoreType r)) as Hb.
  pose proof (finish_penalty_values r now) as Hp.
  split; [reflexivity|]. split; [exact Hb|]. split; [exact Hp|].
  set (b := basePoints (scoreType r)) in *.
  assert (0 <= b <= 25).
  { repeat (apply elem_of_cons in Hb as [-> | Hb]; [lia|]).
    now apply elem_of_nil in Hb. }
  lia.
Qed.

Lemma points_bounded_step now c w :
  (forall i r, rows (db w) !! i = Some r -> points_bounded r) ->
  forall i r, rows (db (step now c w)) !! i = Some r -> points_bounded r.
Proof.
  intros Hw. apply rows_inv_step; try assumption.
  - intros now' p t i _. unfold points_bounded; simpl.
    split; [reflexivity|]. split; [apply list_elem_of_here|].
    split; [now left | lia].
  - intros p cur _ Hcur. exact Hcur.
  - intros now' cur _. apply points_bounded_finished.
  - intros now' cur _. unfold points_bounded; simpl.
    split; [reflexivity|]. split; [apply list_elem_of_here|].
    split; [now right | lia].
Qed.

Lemma finished_inv_step T now c w :
  db_ok (db w) -> (forall i, i ∈ T -> i <= seq (db w)) ->
  finished_inv T w ->
  finished_inv (T ∪ terminated_by c w) (step now c w)
  /\ (forall i, i ∈ T ∪ terminated_by c w -> i <= seq (db (step now c w))).
Proof.
  intros [_ Hdb] HT Hw.
  assert (forall i, i ∉ T ∪ ∅ <-> i ∉ T) as Hempty.
  { intros i. now rewrite (right_id_L ∅ (∪)). }
  destruct c as [p|p|k|k|k| |h]; simpl.
  - unfold tasks_create.
    destruct (negb (str_truthy (trim (nullish (c_title p) "")))); simpl.
    + split; [|intros i; rewrite (right_id_L ∅ (∪)); apply HT].
      intros i r Hr. rewrite Hempty. now apply Hw.
    + split.
      * intros i r. simpl. rewrite lookup_insert, Hempty. case_decide as Hi.
        -- intros [= <-]. simpl. split; [|reflexivity]. intros _ Hin.
           apply HT in Hin. lia.
        -- apply Hw.
      * intros i. rewrite (right_id_L ∅ (∪)). intros Hin. apply HT in Hin. lia.
  - unfold tasks_update.
    destruct (u_id p =? 0); simpl;
      [split; [intros i r Hr; rewrite Hempty; now apply Hw
              |intros i; rewrite (right_id_L ∅ (∪)); apply HT]|].
    destruct (rows (db w) !! u_id p) as [cur|] eqn:E; simpl;
      (split; [|intros i; rewrite (right_id_L ∅ (∪)); apply HT]).
    + intros i r. simpl. rewrite lookup_insert, Hempty. case_decide as Hi; [|apply Hw].
      intros [= <-]. simpl. subst i. now apply Hw.
    + intros i r Hr. rewrite Hempty. now apply Hw.
  - unfold tasks_finish.
    destruct (decide (is_Some (rows (db w) !! k))) as [[cur E]|Hn];
      [|assert (rows (db w) !! k = None) as E
          by (destruct (rows (db w) !! k); [destruct Hn; eauto | reflexivity])];
      rewrite E; simpl.
    + split.
      * intros i r. simpl. rewrite lookup_insert, not_elem_of_union, not_elem_of_singleton.
        case_decide as Hi.
        -- intros [= <-]. simpl. split; [discriminate|]. intros [_ Hne]. congruence.
        -- intros Hr. rewrite (Hw _ _ Hr). split; [intros ?; split; congruence|].
           now intros [? _].
      * intros i. rewrite elem_of_union, elem_of_singleton. intros [Hin | ->].
        -- now apply HT.
        -- now destruct (Hdb _ _ E) as [_ [_ ?]].
    + split; [|intros i; rewrite (right_id_L ∅ (∪)); apply HT].
      intros i r Hr. rewrite Hempty. now apply Hw.
  - unfold tasks_dnf.
    destruct (decide (is_Some (rows (db w) !! k))) as [[cur E]|Hn];
      [|assert (rows (db w) !! k = None) as E
          by (destruct (rows (db w) !! k); [destruct Hn; eauto | reflexivity])];
      rewrite E; simpl.
    + split.
      * intros i r. simpl. rewrite lookup_insert, not_elem_of_union, not_elem_of_singleton.
        case_decide as Hi.
        -- intros [= <-]. simpl. split; [discriminate|]. intros [_ Hne]. congruence.
        -- intros Hr. rewrite (Hw _ _ Hr). split; [intros ?; split; congruence|].
           now intros [? _].
      * intros i. rewrite elem_of_union, elem_of_singleton. intros [Hin | ->].
        -- now apply HT.
        -- now destruct (Hdb _ _ E) as [_ [_ ?]].
    + split; [|intros i; rewrite (right_id_L ∅ (∪)); apply HT].
      intros i r Hr. rewrite Hempty. now apply Hw.
  - split; [|intros i; rewrite (right_id_L ∅ (∪)); apply HT].
    intros i r. simpl. rewrite lookup_delete, Hempty. case_decide; [discriminate|apply Hw].
  - split; [|intros i; rewrite (right_id_L ∅ (∪)); apply HT].
    intros i r Hr. rewrite Hempty. now apply Hw.
  - split.
    + intros i r. rewrite Hempty. unfold timer_fire.
      destruct (pending (notif w) !! h); [|apply Hw].
      destruct (tm_due _ <=? now); apply Hw.
    + intros i. rewrite (right_id_L ∅ (∪)). unfold timer_fire.
      destruct (pending (notif w) !! h); [|apply HT].
      destruct (tm_due _ <=? now); apply HT.
Qed.

Lemma finished_inv_run tr : forall T w,
  db_ok (db w) -> (forall i, i ∈ T -> i <= seq (db w)) ->
  finished_inv T w -> finished_inv (T ∪ terminated tr w) (run tr w).
Proof.
  induction tr as [|[now c] tr IH]; intros T w Hdb HT Hw.
  - simpl. intros i r Hr. rewrite (right_id_L ∅ (∪)). now apply Hw.
  - rewrite terminated_cons. simpl run. rewrite (assoc_L (∪)).
    destruct (finished_inv_step T now c w Hdb HT Hw) as [Hw' HT'].
    apply IH; [now apply db_ok_step | exact HT' | exact Hw'].
Qed.

End MoreRows.

(** X11: in every reachable state, every row has [points_bonus = 0],
    [points_base] among 0, 1, 2, 3, 8 and 25, [points_penalty] 0 or -5, and
    [points_total] between -5 and 25. *)
Theorem points_stay_bounded `{Platform} (tr : list (Z * Call)) (i : Z) (r : TaskRow) :
  rows (db (run tr init_world)) !! i = Some r -> points_bounded r.
Proof.
  revert i r.
  apply (run_inv (fun w => forall i r, rows (db w) !! i = Some r -> points_bounded r)
                 (fun _ => True)).
  - intros now c w Hw _. now apply points_bounded_step.
  - intros i r. rewrite init_rows. discriminate.
  - apply Forall_forall. intros; exact I.
Qed.

Lemma points_stay_bounded_witness :
  exists r,
    rows (db (run (H := Utc.platform) trace_finished init_world)) !! 1 = Some r
    /\ points_total r = 25 /\ points_bounded r.
Proof.
  eexists. split; [vm_compute; reflexivity|]. split; [reflexivity|].
  apply (points_stay_bounded (H := Utc.platform) trace_finished 1).
  vm_compute. reflexivity.
Defined.

(** X12: in every reachable state, [finished_at] is set on a row exactly
    when finish or dnf has succeeded on its id: no other request sets it,
    and nothing clears it. *)
Theorem finished_at_iff_terminated `{Platform}
    (tr : list (Z * Call)) (i : Z) (r : TaskRow) :
  rows (db (run tr init_world)) !! i = Some r ->
  (finished_at r = None <-> i ∉ terminated tr init_world).
Proof.
  intros Hr.
  pose proof (finished_inv_run tr ∅ init_world db_ok_init) as Hinv.
  rewrite (left_id_L ∅ (∪)) in Hinv. apply (Hinv); [| |exact Hr].
  - intros j Hj. now apply not_elem_of_empty in Hj.
  - intros j r'. rewrite init_rows. discriminate.
Qed.

Lemma finished_at_iff_terminated_witness :
  exists r1 r2,
    rows (db (run (H := Utc.platform) trace_two_tasks init_world)) !! 1 = Some r1
    /\ rows (db (run (H := Utc.platform) trace_two_tasks init_world)) !! 2 = Some r2
    /\ finished_at r1 = Some 2 /\ finished_at r2 = None.
Proof.
  eexists. eexists. split; [vm_compute; reflexivity|]. split; [vm_compute; reflexivity|].
  split; [reflexivity|].
  apply (finished_at_iff_terminated (H := Utc.platform) trace_two_tasks 2).
  - vm_compute. reflexivity.
  - vm_compute. discriminate.
Defined.

(** ** Lateness *)

(** X13: finish charges the 5 points exactly when the task has a
    non-empty deadline that reads as a date and the finish comes at least
    three whole days after the start of that day; in particular a finish
    never costs more for being earlier. *)
Theorem late_penalty_threshold `{Platform} (r : TaskRow) (finishedAt : Z) :
  (finish_penalty r finishedAt = -5 <->
     exists dl start,
       deadline r = Some dl /\ dl <> "" /\ ymdToDate dl = Some start
       /\ start + 3 * ms_per_day <= finishedAt)
  /\ (finish_penalty r finishedAt <> -5 -> finish_penalty r finishedAt = 0)
  /\ (forall later, finishedAt <= later ->
        finish_penalty r later <= finish_penalty r finishedAt).
Proof.
  assert (forall start f, 3 <= (f - start) / ms_per_day
                          <-> start + 3 * ms_per_day <= f) as Hdiv.
  { intros start f. unfold ms_per_day. split; intros Hle.
    - Z.to_euclidean_division_equations. lia.
    - Z.to_euclidean_division_equations. lia. }
  unfold finish_penalty, isLateByDays.
  split; [|split].
  - split.
    + destruct (deadline r) as [dl|]; [|discriminate].
      destruct dl as [|c dl]; [discriminate|]. simpl.
      destruct (ymdToDate (String c dl)) as [start|] eqn:Ey; [|discriminate].
      destruct (Z.leb_spec 3 ((finishedAt - start) / ms_per_day)) as [Hle|];
        [|discriminate].
      intros _. exists (String c dl), start.
      split; [reflexivity|]. split; [discriminate|]. split; [exact Ey|].
      now apply Hdiv.
    + intros (dl & start & -> & Hne & -> & Hle).
      destruct dl; [contradiction|]. simpl.
      apply Hdiv in Hle. destruct (Z.leb_spec 3 ((finishedAt - start) / ms_per_day));
        [reflexivity | lia].
  - destruct (deadline r) as [dl|]; [|reflexivity].
    destruct (str_truthy dl); [|reflexivity].
    destruct (ymdToDate dl) as [start|]; [|reflexivity].
    destruct (3 <=? _); [contradiction | reflexivity].
  - intros later Hlater.
    destruct (deadline r) as [dl|]; [|lia].
    destruct (str_truthy dl); [|lia].
    destruct (ymdToDate dl) as [start|]; [|lia].
    destruct (Z.leb_spec 3 ((finishedAt - start) / ms_per_day)) as [Hle|Hlt];
      destruct (Z.leb_spec 3 ((later - start) / ms_per_day)) as [Hle'|Hlt'];
      try lia.
    apply Hdiv in Hle. assert (start + 3 * ms_per_day <= later) as Hl by lia.
    apply Hdiv in Hl. lia.
Qed.

Lemma late_penalty_threshold_witness :
  finish_penalty (H := Utc.platform)
    (created_row 0 (new_task "a" Undefined (Val "2024-03-10")) "a" 1) 1710288000000
    = -5
  /\ finish_penalty (H := Utc.platform)
       (created_row 0 (new_task "a" Undefined (Val "2024-03-10")) "a" 1) 1710287999999
     = 0.
Proof.
  split.
  - apply (late_penalty_threshold (H := Utc.platform)).
    exists "2024-03-10", 1710028800000.
    split; [reflexivity|]. split; [discriminate|]. split; [reflexivity|].
    vm_compute. discriminate.
  - apply (late_penalty_threshold (H := Utc.platform)).
    intros Hp. apply (late_penalty_threshold (H := Utc.platform)) in Hp.
    destruct Hp as (dl & start & Hd & _ & Hs & Hle).
    injection Hd as <-. vm_compute in Hs. injection Hs as <-.
    vm_compute in Hle. now apply Hle.
Defined.

(** ** Updates *)

(** X14: in every reachable state, an update of an existing task changes
    only the columns its request carries: id, creation time, finish time
    and the four points columns are never touched; title, bucket, status,
    laps and deadline keep their value when the request does not carry
    them; the scoring category keeps its value unless a bucket is carried.
    A request that carries nothing leaves the table as it was. *)
Theorem update_changes_only_carried `{Platform}
    (tr : list (Z * Call)) (now : Z) (p : UpdatePayload) (r : TaskRow) :
  rows (db (run tr init_world)) !! u_id p = Some r ->
  exists r',
    rows (db (step now (CUpdate p) (run tr init_world)))
      = <[u_id p := r']> (rows (db (run tr init_world)))
    /\ id r' = id r /\ created_at r' = created_at r
    /\ finished_at r' = finished_at r
    /\ points_base r' = points_base r /\ points_bonus r' = points_bonus r
    /\ points_penalty r' = points_penalty r /\ points_total r' = points_total r
    /\ (defined (u_title p) = false -> title r' = title r)
    /\ (defined (u_session_type p) = false ->
          session_type r' = session_type r
          /\ points_session_type r' = points_session_type r)
    /\ (defined (u_status p) = false -> status r' = status r)
    /\ (defined (u_laps_total p) = false -> laps_total r' = laps_total r)
    /\ (defined (u_laps_done p) = false -> laps_done r' = laps_done r)
    /\ (defined (u_deadline p) = false -> deadline r' = deadline r)
    /\ (p = touch (u_id p) ->
          rows (db (step now (CUpdate p) (run tr init_world)))
            = rows (db (run tr init_world))).
Proof.
  intros Hr. pose proof (db_ok_reachable tr) as Hok.
  destruct (scoring_category_set tr _ _ Hr) as [s Hs].
  exists (updated_row p r). rewrite (update_existing now p _ r Hok Hr).
  split; [reflexivity|]. unfold updated_row; simpl.
  repeat (split; [first [reflexivity | now intros ->]|]).
  split.
  - intros ->. rewrite andb_false_r, Hs. now split.
  - split; [now intros ->|]. split; [now intros ->|]. split; [now intros ->|].
    split; [now intros ->|]. intros Hp.
    destruct p as [i t b st lt ld dl]. unfold touch in Hp. simpl in *.
    injection Hp as -> -> -> -> -> ->. simpl. rewrite Hs.
    apply insert_id. rewrite Hr. f_equal.
    destruct r; simpl in *. rewrite andb_false_r. congruence.
Qed.

Lemma update_changes_only_carried_witness :
  rows (db (step (H := Utc.platform) 5 (CUpdate (touch 1))
              (run (H := Utc.platform) trace_busy init_world)))
  = rows (db (run (H := Utc.platform) trace_busy init_world)).
Proof.
  destruct (update_changes_only_carried (H := Utc.platform) trace_busy 5 (touch 1)
              {| id := 1; title := "a"; session_type := "pit"; status := "start";
                 laps_total := 10; laps_done := 5; created_at := 0;
                 deadline := Some "2024-03-10"; finished_at := None;
                 points_base := 0; points_bonus := 0; points_penalty := 0;
                 points_total := 0; points_session_type := Some "pit" |}
              ltac:(vm_compute; reflexivity))
    as (r' & _ & _ & _ & _ & _ & _ & _ & _ & _ & _ & _ & _ & _ & _ & Hsame).
  apply Hsame. reflexivity.
Defined.

(** ** [clampInt] and the lap counter *)

Lemma trunc_of_Z z : trunc (inject_Z z) = z.
Proof. unfold trunc, inject_Z. simpl. apply Z.quot_1_r. Qed.

Lemma clampInt_of_Z z lo hi : clampInt (of_Z z) lo hi = Z.max lo (Z.min hi z).
Proof. unfold clampInt, of_Z. now rewrite trunc_of_Z. Qed.

(** X15: [clampInt] leaves an integer that is within the bounds as it is,
    and clamping what it returned changes nothing. *)
Theorem clampInt_fixes_range (lo hi : Z) :
  (forall z, lo <= z <= hi -> clampInt (of_Z z) lo hi = z)
  /\ (forall n, lo <= hi ->
        clampInt (of_Z (clampInt n lo hi)) lo hi = clampInt n lo hi).
Proof.
  split.
  - intros z Hz. rewrite clampInt_of_Z. lia.
  - intros n Hle. rewrite clampInt_of_Z.
    pose proof (clampInt_bounds n lo hi Hle). lia.
Qed.

Lemma clampInt_fixes_range_witness :
  clampInt (of_Z 7) 1 999 = 7
  /\ clampInt (of_Z (clampInt (Fin (2001 # 2)) 1 999)) 1 999
     = clampInt (Fin (2001 # 2)) 1 999.
Proof.
  destruct (clampInt_fixes_range 1 999) as [Hid Hidem].
  split; [apply Hid; lia | apply Hidem; lia].
Defined.

Section Laps.
Context `{Platform}.

Lemma lap_click now i w r :
  db_ok (db w) -> rows (db w) !! i = Some r ->
  0 <= laps_done r <= laps_total r ->
  rows (db (step now (CUpdate (incLap r)) w)) !! i
  = Some (updated_row (incLap r) r)
  /\ laps_done (updated_row (incLap r) r) = Z.min (laps_done r + 1) (laps_total r)
  /\ laps_total (updated_row (incLap r) r) = laps_total r
  /\ status (updated_row (incLap r) r) = "progress".
Proof.
  intros Hok Hr Hl. destruct Hok as [Hseq Hdb].
  destruct (Hdb _ _ Hr) as [Hid Hi].
  assert (u_id (incLap r) = i) as Hu by exact Hid.
  split.
  - rewrite <- Hu in Hr |- *.
    rewrite (update_existing now (incLap r) w r (conj Hseq Hdb) Hr).
    apply lookup_insert_eq.
  - unfold updated_row, incLap; cbn -[clampInt of_Z]. rewrite !clampInt_of_Z.
    repeat split; lia.
Qed.

Lemma lap_clicks_count (n : nat) now i : forall w r,
  db_ok (db w) -> rows (db w) !! i = Some r ->
  0 <= laps_done r <= laps_total r ->
  exists r',
    rows (db (lap_clicks n now i w)) !! i = Some r'
    /\ laps_done r' = Z.min (laps_done r + Z.of_nat n) (laps_total r)
    /\ laps_total r' = laps_total r
    /\ (n <> O -> status r' = "progress").
Proof.
  induction n as [|n IH]; intros w r Hok Hr Hl; simpl.
  - exists r. repeat split; [exact Hr | lia | congruence].
  - rewrite Hr.
    destruct (lap_click now i w r Hok Hr Hl) as (Hr1 & Hd1 & Ht1 & Hs1).
    destruct (IH (step now (CUpdate (incLap r)) w) (updated_row (incLap r) r))
      as (r' & Hr' & Hd' & Ht' & Hs'); [now apply db_ok_step | exact Hr1 | lia |].
    exists r'. split; [exact Hr'|]. split; [lia|]. split; [congruence|].
    intros _. destruct n as [|n']; [|now apply Hs'].
    cbn [lap_clicks] in Hr'. rewrite Hr1 in Hr'. now injection Hr' as <-.
Qed.

End Laps.

(** X16: in a reachable state, [n] clicks on "+ Lap" of a task whose
    counter is within its total leave [laps_done = min(laps_done + n,
    laps_total)] and the total as it was: the counter goes up by one per
    click and stops at the total.  After the first click the status is
    "progress". *)
Theorem laps_count_up_to_total `{Platform}
    (tr : list (Z * Call)) (n : nat) (now i : Z) (r : TaskRow) :
  rows (db (run tr init_world)) !! i = Some r ->
  0 <= laps_done r <= laps_total r ->
  exists r',
    rows (db (lap_clicks n now i (run tr init_world))) !! i = Some r'
    /\ laps_done r' = Z.min (laps_done r + Z.of_nat n) (laps_total r)
    /\ laps_total r' = laps_total r
    /\ (n <> O -> status r' = "progress").
Proof.
  intros Hr Hl. apply lap_clicks_count; [apply db_ok_reachable | exact Hr | exact Hl].
Qed.

Lemma laps_count_up_to_total_witness :
  (laps_done <$> rows (db (lap_clicks (H := Utc.platform) 3 9 1
                             (run (H := Utc.platform) trace_race init_world))) !! 1
   = Some 8)
  /\ (laps_done <$> rows (db (lap_clicks (H := Utc.platform) 9 9 1
                                (run (H := Utc.platform) trace_race init_world))) !! 1
      = Some 10).
Proof.
  destruct (laps_count_up_to_total (H := Utc.platform) trace_race 3 9 1
              {| id := 1; title := "a"; session_type := "race"; status := "start";
                 laps_total := 10; laps_done := 5; created_at := 0;
                 deadline := None; finished_at := None;
                 points_base := 0; points_bonus := 0; points_penalty := 0;
                 points_total := 0; points_session_type := Some "race" |}
              ltac:(vm_compute; reflexivity) ltac:(simpl; lia))
    as (r3 & Hr3 & Hd3 & _).
  destruct (laps_count_up_to_total (H := Utc.platform) trace_race 9 9 1
              {| id := 1; title := "a"; session_type := "race"; status := "start";
                 laps_total := 10; laps_done := 5; created_at := 0;
                 deadline := None; finished_at := None;
                 points_base := 0; points_bonus := 0; points_penalty := 0;
                 points_total := 0; points_session_type := Some "race" |}
              ltac:(vm_compute; reflexivity) ltac:(simpl; lia))
    as (r9 & Hr9 & Hd9 & _).
  rewrite Hr3, Hr9. simpl. rewrite Hd3, Hd9. split; reflexivity.
Defined.

(* ===================================================================== *)
(** * Further properties of the renderer                                  *)
(* ===================================================================== *)

(** ** Titles *)

Lemma trimEnd_idem s : trimEnd (trimEnd s) = trimEnd s.
Proof.
  induction s as [|c r IH]; [reflexivity|]. simpl.
  destruct (trimEnd r) as [|c' r'] eqn:E.
  - destruct (is_ws c) eqn:Ec; simpl; [reflexivity | now rewrite Ec].
  - simpl. simpl in IH. now rewrite IH.
Qed.

Lemma trimEnd_starts s : starts_clean s -> trimEnd s = "" \/ starts_clean (trimEnd s)
                                           /\ trimEnd s <> "".
Proof.
  destruct s as [|c r]; [now left|]. simpl. intros Hc.
  destruct (trimEnd r); [rewrite Hc|]; right; split; try discriminate; exact Hc.
Qed.

Lemma trimStart_starts s : starts_clean (trimStart s).
Proof.
  induction s as [|c r IH]; [exact I|]. simpl.
  destruct (is_ws c) eqn:Ec; [exact IH | exact Ec].
Qed.

Lemma trimStart_clean s : starts_clean s -> trimStart s = s.
Proof. destruct s as [|c r]; [reflexivity|]. simpl. now intros ->. Qed.

Lemma trimEnd_ends s : ends_clean (trimEnd s).
Proof.
  induction s as [|c r IH]; [exact I|]. simpl.
  destruct (trimEnd r) as [|c' r'] eqn:E.
  - destruct (is_ws c) eqn:Ec; [exact I | exact Ec].
  - exact IH.
Qed.

Lemma trim_starts s : starts_clean (trim s).
Proof.
  unfold trim. destruct (trimEnd_starts _ (trimStart_starts s)) as [-> | [Hc _]];
    [exact I | exact Hc].
Qed.

Lemma trim_idem s : trim (trim s) = trim s.
Proof.
  unfold trim at 1. rewrite (trimStart_clean _ (trim_starts s)).
  unfold trim. apply trimEnd_idem.
Qed.

(** X17: the text [trim] returns neither starts nor ends with white
    space, and trimming it again changes nothing; so the title that
    [tasks:create] and [tasks:update] store is clean at both ends. *)
Theorem stored_titles_are_trimmed (now : Z) (c : Call) (w : World) (r : TaskRow) :
  written_row now c w = Some r ->
  match c with
  | CUpdate p => defined (u_title p) = true
  | _ => True
  end ->
  starts_clean (title r) /\ ends_clean (title r) /\ trim (title r) = title r.
Proof.
  destruct c as [p|p|i|i|i| |h]; simpl; try discriminate.
  - destruct (str_truthy (trim (nullish (c_title p) ""))); [|discriminate].
    intros [= <-] _. simpl.
    split; [apply trim_starts|]. split; [apply trimEnd_ends | apply trim_idem].
  - destruct (u_id p =? 0); [discriminate|].
    destruct (rows (db w) !! u_id p) as [cur|]; [|discriminate]. simpl.
    intros [= <-] Hd. unfold updated_row; simpl. rewrite Hd.
    split; [apply trim_starts|]. split; [apply trimEnd_ends | apply trim_idem].
Qed.

Lemma stored_titles_are_trimmed_witness :
  written_row 0
    (CCreate (new_task "  pit  stop " Undefined Undefined)) init_world
  = Some (created_row 0 (new_task "  pit  stop " Undefined Undefined) "pit  stop" 1)
  /\ trim "pit  stop" = "pit  stop".
Proof.
  split; [reflexivity|].
  apply (stored_titles_are_trimmed 0
           (CCreate (new_task "  pit  stop " Undefined Undefined)) init_world
           (created_row 0 (new_task "  pit  stop " Undefined Undefined) "pit  stop" 1)
           eq_refl I).
Defined.

(** ** The add form and the title editor *)

(** X18: a task added through the form is always accepted by
    [tasks:create]: the form sends nothing for a blank title, and what it
    sends creates an active task with the trimmed title, the chosen
    bucket as bucket and scoring category, a total between 1 and 999, no
    lap done, no deadline, no points and no timer. *)
Theorem addTask_creates `{Platform}
    (tr : list (Z * Call)) (now : Z) (t session : string) (lapsTotal : num) :
  match addTask t session lapsTotal with
  | None => trim t = ""
  | Some p =>
      exists r,
        fst (tasks_create now p (run tr init_world))
          = Ok (seq (db (run tr init_world)) + 1)
        /\ rows (db (snd (tasks_create now p (run tr init_world))))
             !! (seq (db (run tr init_world)) + 1) = Some r
        /\ title r = trim t /\ title r <> ""
        /\ session_type r = session /\ points_session_type r = Some session
        /\ status r = "start"
        /\ 1 <= laps_total r <= 999 /\ laps_done r = 0
        /\ deadline r = None /\ finished_at r = None /\ points_zero r
        /\ notifTimers (notif (snd (tasks_create now p (run tr init_world))))
             !! (seq (db (run tr init_world)) + 1) = None
  end.
Proof.
  unfold addTask. destruct (str_truthy (trim t)) eqn:Et; simpl.
  - unfold tasks_create. cbn -[clampInt of_Z trim]. rewrite trim_idem, Et.
    cbn -[clampInt of_Z trim]. eexists. split; [reflexivity|].
    split; [apply lookup_insert_eq|]. cbn -[clampInt of_Z trim].
    rewrite !clampInt_of_Z.
    pose proof (clampInt_bounds (if num_truthy lapsTotal then lapsTotal else of_Z 1)
                  1 999 ltac:(lia)) as Hb.
    repeat split; try lia.
    + intros E. now rewrite E in Et.
    + apply clearNotif_registry.
  - destruct (trim t); [reflexivity | discriminate].
Qed.

(** X19: through the title editor a task never gets an empty title: the
    editor sends nothing for a blank draft, and what it sends makes
    [tasks:update] store the trimmed draft, which is not empty, and leave
    bucket, status, laps, deadline and points as they were. *)
Theorem title_editor_stores_trimmed `{Platform}
    (tr : list (Z * Call)) (now i : Z) (draft : js string) (r : TaskRow) :
  rows (db (run tr init_world)) !! i = Some r ->
  match saveTitleToDb i draft with
  | None => trim (nullish draft "") = ""
  | Some p =>
      exists r',
        rows (db (step now (CUpdate p) (run tr init_world))) !! i = Some r'
        /\ title r' = trim (nullish draft "") /\ title r' <> ""
        /\ session_type r' = session_type r /\ status r' = status r
        /\ laps_total r' = laps_total r /\ laps_done r' = laps_done r
        /\ deadline r' = deadline r /\ points_total r' = points_total r
  end.
Proof.
  intros Hr. pose proof (db_ok_reachable tr) as Hok.
  destruct (saveTitleToDb i draft) as [p|] eqn:Es; unfold saveTitleToDb in Es;
    destruct (str_truthy (trim (nullish draft ""))) eqn:Et; simpl in Es;
    try discriminate.
  - injection Es as <-.
    pose proof (update_existing now (set_title i (trim (nullish draft ""))) _ r Hok Hr)
      as Hu.
    unfold set_title in Hu. simpl u_id in Hu. rewrite Hu. clear Hu.
    eexists. split; [apply lookup_insert_eq|]. unfold updated_row. cbn -[trim].
    rewrite trim_idem. repeat split.
    intros E. now rewrite E in Et.
  - destruct (trim _); [reflexivity | discriminate].
Qed.

Lemma title_editor_stores_trimmed_witness :
  saveTitleToDb 1 (Val "   ") = None
  /\ title <$> rows (db (step (H := Utc.platform) 3
                          (CUpdate (set_title 1 "b"))
                          (run (H := Utc.platform) trace_race init_world))) !! 1
     = Some "b".
Proof.
  split; [reflexivity|].
  pose proof (title_editor_stores_trimmed (H := Utc.platform) trace_race 3 1 (Val " b ")
                {| id := 1; title := "a"; session_type := "race"; status := "start";
                   laps_total := 10; laps_done := 5; created_at := 0;
                   deadline := None; finished_at := None;
                   points_base := 0; points_bonus := 0; points_penalty := 0;
                   points_total := 0; points_session_type := Some "race" |}
                ltac:(vm_compute; reflexivity)) as Hed.
  change (saveTitleToDb 1 (Val " b ")) with (Some (set_title 1 "b")) in Hed.
  destruct Hed as (r' & Hl & Ht & _). rewrite Hl. simpl. rewrite Ht. reflexivity.
Defined.

(** ** The board *)

Section BoardFacts.
Import Board.

Lemma empty_columns_lookup k :
  empty_columns !! k = if decide (k ∈ buckets) then Some [] else None.
Proof.
  case_decide as Hk.
  - unfold buckets in Hk.
    repeat (apply elem_of_cons in Hk as [-> | Hk]; [vm_compute; reflexivity|]).
    now apply elem_of_nil in Hk.
  - apply not_elem_of_list_to_map_1. exact Hk.
Qed.

Lemma column_of_bucket t k : column_of t = Some k -> k ∈ buckets.
Proof.
  unfold column_of. destruct (is_done (status t)).
  - intros [= <-]. unfold buckets.
    repeat first [apply list_elem_of_here | apply list_elem_of_further].
  - case_bool_decide as Hb; [now intros [= <-]|].
    case_bool_decide; [discriminate|]. intros [= <-]. apply list_elem_of_here.
Qed.

Lemma grouped_from (tasks : list TaskRow) :
  forall m : gmap string (list TaskRow),
  (forall t, t ∈ tasks -> column_of t <> None) ->
  exists m' : gmap string (list TaskRow),
    foldl grouped_step (Some m) tasks = Some m'
    /\ forall k, m' !! k
         = (fun l => (l ++ filter (fun t => column_of t = Some k) tasks)%list)
             <$> m !! k.
Proof.
  induction tasks as [|t tasks IH]; intros m Hall; simpl.
  - exists m. split; [reflexivity|]. intros k.
    destruct (m !! k); simpl; [now rewrite app_nil_r | reflexivity].
  - destruct (column_of t) as [k0|] eqn:Ek;
      [|now destruct (Hall t (list_elem_of_here _ _))].
    destruct (IH (alter (fun l => (l ++ [t])%list) k0 m)) as [m' [Hf Hm']].
    { intros t' Hin. apply Hall. now apply list_elem_of_further. }
    exists m'. split.
    { replace (grouped_step (Some m) t)
        with (Some (alter (fun l => (l ++ [t])%list) k0 m))
        by (unfold grouped_step; now rewrite Ek).
      exact Hf. } intros k. rewrite Hm', lookup_alter.
    destruct (decide (k0 = k)) as [->|Hne].
    + rewrite filter_cons_True by exact Ek.
      destruct (m !! k); simpl; [now rewrite <- app_assoc | reflexivity].
    + rewrite filter_cons_False by congruence. reflexivity.
Qed.

End BoardFacts.

(** X20: when no active task has a bucket named like a property inherited
    from [Object.prototype], [grouped] returns its six columns and each
    column holds, in the order of the task list, exactly the tasks it is
    meant for: "parc" the finished and abandoned tasks and the active ones
    of bucket "parc", every other column the active tasks of its bucket,
    and "practice" also the active tasks of an unknown bucket.  Every task
    is in one column. *)
Theorem grouped_columns (tasks : list TaskRow) :
  (forall t, t ∈ tasks -> Board.column_of t <> None) ->
  exists cols,
    Board.grouped tasks = Some cols
    /\ (forall k, cols !! k
          = if decide (k ∈ Board.buckets)
            then Some (filter (fun t => Board.column_of t = Some k) tasks)
            else None)
    /\ (forall t, t ∈ tasks ->
          exists k l, Board.column_of t = Some k /\ cols !! k = Some l /\ t ∈ l).
Proof.
  intros Hall.
  destruct (grouped_from tasks Board.empty_columns Hall) as [cols [Hg Hc]].
  exists cols. split; [exact Hg|].
  assert (forall k, cols !! k
            = if decide (k ∈ Board.buckets)
              then Some (filter (fun t => Board.column_of t = Some k) tasks)
              else None) as Hcols.
  { intros k. rewrite Hc, empty_columns_lookup. now case_decide. }
  split; [exact Hcols|].
  intros t Hin. destruct (Board.column_of t) as [k|] eqn:Ek;
    [|now destruct (Hall t Hin)].
  exists k, (filter (fun t => Board.column_of t = Some k) tasks).
  split; [reflexivity|]. split.
  - rewrite Hcols, decide_True; [reflexivity|]. eapply column_of_bucket, Ek.
  - apply list_elem_of_filter. now split.
Qed.

Lemma grouped_columns_witness :
  exists cols,
    Board.grouped board_three = Some cols
    /\ (forall k, cols !! k
          = if decide (k ∈ Board.buckets)
            then Some (filter (fun t => Board.column_of t = Some k) board_three)
            else None)
    /\ (forall t, t ∈ board_three ->
          exists k l, Board.column_of t = Some k /\ cols !! k = Some l /\ t ∈ l).
Proof.
  apply (grouped_columns board_three).
  intros t Hin. vm_compute in Hin.
  repeat (apply elem_of_cons in Hin as [-> | Hin]; [vm_compute; discriminate|]).
  now apply elem_of_nil in Hin.
Defined.

(* ===================================================================== *)
(** ** The points chips                                                   *)
(* ===================================================================== *)

Section ChipFacts.
Import Board.








End ChipFacts.




Section ChipsOfTraces.
Context `{Platform}.
Import Board.





End ChipsOfTraces.



(* ===================================================================== *)
(** ** The calendar page                                                  *)
(* ===================================================================== *)

Lemma f1ByDate_from (races : list F1Race) (d : string) :
  forall m : gmap string (list F1Race),
  default [] (foldl (fun m r => <[date r := (default [] (m !! date r) ++ [r])%list]> m)
                    m races !! d)
  = (default [] (m !! d) ++ filter (fun r => date r = d) races)%list.
Proof.
  induction races as [|r races IH]; intros m; simpl.
  - now rewrite app_nil_r.
  - rewrite IH, lookup_insert. destruct (decide (date r = d)) as [E|E].
    + rewrite filter_cons_True by exact E. simpl. rewrite E.
      now rewrite <- app_assoc.
    + rewrite filter_cons_False by exact E. reflexivity.
Qed.

(** X23: the races listed for the selected day are the races of the
    schedule held on that date, in the order of the schedule, and a cell of
    the month grid carries the race dot exactly when the schedule has a
    race on its date. *)
Theorem dayF1_lists_the_day (races : list F1Race) (d : string) :
  dayF1 races d = filter (fun r => date r = d) races
  /\ (hasF1 races d = true <-> exists r, r ∈ races /\ date r = d).
Proof.
  assert (dayF1 races d = filter (fun r => date r = d) races) as Hday.
  { unfold dayF1, f1ByDate. rewrite f1ByDate_from. now rewrite lookup_empty. }
  split; [exact Hday|].
  assert (hasF1 races d = (0 <? length (dayF1 races d))%nat) as ->.
  { unfold hasF1, dayF1. now destruct (f1ByDate races !! d). }
  rewrite Hday, Nat.ltb_lt. split.
  - destruct (filter (fun r => date r = d) races) as [|r l] eqn:E; simpl; [lia|].
    intros _. exists r.
    assert (r ∈ filter (fun r => date r = d) races) as Hin
      by (rewrite E; apply list_elem_of_here).
    apply list_elem_of_filter in Hin as [Hd Hin]. now split.
  - intros [r [Hin Hd]].
    assert (r ∈ filter (fun r => date r = d) races) as Hf
      by (apply list_elem_of_filter; now split).
    destruct (filter (fun r => date r = d) races); simpl; [|lia].
    now apply elem_of_nil in Hf.
Qed.

(* ===================================================================== *)
(** ** The countdown                                                      *)
(* ===================================================================== *)

(** X24: the countdown of a target that parses as a date shows a number
    of days that is not negative, hours below 24, minutes and seconds below
    60, which together make the whole seconds left until the target; once
    the target is reached all four are 0.  A target that does not parse
    gives no numbers. *)
Theorem countdown_recomposes `{Platform} (targetISO : string) (now : Z) :
  match formatCountdown targetISO now with
  | Some (days, hours, mins, s) =>
      exists target,
        Date_parse targetISO = Some target
        /\ 0 <= days /\ 0 <= hours < 24 /\ 0 <= mins < 60 /\ 0 <= s < 60
        /\ ((days * 24 + hours) * 60 + mins) * 60 + s
           = Z.max 0 (target - now) / 1000
        /\ (target <= now -> days = 0 /\ hours = 0 /\ mins = 0 /\ s = 0)
  | None => Date_parse targetISO = None
  end.
Proof.
  unfold formatCountdown. destruct (Date_parse targetISO) as [target|];
    [|reflexivity].
  unfold countdown_parts. exists target. split; [reflexivity|].
  set (sec := Z.max 0 (target - now) / 1000).
  assert (0 <= sec) as Hsec by (apply Z.div_pos; lia).
  rewrite !Z.rem_mod_nonneg by lia.
  assert (target <= now -> sec = 0) as Hpast.
  { intros Hle. unfold sec. rewrite Z.max_l by lia. reflexivity. }
  pose proof (Z.div_mod sec 86400 ltac:(lia)) as Hd.
  pose proof (Z.mod_pos_bound sec 86400 ltac:(lia)) as Hdb.
  pose proof (Z.div_mod (sec mod 86400) 3600 ltac:(lia)) as Hh.
  pose proof (Z.mod_pos_bound (sec mod 86400) 3600 ltac:(lia)) as Hhb.
  pose proof (Z.div_mod sec 3600 ltac:(lia)) as Hm.
  pose proof (Z.mod_pos_bound sec 3600 ltac:(lia)) as Hmb.
  pose proof (Z.div_mod (sec mod 3600) 60 ltac:(lia)) as Hs.
  pose proof (Z.mod_pos_bound (sec mod 3600) 60 ltac:(lia)) as Hsb.
  assert ((sec mod 86400) mod 3600 = sec mod 3600) as E1.
  { apply Z.mod_mod_divide. exists 24. lia. }
  assert ((sec mod 3600) mod 60 = sec mod 60) as E2.
  { apply Z.mod_mod_divide. exists 60. lia. }
  rewrite E1 in Hh. rewrite E2 in Hs.
  pose proof (Z.mod_pos_bound sec 60 ltac:(lia)) as Hsb'.
  assert (0 <= sec / 86400) by (apply Z.div_pos; lia).
  assert (0 <= sec mod 86400 / 3600 < 24).
  { split; [apply Z.div_pos; lia|]. apply Z.div_lt_upper_bound; lia. }
  assert (0 <= sec mod 3600 / 60 < 60).
  { split; [apply Z.div_pos; lia|]. apply Z.div_lt_upper_bound; lia. }
  repeat split; lia.
Qed.

(* ===================================================================== *)
(** ** Appearance settings                                                *)
(* ===================================================================== *)

Lemma clampNum_range (n : num) (lo hi : Q) :
  (lo <= hi)%Q ->
  (lo <= clampNum n lo hi <= hi)%Q
  /\ (forall q, n = Fin q -> (lo <= q <= hi)%Q -> (clampNum n lo hi == q)%Q).
Proof.
  intros Hle. split.
  - destruct n; simpl; try (split; [apply Qle_refl | exact Hle]).
    split; [apply Q.le_max_l|].
    apply Q.max_lub; [exact Hle | apply Q.le_min_l].
  - intros q -> [Hlo Hhi]. simpl.
    rewrite (Q.min_r hi q) by exact Hhi. now rewrite Q.max_r by exact Hlo.
Qed.

(** X25: whatever number is read from the store or typed in the settings
    page, the background dimming kept is between 0 and 0.85 and the font
    scale between 0.85 and 1.25; a number inside the range is kept as it
    is, and one that is not finite gives the lower end. *)
Theorem appearance_in_range (v : num) :
  (0 <= bgDim_of v <= dim_max)%Q
  /\ (dim_max <= fontScale_of v <= 5 # 4)%Q
  /\ (forall q, v = Fin q ->
        ((0 <= q <= dim_max)%Q -> (bgDim_of v == q)%Q)
        /\ ((dim_max <= q <= 5 # 4)%Q -> (fontScale_of v == q)%Q))
  /\ ((forall q, v <> Fin q) -> bgDim_of v = 0%Q /\ fontScale_of v = dim_max).
Proof.
  assert (0 <= dim_max)%Q as H0 by (vm_compute; discriminate).
  assert (dim_max <= 5 # 4)%Q as H1 by (vm_compute; discriminate).
  destruct (clampNum_range v 0 dim_max H0) as [Hb Hbq].
  destruct (clampNum_range v dim_max (5 # 4) H1) as [Hf Hfq].
  split; [exact Hb|]. split; [exact Hf|]. split.
  - intros q Hv. split; intros Hq; [now apply Hbq | now apply Hfq].
  - intros Hn. destruct v as [| | |q]; try (split; reflexivity).
    now destruct (Hn q).
Qed.

(* ===================================================================== *)
(** ** The schema migration                                               *)
(* ===================================================================== *)

Section MigrationFacts.
Import Migration.

(** The columns a run adds: those of [l] that [names] does not hold. *)
Lemma add_none names l : foldl (add names) None l = None.
Proof. induction l as [|c l IH]; simpl; [reflexivity | exact IH]. Qed.

Lemma adds_spec names (l : list (string * SqlVal)) : forall t t1,
  foldl (add names) (Some t) l = Some t1 ->
  t1 = foldl (fun t c => add_column c.1 c.2 t) t
             (filter (fun c => c.1 ∉ names) l).
Proof.
  induction l as [|c l IH]; intros t t1; simpl.
  - now intros [= <-].
  - destruct (decide (c.1 ∈ names)) as [Hin|Hin].
    + rewrite bool_decide_eq_true_2 by exact Hin.
      rewrite filter_cons_False by (intros Hn; now apply Hn). apply IH.
    + rewrite bool_decide_eq_false_2 by exact Hin.
      destruct (existsb (fun c0 => String.eqb (lower c0) c.1) (columns t)).
      * now rewrite add_none.
      * rewrite filter_cons_True by exact Hin. apply IH.
Qed.

Lemma adds_skip names (l : list (string * SqlVal)) t :
  (forall c, c ∈ l -> c.1 ∈ names) ->
  foldl (add names) (Some t) l = Some t.
Proof.
  induction l as [|c l IH]; intros Hall; simpl; [reflexivity|].
  rewrite bool_decide_eq_true_2 by apply Hall, list_elem_of_here.
  apply IH. intros c' Hin. apply Hall. now apply list_elem_of_further.
Qed.

Lemma add_columns_columns (l : list (string * SqlVal)) : forall t,
  columns (foldl (fun t c => add_column c.1 c.2 t) t l)
  = (columns t ++ (fst <$> l))%list.
Proof.
  induction l as [|c l IH]; intros t; simpl.
  - now rewrite app_nil_r.
  - rewrite IH. simpl. now rewrite <- app_assoc.
Qed.

Lemma add_columns_records (l : list (string * SqlVal)) : forall t,
  records (foldl (fun t c => add_column c.1 c.2 t) t l)
  = (fun r => foldl (fun r c => <[c.1 := c.2]> r) r l) <$> records t.
Proof.
  induction l as [|c l IH]; intros t; simpl.
  - now rewrite list_fmap_id.
  - rewrite IH. simpl. now rewrite <- list_fmap_compose.
Qed.

Lemma inserts_other (l : list (string * SqlVal)) k : forall r : gmap string SqlVal,
  k ∉ (fst <$> l) ->
  foldl (fun r c => <[c.1 := c.2]> r) r l !! k = r !! k.
Proof.
  induction l as [|c l IH]; intros r Hk; simpl; [reflexivity|].
  rewrite fmap_cons, not_elem_of_cons in Hk. destruct Hk as [Hne Hk].
  rewrite IH by exact Hk. apply lookup_insert_ne. congruence.
Qed.

Lemma resolve_spec cols name x :
  resolve cols name = Some x -> x ∈ cols /\ lower x = name.
Proof.
  unfold resolve. intros Hf. apply find_some in Hf as [Hin He].
  split; [now apply list_elem_of_In | now apply String.eqb_eq].
Qed.

Lemma backfill_idem x s r :
  x <> s -> backfill x s (backfill x s r) = backfill x s r.
Proof.
  intros Hne. destruct (is_blank (cell r x)) eqn:Eb.
  - assert (backfill x s r = <[x := cell r s]> r) as ->
      by (unfold backfill; now rewrite Eb).
    unfold backfill, cell. rewrite lookup_insert_eq. simpl.
    rewrite lookup_insert_ne by exact Hne.
    destruct (is_blank (default SNull (r !! s))); [|reflexivity].
    apply insert_insert_eq.
  - assert (backfill x s r = r) as -> by (unfold backfill; now rewrite Eb).
    unfold backfill. now rewrite Eb.
Qed.

(** What a successful run leaves. *)
Lemma ensureColumns_spec t t' :
  ensureColumns t = Some t' ->
  exists x s,
    let new := filter (fun c => c.1 ∉ columns t) added in
    resolve (columns t') "points_session_type" = Some x
    /\ resolve (columns t') "session_type" = Some s
    /\ columns t' = (columns t ++ (fst <$> new))%list
    /\ records t'
       = (fun r => backfill x s (foldl (fun r c => <[c.1 := c.2]> r) r new))
           <$> records t.
Proof.
  unfold ensureColumns.
  destruct (foldl (add (columns t)) (Some t) added) as [t1|] eqn:E1; [|discriminate].
  apply adds_spec in E1.
  destruct (resolve (columns t1) "points_session_type") as [x|] eqn:Ex;
    [|discriminate].
  destruct (resolve (columns t1) "session_type") as [s|] eqn:Es; [|discriminate].
  intros [= <-]. exists x, s. simpl.
  split; [exact Ex|]. split; [exact Es|].
  rewrite E1, add_columns_columns, add_columns_records. split; [reflexivity|].
  now rewrite <- list_fmap_compose.
Qed.

Lemma added_present t t' c :
  ensureColumns t = Some t' -> c ∈ added -> c.1 ∈ columns t'.
Proof.
  intros Ht Hc. destruct (ensureColumns_spec _ _ Ht) as (x & s & _ & _ & Hcols & _).
  rewrite Hcols. destruct (decide (c.1 ∈ columns t)) as [Hin|Hin].
  - apply elem_of_app. now left.
  - apply elem_of_app. right. apply list_elem_of_fmap. exists c.
    split; [reflexivity|]. apply list_elem_of_filter. now split.
Qed.

End MigrationFacts.

(** X26: a run of [ensureColumns] that succeeds leaves a table on which
    the next run, at the next start of the program, succeeds and changes
    nothing. *)
Theorem ensureColumns_idempotent (t t' : Migration.Table) :
  Migration.ensureColumns t = Some t' ->
  Migration.ensureColumns t' = Some t'.
Proof.
  intros Ht.
  destruct (ensureColumns_spec _ _ Ht) as (x & s & Hx & Hs & _ & _).
  assert (x <> s) as Hne.
  { apply resolve_spec in Hx as [_ Hx]. apply resolve_spec in Hs as [_ Hs].
    intros ->. rewrite Hx in Hs. discriminate. }
  assert (exists t1, t' = {| Migration.columns := Migration.columns t1;
                             Migration.records :=
                               Migration.backfill x s <$> Migration.records t1 |}
                     /\ Migration.columns t1 = Migration.columns t')
    as (t1 & Et' & Ecols).
  { revert Hx Hs. clear Hne. unfold Migration.ensureColumns in Ht.
    destruct (foldl _ _ _) as [t1|]; [|discriminate].
    destruct (Migration.resolve (Migration.columns t1) "points_session_type")
      as [x'|] eqn:Ex; [|discriminate].
    destruct (Migration.resolve (Migration.columns t1) "session_type")
      as [s'|] eqn:Es; [|discriminate].
    injection Ht as <-. simpl. rewrite Ex, Es. intros [= <-] [= <-].
    exists t1. now split. }
  unfold Migration.ensureColumns.
  rewrite adds_skip by (intros c Hc; now apply (added_present t)).
  rewrite Hx, Hs. f_equal. clear Ht Hx Hs Ecols. subst t'. simpl. f_equal.
  rewrite <- list_fmap_compose. apply list_fmap_ext. intros i r _. simpl.
  now apply backfill_idem.
Qed.

Lemma ensureColumns_idempotent_witness :
  Migration.ensureColumns
    (default Migration.created_tasks (Migration.ensureColumns Migration.first_version))
  = Some (default Migration.created_tasks
            (Migration.ensureColumns Migration.first_version)).
Proof.
  apply (ensureColumns_idempotent Migration.first_version).
  vm_compute. reflexivity.
Defined.

Section MigrationData.
Import Migration.

Lemma inserts_self (l : list (string * SqlVal)) : forall (r : gmap string SqlVal) c,
  NoDup (fst <$> l) -> c ∈ l ->
  foldl (fun r c => <[c.1 := c.2]> r) r l !! c.1 = Some c.2.
Proof.
  induction l as [|c0 l IH]; intros r c Hnd Hin; [now apply elem_of_nil in Hin|].
  rewrite fmap_cons in Hnd. apply NoDup_cons in Hnd as [Hc0 Hnd]. simpl.
  apply elem_of_cons in Hin as [-> | Hin].
  - rewrite inserts_other by exact Hc0. apply lookup_insert_eq.
  - now apply IH.
Qed.

Lemma added_nodup : NoDup (fst <$> added).
Proof. apply (bool_decide_unpack _). vm_compute. exact I. Qed.

Lemma added_not_session c : c ∈ added -> lower c.1 <> "session_type".
Proof.
  unfold added. intros Hin.
  repeat (apply elem_of_cons in Hin as [-> | Hin]; [vm_compute; discriminate|]).
  now apply elem_of_nil in Hin.
Qed.

Lemma new_nodup (names : list string) :
  NoDup (fst <$> filter (fun c : string * SqlVal => c.1 ∉ names) added).
Proof.
  assert (forall l : list (string * SqlVal),
            NoDup (fst <$> l) -> NoDup (fst <$> filter (fun c => c.1 ∉ names) l)) as Hg.
  { induction l as [|c l IH]; intros Hnd; [constructor|].
    rewrite fmap_cons in Hnd. apply NoDup_cons in Hnd as [Hc Hnd].
    destruct (decide (c.1 ∉ names)) as [Hn|Hn].
    - rewrite filter_cons_True by exact Hn. rewrite fmap_cons.
      apply NoDup_cons. split; [|now apply IH].
      intros Hin. apply Hc. apply list_elem_of_fmap in Hin as [c' [E Hin]].
      apply list_elem_of_filter in Hin as [_ Hin].
      apply list_elem_of_fmap. now exists c'.
    - rewrite filter_cons_False by exact Hn. now apply IH. }
  apply Hg, added_nodup.
Qed.

End MigrationData.

(** X27: a run of [ensureColumns] that succeeds keeps the columns of the
    table in place and the rows in number and order, leaves every value of
    an old column as it was (the scoring category apart, and that one too
    when it was set), gives the columns it adds their default in the old
    rows, and leaves no row with a missing or empty scoring category
    unless its [session_type] is missing or empty too. *)
Theorem ensureColumns_keeps_data (t t' : Migration.Table) :
  Migration.ensureColumns t = Some t' ->
  Migration.columns t `prefix_of` Migration.columns t'
  /\ (forall c, c ∈ Migration.added -> c.1 ∈ Migration.columns t')
  /\ length (Migration.records t') = length (Migration.records t)
  /\ forall i r' x s,
       Migration.records t' !! i = Some r' ->
       Migration.resolve (Migration.columns t') "points_session_type" = Some x ->
       Migration.resolve (Migration.columns t') "session_type" = Some s ->
       exists r,
         Migration.records t !! i = Some r
         /\ (forall c, c ∈ Migration.columns t -> c <> x -> r' !! c = r !! c)
         /\ (x ∈ Migration.columns t ->
             Migration.is_blank (Migration.cell r x) = false -> r' !! x = r !! x)
         /\ (forall c, c ∈ Migration.added -> c.1 ∉ Migration.columns t ->
             c.1 <> x -> r' !! c.1 = Some c.2)
         /\ (Migration.is_blank (Migration.cell r' x) = true ->
             Migration.is_blank (Migration.cell r s) = true).
Proof.
  intros Ht.
  destruct (ensureColumns_spec _ _ Ht) as (x0 & s0 & Hx0 & Hs0 & Hcols & Hrec).
  split; [rewrite Hcols; now eexists|].
  split; [intros c Hc; now apply (added_present t)|].
  split; [rewrite Hrec; apply length_fmap|].
  intros i r' x s Hr' Hx Hs.
  rewrite Hx0 in Hx. injection Hx as <-. rewrite Hs0 in Hs. injection Hs as <-.
  rewrite Hrec, list_lookup_fmap in Hr'.
  destruct (Migration.records t !! i) as [r|]; [|discriminate].
  simpl in Hr'. injection Hr' as <-. exists r. split; [reflexivity|].
  set (new := filter (fun c : string * Migration.SqlVal => c.1 ∉ Migration.columns t)
                     Migration.added) in *.
  set (r1 := foldl (fun r c => <[c.1 := c.2]> r) r new).
  assert (forall c, c ∈ Migration.columns t -> r1 !! c = r !! c) as Hold.
  { intros c Hc. apply inserts_other. intros Hin.
    apply list_elem_of_fmap in Hin as [c' [-> Hin]].
    apply list_elem_of_filter in Hin as [Hn _]. now apply Hn. }
  assert (x0 <> s0) as Hne.
  { apply resolve_spec in Hx0 as [_ Hx0]. apply resolve_spec in Hs0 as [_ Hs0].
    intros ->. rewrite Hx0 in Hs0. discriminate. }
  assert (s0 ∈ Migration.columns t) as Hs.
  { apply resolve_spec in Hs0 as [Hin Hl]. rewrite Hcols in Hin.
    apply elem_of_app in Hin as [Hin|Hin]; [exact Hin|].
    apply list_elem_of_fmap in Hin as [c' [-> Hin]].
    apply list_elem_of_filter in Hin as [_ Hin].
    now destruct (added_not_session _ Hin). }
  assert (forall c, c <> x0 -> Migration.backfill x0 s0 r1 !! c = r1 !! c) as Hother.
  { intros c Hc. unfold Migration.backfill.
    destruct (Migration.is_blank (Migration.cell r1 x0)); [|reflexivity].
    apply lookup_insert_ne. congruence. }
  split; [|split; [|split]].
  - intros c Hc Hcx. now rewrite Hother, Hold.
  - intros Hin Hb. unfold Migration.backfill, Migration.cell.
    rewrite (Hold _ Hin). unfold Migration.cell in Hb. rewrite Hb.
    now apply Hold.
  - intros c Hc Hn Hcx. rewrite Hother by exact Hcx.
    apply inserts_self; [apply new_nodup|]. apply list_elem_of_filter. now split.
  - unfold Migration.backfill.
    destruct (Migration.is_blank (Migration.cell r1 x0)) eqn:Eb.
    + unfold Migration.cell at 1. rewrite lookup_insert_eq. simpl.
      unfold Migration.cell. now rewrite (Hold _ Hs).
    + rewrite Eb. discriminate.
Qed.

Lemma ensureColumns_keeps_data_witness :
  let t := Migration.first_version in
  let t' := default Migration.created_tasks (Migration.ensureColumns t) in
  Migration.columns t `prefix_of` Migration.columns t'
  /\ (forall c, c ∈ Migration.added -> c.1 ∈ Migration.columns t')
  /\ length (Migration.records t') = length (Migration.records t)
  /\ forall i r' x s,
       Migration.records t' !! i = Some r' ->
       Migration.resolve (Migration.columns t') "points_session_type" = Some x ->
       Migration.resolve (Migration.columns t') "session_type" = Some s ->
       exists r,
         Migration.records t !! i = Some r
         /\ (forall c, c ∈ Migration.columns t -> c <> x -> r' !! c = r !! c)
         /\ (x ∈ Migration.columns t ->
             Migration.is_blank (Migration.cell r x) = false -> r' !! x = r !! x)
         /\ (forall c, c ∈ Migration.added -> c.1 ∉ Migration.columns t ->
             c.1 <> x -> r' !! c.1 = Some c.2)
         /\ (Migration.is_blank (Migration.cell r' x) = true ->
             Migration.is_blank (Migration.cell r s) = true).
Proof.
  apply (ensureColumns_keeps_data Migration.first_version).
  vm_compute. reflexivity.
Defined.

Section MigrationRuns.
Import Migration.

Lemma resolve_some cols name x :
  x ∈ cols -> lower x = name -> is_Some (resolve cols name).
Proof.
  intros Hin Hl. unfold resolve.
  destruct (find (fun c => String.eqb (lower c) name) cols) as [y|] eqn:E; [eauto|].
  apply list_elem_of_In in Hin. pose proof (find_none _ _ E x Hin) as Hf.
  apply String.eqb_neq in Hf. now destruct Hf.
Qed.

Lemma adds_succeed names (l : list (string * SqlVal)) : forall t,
  (forall c, c ∈ columns t -> lower c = c) ->
  NoDup (fst <$> l) ->
  (forall c, c ∈ l -> lower c.1 = c.1) ->
  (forall c, c ∈ l -> c.1 ∉ names -> c.1 ∉ columns t) ->
  is_Some (foldl (add names) (Some t) l).
Proof.
  induction l as [|c l IH]; intros t Hlow Hnd Hl Hnew; simpl; [eauto|].
  rewrite fmap_cons in Hnd. apply NoDup_cons in Hnd as [Hc Hnd].
  assert (forall c', c' ∈ l -> lower c'.1 = c'.1) as Hl'
    by (intros c' Hin; apply Hl; now apply list_elem_of_further).
  destruct (decide (c.1 ∈ names)) as [Hin|Hin].
  - rewrite bool_decide_eq_true_2 by exact Hin.
    apply IH; try assumption.
    intros c' Hc'. apply Hnew. now apply list_elem_of_further.
  - rewrite bool_decide_eq_false_2 by exact Hin.
    assert (existsb (fun c0 => String.eqb (lower c0) c.1) (columns t) = false) as ->.
    { destruct (existsb _ _) eqn:E; [|reflexivity].
      apply existsb_exists in E as [c0 [Hc0 E]]. apply list_elem_of_In in Hc0.
      apply String.eqb_eq in E. rewrite (Hlow _ Hc0) in E. subst c0.
      now destruct (Hnew c (list_elem_of_here _ _) Hin). }
    apply IH; try assumption; simpl.
    + intros c0 Hc0. apply elem_of_app in Hc0 as [Hc0|Hc0]; [now apply Hlow|].
      apply list_elem_of_singleton in Hc0 as ->.
      apply Hl, list_elem_of_here.
    + intros c' Hc' Hn Hin'. apply elem_of_app in Hin' as [Hin'|Hin'].
      * now apply (Hnew c' (list_elem_of_further _ _ _ Hc') Hn).
      * apply list_elem_of_singleton in Hin'. apply Hc.
        apply list_elem_of_fmap. exists c'. now split.
Qed.

Lemma added_lower c : c ∈ added -> lower c.1 = c.1.
Proof.
  unfold added. intros Hin.
  repeat (apply elem_of_cons in Hin as [-> | Hin]; [vm_compute; reflexivity|]).
  now apply elem_of_nil in Hin.
Qed.

End MigrationRuns.

(** X28: [initDb] succeeds on a fresh installation, and on every
    existing table [tasks] that has a column [session_type] and whose
    column names are written in lower case, whichever of the later columns
    it already has. *)
Theorem initDb_succeeds (existing : option Migration.Table) :
  (forall t, existing = Some t ->
     "session_type" ∈ Migration.columns t
     /\ forall c, c ∈ Migration.columns t -> Migration.lower c = c) ->
  is_Some (Migration.initDb existing).
Proof.
  intros Hex. unfold Migration.initDb.
  set (t := default Migration.created_tasks existing).
  assert ("session_type" ∈ Migration.columns t
          /\ forall c, c ∈ Migration.columns t -> Migration.lower c = c)
    as [Hst Hlow].
  { unfold t. destruct existing as [t0|]; simpl; [now apply Hex|].
    split; [apply (bool_decide_unpack _); vm_compute; exact I|].
    intros c Hin.
    repeat (apply elem_of_cons in Hin as [-> | Hin]; [vm_compute; reflexivity|]).
    now apply elem_of_nil in Hin. }
  unfold Migration.ensureColumns.
  destruct (adds_succeed (Migration.columns t) Migration.added t Hlow added_nodup
              added_lower ltac:(auto)) as [t1 E1].
  rewrite E1. apply adds_spec in E1 as Et1.
  assert (Migration.columns t1
          = (Migration.columns t
             ++ (fst <$> filter (fun c : string * Migration.SqlVal =>
                                   c.1 ∉ Migration.columns t) Migration.added))%list)
    as Hcols by (rewrite Et1; apply add_columns_columns).
  destruct (resolve_some (Migration.columns t1) "session_type" "session_type")
    as [s Es]; [rewrite Hcols; apply elem_of_app; now left | reflexivity |].
  destruct (resolve_some (Migration.columns t1) "points_session_type"
              "points_session_type") as [x Ex]; [|reflexivity|].
  { rewrite Hcols.
    destruct (decide ("points_session_type" ∈ Migration.columns t)) as [Hin|Hin];
      apply elem_of_app; [now left|right].
    apply list_elem_of_fmap. exists ("points_session_type", Migration.SNull).
    split; [reflexivity|]. apply list_elem_of_filter. split; [exact Hin|].
    unfold Migration.added.
    repeat first [apply list_elem_of_here | apply list_elem_of_further]. }
  rewrite Ex, Es. eauto.
Qed.

Lemma initDb_succeeds_witness :
  is_Some (Migration.initDb (Some Migration.first_version)).
Proof.
  apply initDb_succeeds. intros t [= <-]. split.
  - apply (bool_decide_unpack _). vm_compute. exact I.
  - intros c Hin. simpl in Hin.
    repeat (apply elem_of_cons in Hin as [-> | Hin]; [vm_compute; reflexivity|]).
    now apply elem_of_nil in Hin.
Defined.
